(** * Session and transport multiplexing layer of the DataForSEO MCP server

    A shallow embedding of [src/index-http.ts] (the stateless Streamable-HTTP
    server, below [Module Stateless]) and of the session-tracking server
    with SSE compatibility that follows it in the same source file (below
    [Module Tracking]), together with the properties of the credential
    extractor, the session store, the router, the reaper and the shutdown
    handler.

    Conventions.
    - A JavaScript string is represented by the bytes of its UTF-8 encoding
      (Rocq's [string]); [toString("utf-8")] is then the identity on
      well-formed text, and [split] on an ASCII separator is the byte-level
      split.
    - [T | undefined] is [option T]; truthiness of a [string | undefined]
      is [truthy].
    - [Date.now()] is an integer number of milliseconds ([Z]).
    - Calls into the MCP SDK and into Express (transport [close],
      [handleRequest], [getServer], [connect], the registration of event
      listeners) are recorded as events of a trace; whether such a call
      raises is read from the model of the object called or from an
      oracle record.
    - A callback the module hands out ([onsessioninitialized], the close
      callbacks [cleanup]) is a definition of its own.  Where the SDK runs
      one while it handles a request, the model of that call runs it; the
      events that run one later (a response that closes, a socket that
      times out) are not part of a handler, and a property that speaks of
      them runs the callback between the handlers. *)

From Stdlib Require Import ZArith NArith Ascii String List Lia.
From stdpp Require Import gmap strings list fin_maps.

Local Open Scope Z_scope.

(* ===================================================================== *)
(** ** Platform: [Buffer.from(s, "base64").toString("utf-8")]            *)
(* ===================================================================== *)

(** Node's base64 decoder is lenient: characters outside the alphabet are
    skipped, the first ['='] ends the input, and both the standard and the
    URL-safe alphabets are accepted.  A trailing group of two (three)
    sextets yields one (two) bytes; a single trailing sextet yields none. *)
Module Base64.

Definition alphabet : list ascii :=
  list_ascii_of_string
    "ABCDEFGHIJKLMNOPQRSTUVWXYZabcdefghijklmnopqrstuvwxyz0123456789+/".

Definition pad : ascii := "="%char.

Definition b64char (n : N) : ascii := nth (N.to_nat n) alphabet pad.

Fixpoint index_of (c : ascii) (l : list ascii) (i : N) : option N :=
  match l with
  | [] => None
  | x :: r => if Ascii.eqb c x then Some i else index_of c r (N.succ i)
  end.

Definition unbase64 (c : ascii) : option N :=
  if Ascii.eqb c "-" then Some 62%N
  else if Ascii.eqb c "_" then Some 63%N
  else index_of c alphabet 0%N.

(** The legal sextets of the input, up to the first padding character. *)
Fixpoint sextets (l : list ascii) : list N :=
  match l with
  | [] => []
  | c :: r =>
      if Ascii.eqb c pad then []
      else match unbase64 c with
           | Some v => v :: sextets r
           | None => sextets r
           end
  end.

Fixpoint bytes_of_sextets (l : list N) : list N :=
  match l with
  | s0 :: s1 :: s2 :: s3 :: r =>
      (s0 * 4 + s1 / 16 :: (s1 mod 16) * 16 + s2 / 4
         :: (s2 mod 4) * 64 + s3 :: bytes_of_sextets r)%N
  | [s0; s1; s2] => [s0 * 4 + s1 / 16; (s1 mod 16) * 16 + s2 / 4]%N
  | [s0; s1] => [s0 * 4 + s1 / 16]%N
  | _ => []
  end.

(** What a client does to build the header: RFC 4648 with padding. *)
Fixpoint encode_bytes (l : list N) : list ascii :=
  match l with
  | [] => []
  | [a] =>
      [b64char (a / 4); b64char ((a mod 4) * 16); pad; pad]%N
  | [a; b] =>
      [b64char (a / 4); b64char ((a mod 4) * 16 + b / 16);
       b64char ((b mod 16) * 4); pad]%N
  | a :: b :: c :: r =>
      (b64char (a / 4) :: b64char ((a mod 4) * 16 + b / 16)
         :: b64char ((b mod 16) * 4 + c / 64) :: b64char (c mod 64)
         :: encode_bytes r)%N
  end.

Definition bytes_of_string (s : string) : list N :=
  map N_of_ascii (list_ascii_of_string s).

Definition string_of_bytes (l : list N) : string :=
  string_of_list_ascii (map ascii_of_N l).

Definition encode (s : string) : string :=
  string_of_list_ascii (encode_bytes (bytes_of_string s)).

(** [Buffer.from(s, "base64").toString("utf-8")] *)
Definition decode (s : string) : string :=
  string_of_bytes (bytes_of_sextets (sextets (list_ascii_of_string s))).

End Base64.

(* ===================================================================== *)
(** ** JavaScript values used by the server                              *)
(* ===================================================================== *)

Module Js.

(** Truthiness of a [string | undefined]: [undefined] and [""] are falsy. *)
Definition truthy (v : option string) : bool :=
  match v with
  | Some s => negb (String.eqb s "")
  | None => false
  end.

(** [s.startsWith(p)] *)
Fixpoint startsWith (s p : string) {struct p} : bool :=
  match p with
  | EmptyString => true
  | String a p' =>
      match s with
      | EmptyString => false
      | String b s' => Ascii.eqb a b && startsWith s' p'
      end
  end.

(** [s.split(sep)] for a one-character separator: never empty. *)
Fixpoint split (sep : ascii) (s : string) : list string :=
  match s with
  | EmptyString => [EmptyString]
  | String c r =>
      if Ascii.eqb c sep then EmptyString :: split sep r
      else match split sep r with
           | x :: xs => String c x :: xs
           | [] => [String c EmptyString]
           end
  end.

(** [s.includes(c)] for a one-character [c]. *)
Fixpoint includes (s : string) (c : ascii) : bool :=
  match s with
  | EmptyString => false
  | String x r => Ascii.eqb x c || includes r c
  end.

(** The property key an index expression [o[k]] uses for [k]. *)
Definition key (k : option string) : string :=
  match k with Some s => s | None => "undefined" end.

(** Names every plain object inherits from [Object.prototype]; reading
    one of them from [{}] yields a function or an object, never
    [undefined]. *)
Definition prototype_keys : list string :=
  ["constructor"; "__proto__"; "hasOwnProperty"; "isPrototypeOf";
   "propertyIsEnumerable"; "toLocaleString"; "toString"; "valueOf";
   "__defineGetter__"; "__defineSetter__"; "__lookupGetter__";
   "__lookupSetter__"].

Definition inherited (k : string) : bool :=
  existsb (String.eqb k) prototype_keys.

End Js.

(* ===================================================================== *)
(** ** Requests and responses                                            *)
(* ===================================================================== *)

Inductive Method := GET | POST | DELETE | PUT.

(** The request body after [express.json()]: what the handlers look at. *)
Record Body := {
  isInitializeRequest : bool;   (* the SDK's predicate on [req.body] *)
  tool : option string;         (* [req.body.tool] *)
  content : string
}.

(** [interface Request extends ExpressRequest] *)
Record Request := {
  method : Method;
  path : string;
  authorization : option string;    (* [req.headers.authorization] *)
  mcp_session_id : option string;   (* [req.headers["mcp-session-id"]] *)
  query_sessionId : option string;  (* [req.query.sessionId] *)
  body : Body;
  username : option string;
  password : option string
}.

Definition with_credentials (req : Request) (u p : option string) : Request :=
  {| method := method req; path := path req;
     authorization := authorization req;
     mcp_session_id := mcp_session_id req;
     query_sessionId := query_sessionId req;
     body := body req; username := u; password := p |}.

Inductive Payload :=
  | JsonRpcError (code : Z) (message : string)
      (* [{ jsonrpc: "2.0", error: { code, message }, id: null }] *)
  | ErrorOnly (error : string)
      (* [{ error }] *)
  | Validation (valid : option bool) (error message : string)
      (* [{ valid, error, message }]; [valid: "unknown"] is [None] *)
  | ValidationOk (user : option string)
      (* [{ valid: true, message, username, timestamp }] *)
  | Text (s : string)
      (* [res.send(s)] *)
  | Document (title : string).
      (* the informational JSON bodies *)

Record Response := { status : Z; payload : Payload }.

(** The [error.code] member of a response body, when it has one. *)
Definition error_code (r : Response) : option Z :=
  match payload r with
  | JsonRpcError c _ => Some c
  | _ => None
  end.

(** [process.env] *)
Record Env := {
  DATAFORSEO_USERNAME : option string;
  DATAFORSEO_PASSWORD : option string
}.

(* ===================================================================== *)
(** ** Credential extractor: [authMiddleware]                            *)
(* ===================================================================== *)

Inductive MwResult :=
  | Next (req : Request)        (* [next()] *)
  | Reject (r : Response)       (* a response was sent, the chain stops *)
  | Raise.                      (* an uncaught exception *)

Definition authMiddleware (req : Request) : MwResult :=
  match authorization req with
  | None => Next req
  | Some authHeader =>
    if negb (Js.truthy (Some authHeader)) then Next req
    else if Js.startsWith authHeader "Basic " then
      match Js.split " " authHeader !! 1%nat with
      | None => Raise
      | Some base64Credentials =>
        let credentials := Base64.decode base64Credentials in
        let parts := Js.split ":" credentials in
        let username := parts !! 0%nat in
        let password := parts !! 1%nat in
        if negb (Js.truthy username) || negb (Js.truthy password) then
          Reject {| status := 401;
                    payload := JsonRpcError (-32001) "Invalid credentials" |}
        else Next (with_credentials req username password)
      end
    else if Js.startsWith authHeader "Bearer " then
      match Js.split " " authHeader !! 1%nat with
      | Some (String c r as token) =>
        let credentials := Base64.decode token in
        let parts := Js.split ":" credentials in
        let username := parts !! 0%nat in
        let password := parts !! 1%nat in
        if negb (Js.truthy username) || negb (Js.truthy password) then
          Reject {| status := 401;
                    payload := JsonRpcError (-32001)
                      "Invalid Bearer token format. Expected base64 encoded 'username:password'" |}
        else Next (with_credentials req username password)
      | _ =>
        Reject {| status := 401;
                  payload := JsonRpcError (-32001) "Invalid Bearer token" |}
      end
    else Next req
  end.

(** The "check credentials" block every protected handler starts with:
    keep the pair attached by the middleware, else fall back to the
    environment; [None] when the handler must answer 401. *)
Definition credentials (env : Env) (req : Request) : option Request :=
  if negb (Js.truthy (username req)) && negb (Js.truthy (password req)) then
    let envUsername := DATAFORSEO_USERNAME env in
    let envPassword := DATAFORSEO_PASSWORD env in
    if negb (Js.truthy envUsername) || negb (Js.truthy envPassword) then None
    else Some (with_credentials req envUsername envPassword)
  else Some req.

(* ===================================================================== *)
(** ** Server state, events and the handler monad                        *)
(* ===================================================================== *)

(** Configuration constants *)
Definition CONNECTION_TIMEOUT : Z := 30000. (* 30 seconds *)
Definition CLEANUP_INTERVAL : Z := 60000.   (* 1 minute *)

Inductive TransportKind := StreamableHTTP | SSE.

(** A transport object of the SDK.  [sessionId] is the object's property of
    that name; [close_raises] says what its [close()] does when called. *)
Record Transport := {
  tid : nat;
  kind : TransportKind;
  sessionId : option string;
  close_raises : bool
}.

(** [interface TransportWithTimestamp] *)
Record TransportWithTimestamp := {
  transport : Transport;
  lastActivity : Z
}.

Inductive Event :=
  | ConsoleLog (msg : string)
  | ConsoleError (msg : string)
  | TransportClose (t : Transport)
  | ServerClose
  | GetServer (u p : option string)
  | ServerConnect (t : Transport)
  | HandleRequest (t : Transport) (req : Request)
  | HandlePostMessage (t : Transport) (req : Request)
  | MakeRequest (u p : option string)
  | SocketSetTimeout (ms : Z)
  | SetOnClose (t : Transport)
      (* [t.onclose = cleanup], with the close callback of [t] *)
  | Listen (emitter event : string) (t : Transport)
      (* [emitter.on(event, callback)], with a close callback of [t] *)
  | ClearInterval
  | HttpServerClose
  | ProcessExit (code : Z).

(** [transports] is the module-level record; [trace] collects the calls
    that leave the module, in program order. *)
Record World := {
  transports : gmap string TransportWithTimestamp;
  trace : list Event
}.

Inductive Result (A : Type) :=
  | Returned (a : A)
  | Thrown (err : string).
Arguments Returned {A} a.
Arguments Thrown {A} err.

Definition M (A : Type) : Type := World -> Result A * World.

#[global] Instance M_ret : MRet M := fun A a w => (Returned a, w).

#[global] Instance M_bind : MBind M := fun A B f m w =>
  match m w with
  | (Returned a, w') => f a w'
  | (Thrown e, w') => (Thrown e, w')
  end.

Definition throw {A} (e : string) : M A := fun w => (Thrown e, w).

(** [try { m } catch (error) { h error }] *)
Definition try_catch {A} (m : M A) (h : string -> M A) : M A := fun w =>
  match m w with
  | (Thrown e, w') => h e w'
  | r => r
  end.

Definition emit (e : Event) : M unit := fun w =>
  (Returned tt, {| transports := transports w; trace := trace w ++ [e] |}).

Definition read_transports : M (gmap string TransportWithTimestamp) :=
  fun w => (Returned (transports w), w).

Definition update_transports
    (f : gmap string TransportWithTimestamp ->
         gmap string TransportWithTimestamp) : M unit := fun w =>
  (Returned tt, {| transports := f (transports w); trace := trace w |}).

Fixpoint forEach {A} (f : A -> M unit) (l : list A) : M unit :=
  match l with
  | [] => mret tt
  | x :: r => f x;; forEach f r
  end.

(** [transport.close()], as the code that calls it sees it: the call is
    recorded and returns or throws.  What the SDK does inside the call is
    not modelled; in particular the [close()] of a transport built by
    [/mcp] runs its [onclose], which is the close callback of that
    transport.  A trace below lists the calls made by the code it names,
    not those of a callback the SDK runs inside [close()]. *)
Definition close (t : Transport) : M unit :=
  emit (TransportClose t);;
  if close_raises t then throw "close" else mret tt.

(** The value of [transports[k]]: an own entry, something inherited from
    [Object.prototype] (truthy, and without a [transport] member), or
    [undefined]. *)
Inductive Property :=
  | Own (e : TransportWithTimestamp)
  | Inherited
  | Undefined.

Definition get (ts : gmap string TransportWithTimestamp) (k : string)
  : Property :=
  match ts !! k with
  | Some e => Own e
  | None => if Js.inherited k then Inherited else Undefined
  end.

(** What the environment of the module answers: outcomes of SDK and API
    calls made while one request is handled, and the objects the SDK
    constructs for it. *)
Inductive ApiOutcome := ApiOk | ApiUnauthorized | ApiFailed (details : string).

Record Outside := {
  getServer_raises : bool;
  connect_raises : bool;
  handleRequest_raises : bool;
  headersSent : bool;              (* [res.headersSent] in a catch block *)
  new_transport_id : nat;          (* identity of a transport built now *)
  new_transport_close_raises : bool;
  randomUUID : string;
  initialization_accepted : bool;  (* the SDK accepts the initialize message *)
  termination_accepted : bool;     (* the SDK accepts a DELETE and closes
                                      the transport *)
  makeRequest : ApiOutcome
}.

Definition getServer (o : Outside) (u p : option string) : M unit :=
  emit (GetServer u p);;
  if getServer_raises o then throw "getServer" else mret tt.

Definition connect (o : Outside) (t : Transport) : M unit :=
  emit (ServerConnect t);;
  if connect_raises o then throw "connect" else mret tt.

(** What a handler leaves behind for the client. *)
Inductive Outcome :=
  | Replied (r : Response)   (* the handler wrote the response itself *)
  | Delegated                (* the transport writes (or wrote) it *)
  | Unrouted.                (* no route matched *)

Definition reply (st : Z) (p : Payload) : M Outcome :=
  mret (Replied {| status := st; payload := p |}).

(** [POST /validate-credentials], the same in both servers. *)
Definition validate_credentials (env : Env) (o : Outside) (req : Request)
  : M Outcome :=
  try_catch
    (match credentials env req with
     | None =>
         reply 401 (Validation (Some false) "No credentials provided"
           "Provide DataForSEO credentials via Authorization header")
     | Some req =>
         emit (MakeRequest (username req) (password req));;
         match makeRequest o with
         | ApiOk => reply 200 (ValidationOk (username req))
         | ApiUnauthorized =>
             emit (ConsoleError "Credential validation failed:");;
             reply 401 (Validation (Some false) "Invalid credentials"
               "DataForSEO rejected the provided credentials")
         | ApiFailed details =>
             emit (ConsoleError "Credential validation failed:");;
             reply 200 (Validation None "Unable to validate credentials"
               "DataForSEO API request failed, but credentials might be valid")
         end
     end)
    (fun _ =>
       emit (ConsoleError "Error validating credentials:");;
       reply 500 (Validation (Some false) "Server error during validation"
         "An internal error occurred while validating credentials")).

(** Run the middleware, then the handler. *)
Definition guarded (h : Request -> M Outcome) (req : Request) : M Outcome :=
  match authMiddleware req with
  | Next req' => h req'
  | Reject r => mret (Replied r)
  | Raise => throw "TypeError"
  end.

(* ===================================================================== *)
(** ** The stateless server ([main] of [index-http.ts])                  *)
(* ===================================================================== *)

Module Stateless.

(** [new StreamableHTTPServerTransport({ ... })]: no session id until
    the transport is initialized. *)
Definition new_transport (o : Outside) : Transport :=
  {| tid := new_transport_id o; kind := StreamableHTTP;
     sessionId := None; close_raises := new_transport_close_raises o |}.

Definition handleRequest (o : Outside) (t : Transport) (req : Request)
  : M Outcome :=
  emit (HandleRequest t req);;
  if handleRequest_raises o then throw "handleRequest" else mret Delegated.

(** [transport.close(); server.close();] after [res.json(...)].  An
    exception here reaches the catch block of the handler, which logs
    it and calls [res.status(500).json(...)]; the response is already
    sent, so that call throws and the exception leaves the handler. *)
Definition dispose (t : Transport) (what : string) : M unit :=
  try_catch (close t;; emit ServerClose)
            (fun _ => emit (ConsoleError what);;
                      throw "ERR_HTTP_HEADERS_SENT").

Definition auth_required : string :=
  "Authentication required. Provide DataForSEO credentials via Basic Auth or environment variables.".

(** [GET /tools].  The handler is one [try] block with [res.json(...)]
    in its middle; [sent] tells the two halves apart: an exception
    before [res.json] is answered 500 by the catch block, one after it
    is that of [dispose].  The credential check stands inside the [try]
    in the source and cannot raise. *)
Definition tools (env : Env) (o : Outside) (req : Request) : M Outcome :=
  match credentials env req with
  | None => reply 401 (ErrorOnly auth_required)
  | Some req =>
      let transport := new_transport o in
      sent ← try_catch
               (getServer o (username req) (password req);;
                connect o transport;;
                mret true)
               (fun _ => emit (ConsoleError "Error listing tools:");;
                         mret false);
      if sent : bool then
        dispose transport "Error listing tools:";;
        reply 200 (Document "tools")
      else reply 500 (ErrorOnly "Failed to list tools")
  end.

(** [POST /tool], of the same form. *)
Definition tool_ (env : Env) (o : Outside) (req : Request) : M Outcome :=
  if negb (Js.truthy (tool (body req))) then
    reply 400 (ErrorOnly "Missing 'tool' parameter")
  else
    match credentials env req with
    | None => reply 401 (ErrorOnly auth_required)
    | Some req =>
        let transport := new_transport o in
        sent ← try_catch
                 (getServer o (username req) (password req);;
                  connect o transport;;
                  mret true)
                 (fun _ => emit (ConsoleError "Error executing tool:");;
                           mret false);
        if sent : bool then
          dispose transport "Error executing tool:";;
          reply 200 (Document "tool")
        else reply 500 (ErrorOnly "Failed to execute tool")
    end.

Definition internal_error (o : Outside) : M Outcome :=
  emit (ConsoleError "Error handling MCP request:");;
  if negb (headersSent o) then
    reply 500 (JsonRpcError (-32603) "Internal server error")
  else mret Delegated.

(** [POST /mcp].  The two [console.error(Date.now().toLocaleString())]
    prints are not recorded.  The listener registered last closes the
    transport and the server when the request closes. *)
Definition mcp_post (env : Env) (o : Outside) (req : Request) : M Outcome :=
  try_catch
    (match credentials env req with
     | None =>
         emit (ConsoleError "No DataForSEO credentials provided");;
         reply 401 (JsonRpcError (-32001)
           "Authentication required. Provide DataForSEO credentials.")
     | Some req =>
         getServer o (username req) (password req);;
         let transport := new_transport o in
         connect o transport;;
         emit (ConsoleError "handle request");;
         r ← handleRequest o transport req;
         emit (ConsoleError "end handle request");;
         emit (Listen "req" "close" transport);;
         mret r
     end)
    (fun _ => internal_error o).

(** [GET /mcp] *)
Definition mcp_get (req : Request) : M Outcome :=
  emit (ConsoleError "Received GET MCP request");;
  reply 405 (JsonRpcError (-32000) "Method not allowed.").

(** [DELETE /mcp] *)
Definition mcp_delete (req : Request) : M Outcome :=
  emit (ConsoleError "Received DELETE MCP request");;
  reply 405 (JsonRpcError (-32000) "Method not allowed.").

Definition info (title : string) (req : Request) : M Outcome :=
  reply 200 (Document title).

Inductive Route :=
  | Root | Health | Tools | Tool | McpPost | McpGet | McpDelete
  | ApiDocs | ValidateCredentials.

(** The route table, in registration order.  Paths are compared as
    written. *)

Definition route (m : Method) (p : string) : option Route :=
  match m with
  | GET =>
      if String.eqb p "/" then Some Root
      else if String.eqb p "/health" then Some Health
      else if String.eqb p "/tools" then Some Tools
      else if String.eqb p "/mcp" then Some McpGet
      else if String.eqb p "/api-docs" then Some ApiDocs
      else None
  | POST =>
      if String.eqb p "/tool" then Some Tool
      else if String.eqb p "/mcp" then Some McpPost
      else if String.eqb p "/validate-credentials"
      then Some ValidateCredentials
      else None
  | DELETE => if String.eqb p "/mcp" then Some McpDelete else None
  | PUT => None
  end.

(** The routes registered with [authMiddleware]. *)
Definition protected (r : Route) : bool :=
  match r with
  | Tools | Tool | McpPost | ValidateCredentials => true
  | _ => false
  end.

(** This server's middleware also prints the header it received. *)
Definition guarded_logged (h : Request -> M Outcome) (req : Request)
  : M Outcome :=
  emit (ConsoleError (Js.key (authorization req)));;
  guarded h req.

Definition handle (env : Env) (o : Outside) (r : Route) (req : Request)
  : M Outcome :=
  match r with
  | Root => info "healthy" req
  | Health => info "healthy" req
  | Tools => guarded_logged (tools env o) req
  | Tool => guarded_logged (tool_ env o) req
  | McpPost => guarded_logged (mcp_post env o) req
  | McpGet => mcp_get req
  | McpDelete => mcp_delete req
  | ApiDocs => info "api-docs" req
  | ValidateCredentials => guarded_logged (validate_credentials env o) req
  end.

Definition serve (env : Env) (o : Outside) (req : Request) : M Outcome :=
  match route (method req) (path req) with
  | Some r => handle env o r req
  | None => mret Unrouted
  end.

End Stateless.

(* ===================================================================== *)
(** ** The session-tracking server (Streamable HTTP and SSE)             *)
(* ===================================================================== *)

Module Tracking.

Definition closing_error (sessionId : string) : string :=
  "Error closing transport for session " +:+ sessionId +:+ ":".

(** *** Stale-session reaper *)

(** The body of the [forEach] callback, for one pair of
    [Object.entries(transports)]. *)
Definition reap (timeout now : Z) (entry : string * TransportWithTimestamp)
  : M unit :=
  let '(sessionId, e) := entry in
  if bool_decide (now - lastActivity e > timeout) then
    emit (ConsoleLog
            ("Cleaning up stale connection for session " +:+ sessionId));;
    try_catch (close (transport e))
              (fun _ => emit (ConsoleError (closing_error sessionId)));;
    update_transports (delete sessionId)
  else mret tt.

(** One sweep over a snapshot [entries] of the store, in its order. *)
Definition sweep (timeout now : Z)
    (entries : list (string * TransportWithTimestamp)) : M unit :=
  forEach (reap timeout now) entries.

(** [cleanupStaleConnections], run every [CLEANUP_INTERVAL] ms.  The
    snapshot is taken in the enumeration order of the map. *)
Definition cleanupStaleConnections (now : Z) : M unit :=
  ts ← read_transports;
  sweep CONNECTION_TIMEOUT now (map_to_list ts).

(** *** Streamable HTTP: [app.all("/mcp")] *)

(** [onsessioninitialized]: the SDK calls it with the id it generated,
    after storing that id in the transport. *)
Definition onsessioninitialized (transport : Transport) (now : Z)
    (sessionId : string) : M unit :=
  emit (ConsoleLog
          ("StreamableHTTP session initialized with ID: " +:+ sessionId));;
  update_transports
    (insert sessionId {| transport := transport; lastActivity := now |}).

(** The close callback [cleanup] of a Streamable HTTP transport;
    [transport] is the transport object as it is when the callback
    runs.  The handler installs it as [transport.onclose] and as a
    listener of the request, the response and the socket. *)
Definition cleanup (transport : Transport) : M unit :=
  let sid := sessionId transport in
  ts ← read_transports;
  if Js.truthy sid &&
     match get ts (Js.key sid) with Undefined => false | _ => true end
  then
    emit (ConsoleLog
            ("Transport closed for session " +:+ Js.key sid
               +:+ ", removing from transports map"));;
    try_catch (close transport)
              (fun _ => emit (ConsoleError (closing_error (Js.key sid))));;
    update_transports (delete (Js.key sid))
  else mret tt.

Definition initialized (t : Transport) (id : string) : Transport :=
  {| tid := tid t; kind := kind t; sessionId := Some id;
     close_raises := close_raises t |}.

Definition is_post (m : Method) : bool :=
  match m with POST => true | _ => false end.

Definition is_delete (m : Method) : bool :=
  match m with DELETE => true | _ => false end.

(** [transport.handleRequest(req, res, req.body)], with the two
    callbacks the handler gave the transport.  A transport that has no
    session yet and accepts an initialize message generates an id with
    [sessionIdGenerator] and calls [onsessioninitialized].  A transport
    that accepts a DELETE ends its session ("Terminate session with
    DELETE to /mcp", says the banner of the server): it closes itself
    and so runs [onclose], which is [cleanup]. *)
Definition handleRequest (o : Outside) (now : Z) (t : Transport)
    (req : Request) : M Outcome :=
  emit (HandleRequest t req);;
  (match sessionId t with
   | None =>
       if isInitializeRequest (body req) && initialization_accepted o
       then onsessioninitialized (initialized t (randomUUID o)) now
              (randomUUID o)
       else mret tt
   | Some _ => mret tt
   end);;
  (if is_delete (method req) && termination_accepted o
   then cleanup t
   else mret tt);;
  if handleRequest_raises o then throw "handleRequest" else mret Delegated.

Definition method_name (m : Method) : string :=
  match m with
  | GET => "GET" | POST => "POST" | DELETE => "DELETE" | PUT => "PUT"
  end.

Definition different_protocol : M Outcome :=
  reply 400 (JsonRpcError (-32000)
    "Bad Request: Session exists but uses a different transport protocol").

Definition mcp (env : Env) (o : Outside) (now : Z) (req : Request)
  : M Outcome :=
  emit (ConsoleLog
          ("Received " +:+ method_name (method req) +:+ " request to /mcp"));;
  try_catch
    (let sessionId := mcp_session_id req in
     match credentials env req with
     | None =>
         reply 401 (JsonRpcError (-32001)
           "Authentication required. Provide DataForSEO credentials.")
     | Some req =>
         ts ← read_transports;
         match (if Js.truthy sessionId then get ts (Js.key sessionId)
                else Undefined) with
         | Own transportData =>
             match kind (transport transportData) with
             | StreamableHTTP =>
                 update_transports
                   (insert (Js.key sessionId)
                      {| transport := transport transportData;
                         lastActivity := now |});;
                 handleRequest o now (transport transportData) req
             | SSE =>
                 emit (ConsoleError
                   "Session exists but uses a different transport protocol");;
                 different_protocol
             end
         | Inherited =>
             emit (ConsoleError
               "Session exists but uses a different transport protocol");;
             different_protocol
         | Undefined =>
             if negb (Js.truthy sessionId) && is_post (method req)
                && isInitializeRequest (body req)
             then
               let transport := Stateless.new_transport o in
               emit (SetOnClose transport);;
               emit (SocketSetTimeout CONNECTION_TIMEOUT);;
               emit (Listen "req.socket" "error" transport);;
               emit (Listen "req.socket" "timeout" transport);;
               emit (Listen "req" "error" transport);;
               emit (Listen "res" "error" transport);;
               emit (Listen "res" "close" transport);;
               getServer o (username req) (password req);;
               connect o transport;;
               handleRequest o now transport req
             else
               emit (ConsoleError "No valid session ID provided");;
               reply 400 (JsonRpcError (-32000)
                 "Bad Request: No valid session ID provided")
         end
     end)
    (fun _ => Stateless.internal_error o).

(** *** HTTP+SSE: [GET /sse] and [POST /messages] *)

(** [new SSEServerTransport("/messages", res)]: the constructor draws
    the session id. *)
Definition new_sse_transport (o : Outside) : Transport :=
  {| tid := new_transport_id o; kind := SSE;
     sessionId := Some (randomUUID o);
     close_raises := new_transport_close_raises o |}.

(** The close callback [cleanup] of an SSE transport, installed as a
    listener of the response, the request and the socket. *)
Definition cleanup_sse (transport : Transport) : M unit :=
  try_catch (close transport)
            (fun _ => emit (ConsoleError
                              (closing_error (Js.key (sessionId transport)))));;
  update_transports (delete (Js.key (sessionId transport))).

Definition sse (env : Env) (o : Outside) (now : Z) (req : Request)
  : M Outcome :=
  emit (ConsoleLog "Received GET request to /sse (deprecated SSE transport)");;
  match credentials env req with
  | None =>
      emit (ConsoleError "No DataForSEO credentials provided");;
      reply 401 (JsonRpcError (-32001)
        "Authentication required. Provide DataForSEO credentials.")
  | Some req =>
      let transport := new_sse_transport o in
      update_transports
        (insert (Js.key (sessionId transport))
           {| transport := transport; lastActivity := now |});;
      emit (Listen "res" "close" transport);;
      emit (Listen "res" "error" transport);;
      emit (Listen "req" "error" transport);;
      emit (Listen "req.socket" "error" transport);;
      emit (Listen "req.socket" "timeout" transport);;
      emit (SocketSetTimeout CONNECTION_TIMEOUT);;
      getServer o (username req) (password req);;
      connect o transport;;
      mret Delegated
  end.

Definition handlePostMessage (o : Outside) (t : Transport) (req : Request)
  : M Outcome :=
  emit (HandlePostMessage t req);;
  if handleRequest_raises o then throw "handlePostMessage"
  else mret Delegated.

Definition messages (env : Env) (o : Outside) (now : Z) (req : Request)
  : M Outcome :=
  let sessionId := query_sessionId req in
  match credentials env req with
  | None =>
      reply 401 (JsonRpcError (-32001)
        "Authentication required. Provide DataForSEO credentials.")
  | Some req =>
      ts ← read_transports;
      match get ts (Js.key sessionId) with
      | Undefined => reply 400 (Text "No transport found for sessionId")
      | Inherited => different_protocol
      | Own transportData =>
          match kind (transport transportData) with
          | StreamableHTTP => different_protocol
          | SSE =>
              update_transports
                (insert (Js.key sessionId)
                   {| transport := transport transportData;
                      lastActivity := now |});;
              handlePostMessage o (transport transportData) req
          end
      end
  end.

(** *** Shutdown: [process.on("SIGINT")] *)

(** One iteration of [for (const sessionId in transports)].  A property
    deleted before the loop reaches it is not visited. *)
Definition shutdown_one (sessionId : string) : M unit :=
  ts ← read_transports;
  match ts !! sessionId with
  | None => mret tt
  | Some e =>
      try_catch
        (emit (ConsoleLog ("Closing transport for session " +:+ sessionId));;
         close (transport e);;
         update_transports (delete sessionId))
        (fun _ => emit (ConsoleError (closing_error sessionId)))
  end.

(** The handler, with [keys] the own keys of [transports] in the order
    the loop enumerates them. *)
Definition on_SIGINT (keys : list string) : M unit :=
  emit (ConsoleLog "Shutting down server...");;
  emit ClearInterval;;
  emit HttpServerClose;;
  forEach shutdown_one keys;;
  emit (ConsoleLog "Server shutdown complete");;
  emit (ProcessExit 0).

(** *** Routing *)

Inductive Route :=
  | Mcp | Docs | ApiDocs | ValidateCredentials | Root | Health
  | Sse | Messages.

Definition route (m : Method) (p : string) : option Route :=
  if String.eqb p "/mcp" then Some Mcp
  else match m with
       | GET =>
           if String.eqb p "/docs" then Some Docs
           else if String.eqb p "/api-docs" then Some ApiDocs
           else if String.eqb p "/" then Some Root
           else if String.eqb p "/health" then Some Health
           else if String.eqb p "/sse" then Some Sse
           else None
       | POST =>
           if String.eqb p "/validate-credentials"
           then Some ValidateCredentials
           else if String.eqb p "/messages" then Some Messages
           else None
       | _ => None
       end.

Definition protected (r : Route) : bool :=
  match r with
  | Mcp | ValidateCredentials | Sse | Messages => true
  | _ => false
  end.

Definition handle (env : Env) (o : Outside) (now : Z) (r : Route)
    (req : Request) : M Outcome :=
  match r with
  | Mcp => guarded (mcp env o now) req
  | Docs => Stateless.info "docs" req
  | ApiDocs => Stateless.info "api-docs" req
  | ValidateCredentials => guarded (validate_credentials env o) req
  | Root => Stateless.info "healthy" req
  | Health => Stateless.info "healthy" req
  | Sse => guarded (sse env o now) req
  | Messages => guarded (messages env o now) req
  end.

Definition serve (env : Env) (o : Outside) (now : Z) (req : Request)
  : M Outcome :=
  match route (method req) (path req) with
  | Some r => handle env o now r req
  | None => mret Unrouted
  end.

End Tracking.

(* ===================================================================== *)
(** ** Checkers used by the proofs                                       *)
(* ===================================================================== *)

(** A sextet, printed and read back, is itself; its character is neither
    the padding character nor a space. *)
Definition sextet_ok (v : N) : bool :=
  match Base64.unbase64 (Base64.b64char v) with
  | Some w => N.eqb w v
  | None => false
  end
  && negb (Ascii.eqb (Base64.b64char v) Base64.pad)
  && negb (Ascii.eqb (Base64.b64char v) " ").

Definition is_byte (b : N) : Prop := (b < 256)%N.

(** The middleware answered 401 with the JSON-RPC error code -32001. *)
Definition unauthorized (r : MwResult) : Prop :=
  exists message,
    r = Reject {| status := 401;
                  payload := JsonRpcError (-32001) message |}.

(** The reaper's test on one entry. *)
Definition stale (timeout now : Z) (e : TransportWithTimestamp) : bool :=
  bool_decide (now - lastActivity e > timeout).

(** The transports whose [close()] a trace records, in call order. *)
Definition closes (tr : list Event) : list Transport :=
  omap (fun ev => match ev with TransportClose t => Some t | _ => None end) tr.

(** The calls to [getServer] a trace records. *)
Definition builds (tr : list Event) : nat :=
  length (List.filter
            (fun ev => match ev with GetServer _ _ => true | _ => false end)
            tr).

(** What one run of a handler produced, and the world it left. *)
Definition result {A} (m : M A) (w : World) : Result A := fst (m w).
Definition after {A} (m : M A) (w : World) : World := snd (m w).
Definition store {A} (m : M A) (w : World)
  : gmap string TransportWithTimestamp := transports (after m w).
(** The events a run appended to the trace. *)
Definition emitted {A} (m : M A) (w : World) : list Event :=
  drop (length (trace w)) (trace (after m w)).

(** Sample data for the concrete instances below. *)
Definition a_transport (n : nat) (k : TransportKind) (sid : string)
    (raises : bool) : Transport :=
  {| tid := n; kind := k; sessionId := Some sid; close_raises := raises |}.

Definition an_entry (n : nat) (k : TransportKind) (sid : string)
    (raises : bool) (t : Z) : TransportWithTimestamp :=
  {| transport := a_transport n k sid raises; lastActivity := t |}.

(** Two sessions: ["a"] (Streamable HTTP, idle since 0, [close()] raises)
    and ["b"] (SSE, active at 50000). *)
Definition two_sessions : World :=
  {| transports :=
       <["a" := an_entry 1 StreamableHTTP "a" true 0]>
         (<["b" := an_entry 2 SSE "b" false 50000]> ∅);
     trace := [] |}.

Definition no_env : Env :=
  {| DATAFORSEO_USERNAME := None; DATAFORSEO_PASSWORD := None |}.

Definition an_env : Env :=
  {| DATAFORSEO_USERNAME := Some "login"; DATAFORSEO_PASSWORD := Some "secret" |}.

(** An environment in which no SDK call raises. *)
Definition quiet : Outside :=
  {| getServer_raises := false; connect_raises := false;
     handleRequest_raises := false; headersSent := false;
     new_transport_id := 7; new_transport_close_raises := false;
     randomUUID := "0b6f2c1e-0000-4000-8000-000000000000";
     initialization_accepted := true; termination_accepted := true;
     makeRequest := ApiOk |}.

(** The request carries no [Authorization] header, or one whose scheme
    the middleware does not recognise. *)
Definition no_recognized_header (req : Request) : Prop :=
  match authorization req with
  | None => True
  | Some h =>
      Js.startsWith h "Basic " = false /\ Js.startsWith h "Bearer " = false
  end.

(** Nothing has attached credentials to the request yet. *)
Definition arrives (req : Request) : Prop :=
  username req = None /\ password req = None.

(** One of the two environment variables is unset or empty. *)
Definition env_incomplete (env : Env) : Prop :=
  Js.truthy (DATAFORSEO_USERNAME env) = false
  \/ Js.truthy (DATAFORSEO_PASSWORD env) = false.

(** Two requests that differ at most in their [Authorization] header. *)
Definition same_but_authorization (r1 r2 : Request) : Prop :=
  method r1 = method r2 /\ path r1 = path r2
  /\ mcp_session_id r1 = mcp_session_id r2
  /\ query_sessionId r1 = query_sessionId r2
  /\ body r1 = body r2
  /\ username r1 = username r2 /\ password r1 = password r2.

(** An event with the credentials of the request it carries blanked. *)
Definition blank (req : Request) : Request :=
  {| method := method req; path := path req; authorization := None;
     mcp_session_id := mcp_session_id req;
     query_sessionId := query_sessionId req; body := body req;
     username := None; password := None |}.

Definition anonymous (ev : Event) : Event :=
  match ev with
  | HandleRequest t req => HandleRequest t (blank req)
  | HandlePostMessage t req => HandlePostMessage t (blank req)
  | _ => ev
  end.

(** What [Tracking.handleRequest] does to the store and the events it
    adds after the [HandleRequest] event, spelled out: whether the SDK
    initializes a session on the transport, whether it terminates one,
    and whether the guard of the close callback then passes. *)
Definition initializes (o : Outside) (t : Transport) (b : Body) : bool :=
  match sessionId t with
  | None => isInitializeRequest b && initialization_accepted o
  | Some _ => false
  end.

Definition terminates (o : Outside) (m : Method) : bool :=
  Tracking.is_delete m && termination_accepted o.

(** The guard [sid && transports[sid]] of the close callback of [t]. *)
Definition registered (t : Transport)
    (ts : gmap string TransportWithTimestamp) : bool :=
  Js.truthy (sessionId t)
  && match get ts (Js.key (sessionId t)) with
     | Undefined => false
     | _ => true
     end.

(** The events of the close callback of [t] when its guard passes. *)
Definition cleanup_events (t : Transport) : list Event :=
  [ConsoleLog ("Transport closed for session " +:+ Js.key (sessionId t)
                 +:+ ", removing from transports map");
   TransportClose t]
  ++ (if close_raises t
      then [ConsoleError (Tracking.closing_error (Js.key (sessionId t)))]
      else []).

Definition initialized_store (o : Outside) (now : Z) (t : Transport)
    (b : Body) (ts : gmap string TransportWithTimestamp)
  : gmap string TransportWithTimestamp :=
  if initializes o t b
  then <[randomUUID o :=
           {| transport := Tracking.initialized t (randomUUID o);
              lastActivity := now |}]> ts
  else ts.

Definition handled_store (o : Outside) (now : Z) (t : Transport)
    (b : Body) (m : Method) (ts : gmap string TransportWithTimestamp)
  : gmap string TransportWithTimestamp :=
  let ts1 := initialized_store o now t b ts in
  if terminates o m && registered t ts1
  then delete (Js.key (sessionId t)) ts1
  else ts1.

Definition handled_tail (o : Outside) (now : Z) (t : Transport)
    (b : Body) (m : Method) (ts : gmap string TransportWithTimestamp)
  : list Event :=
  (if initializes o t b
   then [ConsoleLog ("StreamableHTTP session initialized with ID: "
                       +:+ randomUUID o)]
   else [])
  ++ (if terminates o m && registered t (initialized_store o now t b ts)
      then cleanup_events t
      else []).

(** What the resume branch of [Tracking.mcp] does after the entry is
    found: the entry is touched, the transport handles the request, and
    an exception is logged. *)
Definition touched (now : Z) (sid : string) (e : TransportWithTimestamp)
    (ts : gmap string TransportWithTimestamp)
  : gmap string TransportWithTimestamp :=
  <[sid := {| transport := transport e; lastActivity := now |}]> ts.

Definition resume_tail (o : Outside) (now : Z) (sid : string)
    (e : TransportWithTimestamp) (b : Body) (m : Method)
    (ts : gmap string TransportWithTimestamp) : list Event :=
  handled_tail o now (transport e) b m (touched now sid e ts)
  ++ (if handleRequest_raises o
      then [ConsoleError "Error handling MCP request:"] else []).

Definition resume_outcome (o : Outside) : Outcome :=
  if handleRequest_raises o && negb (headersSent o)
  then Replied {| status := 500;
                  payload := JsonRpcError (-32603) "Internal server error" |}
  else Delegated.

Definition resume_store (o : Outside) (now : Z) (sid : string)
    (e : TransportWithTimestamp) (b : Body) (m : Method)
    (ts : gmap string TransportWithTimestamp)
  : gmap string TransportWithTimestamp :=
  handled_store o now (transport e) b m (touched now sid e ts).



(** A request as it arrives: nothing attached yet. *)
Definition incoming (m : Method) (p : string) (auth sid : option string)
  : Request :=
  {| method := m; path := p; authorization := auth; mcp_session_id := sid;
     query_sessionId := None;
     body := {| isInitializeRequest := false; tool := None;
                content := EmptyString |};
     username := None; password := None |}.

(** The request [req] with its [Authorization] header replaced. *)
Definition with_authorization (req : Request) (h : option string) : Request :=
  {| method := method req; path := path req; authorization := h;
     mcp_session_id := mcp_session_id req;
     query_sessionId := query_sessionId req; body := body req;
     username := username req; password := password req |}.

(** What the middleware does with the token of a [Basic] or [Bearer]
    header once the scheme is recognised: reject with [message], or attach
    the first two colon-separated parts of the decoded text. *)
Definition decide_token (req : Request) (token message : string) : MwResult :=
  let parts := Js.split ":" (Base64.decode token) in
  if negb (Js.truthy (parts !! 0%nat)) || negb (Js.truthy (parts !! 1%nat))
  then Reject {| status := 401; payload := JsonRpcError (-32001) message |}
  else Next (with_credentials req (parts !! 0%nat) (parts !! 1%nat)).

(** The first space-separated field of the text after the scheme. *)
Definition first_field (rest : string) : string :=
  match Js.split " " rest with
  | t :: _ => t
  | [] => EmptyString
  end.

(** Two sessions whose transports close without raising. *)
Definition calm_sessions : World :=
  {| transports :=
       <["a" := an_entry 1 StreamableHTTP "a" false 0]>
         (<["b" := an_entry 2 SSE "b" false 50000]> ∅);
     trace := [] |}.

(** What the shutdown loop leaves of one entry: it stays when its key is
    not visited or its transport's [close()] raises. *)
Definition survives_shutdown (keys : list string) (i : string)
    (e : TransportWithTimestamp) : bool :=
  negb (bool_decide (i ∈ keys)) || close_raises (transport e).

(* ===================================================================== *)
(** ** Tool-name validation ([ValidateToolNames])                         *)
(* ===================================================================== *)

(** Tool names are ASCII identifiers; for those the [length] of the
    JavaScript string is the number of bytes. *)
Module ToolNames.

Inductive Verdict :=
  | Accepted                          (* the function returns *)
  | Duplicate (toolName : string)     (* "Duplicate tool name detected" *)
  | EmptyName                         (* "Tool name cannot be empty" *)
  | TooLong (names : list string).    (* "... exceed the maximum length" *)

(** The two nested [forEach] loops, over the keys of every module's
    tools in order.  [toolNames] is the set the loop consults; the
    source never adds a name to it, so it is passed on as it is. *)
Fixpoint scan (toolNames : gset string) (tooLongToolNames : list string)
    (names : list string) : Verdict + list string :=
  match names with
  | [] => inr tooLongToolNames
  | toolName :: rest =>
      if bool_decide (toolName ∈ toolNames) then inl (Duplicate toolName)
      else if Nat.eqb (String.length toolName) 0 then inl EmptyName
      else scan toolNames
             (if Nat.ltb 50 (String.length toolName)
              then tooLongToolNames ++ [toolName] else tooLongToolNames)
             rest
  end.

(** [modules]: for each loaded module, [Object.keys(module.getTools())]. *)
Definition ValidateToolNames (modules : list (list string)) : Verdict :=
  match scan ∅ [] (concat modules) with
  | inl thrown => thrown
  | inr tooLongToolNames =>
      if Nat.ltb 0 (length tooLongToolNames) then TooLong tooLongToolNames
      else Accepted
  end.

End ToolNames.

(* ===================================================================== *)
(** ** Field paths ([parseFieldPaths], [matchesWildcardPattern])          *)
(* ===================================================================== *)

Module Fields.





(** [l.every((x, index) => f x index)], from position [i] on. *)
Fixpoint every_from {A} (f : A -> nat -> bool) (i : nat) (l : list A)
  : bool :=
  match l with
  | [] => true
  | x :: r => f x i && every_from f (S i) r
  end.

(** [part === fieldParts[index]] *)
Definition same_part (part : string) (other : option string) : bool :=
  match other with
  | Some s => String.eqb part s
  | None => false
  end.

Definition matchesWildcardPattern (pattern fieldPath : string) : bool :=
  let patternParts := Js.split "." pattern in
  let fieldParts := Js.split "." fieldPath in
  if negb (Nat.eqb (length patternParts) (length fieldParts)) then false
  else every_from
         (fun part index =>
            String.eqb part "*" || same_part part (fieldParts !! index))
         0 patternParts.

End Fields.

(* ===================================================================== *)
(** ** Filter cache ([fetchAndCacheFilters])                              *)
(* ===================================================================== *)

Module FiltersCache.

(** [{ [field: string]: string }] *)
Definition Filters : Type := list (string * string).

(** The static members [cache] and [lastFetchTime]; a [cache] that is
    [undefined] is [None]. *)
Record State := { cache : option Filters; lastFetchTime : Z }.

Definition CACHE_TTL : Z := 24 * 60 * 60 * 1000. (* 24 hours *)

Definition initial : State := {| cache := Some []; lastFetchTime := 0 |}.

(** What requesting, validating and reading [tasks[0].result[0].search]
    gives: an exception, or the value read. *)
Inductive Fetch :=
  | FetchRaises
  | FetchReturns (search : option Filters).

(** One call: what it returns ([None] when it throws), whether it made
    a request, and the static members afterwards. *)
Record Run := {
  returned : option (option Filters);
  requested : bool;
  next : State
}.

Definition fresh (now : Z) (st : State) : bool :=
  match cache st with
  | Some _ => bool_decide (now - lastFetchTime st < CACHE_TTL)
  | None => false
  end.

Definition fetchAndCacheFilters (now : Z) (api : Fetch) (st : State) : Run :=
  if fresh now st then
    {| returned := Some (cache st); requested := false; next := st |}
  else
    match api with
    | FetchRaises => {| returned := None; requested := true; next := st |}
    | FetchReturns filters =>
        {| returned := Some filters; requested := true;
           next := {| cache := filters; lastFetchTime := now |} |}
    end.

End FiltersCache.

(** [l.join(sep)] for a one-character separator. *)
Fixpoint join (sep : ascii) (l : list string) : string :=
  match l with
  | [] => EmptyString
  | [x] => x
  | x :: r => x +:+ String sep (join sep r)
  end.

(** Segment by segment, the pattern has ["*"] or the field's segment. *)
Definition segment_matches (part fieldPart : string) : Prop :=
  part = "*" \/ part = fieldPart.

(** The two tests [ValidateToolNames] makes on a name. *)
Definition is_empty_name (n : string) : bool := Nat.eqb (String.length n) 0.
Definition is_long_name (n : string) : bool := Nat.ltb 50 (String.length n).

(* ===================================================================== *)
(** * Properties                                                          *)
(* ===================================================================== *)

(** ** Base64: decoding inverts encoding *)

Section Base64Facts.
Import Base64.

Lemma below_64 (v : N) : (v < 64)%N -> In v (map N.of_nat (seq 0 64)).
Proof.
  intros H. apply List.in_map_iff. exists (N.to_nat v). split.
  - apply N2Nat.id.
  - apply in_seq. lia.
Qed.

Lemma sextet_ok_table : forallb sextet_ok (map N.of_nat (seq 0 64)) = true.
Proof. vm_compute. reflexivity. Qed.

Lemma sextet_ok_below (v : N) : (v < 64)%N -> sextet_ok v = true.
Proof.
  intros H. pose proof sextet_ok_table as T.
  rewrite List.forallb_forall in T. apply T, below_64, H.
Qed.

Lemma unbase64_b64char (v : N) :
  (v < 64)%N -> unbase64 (b64char v) = Some v.
Proof.
  intros H. apply sextet_ok_below in H. unfold sextet_ok in H.
  apply andb_prop in H as [H _]. apply andb_prop in H as [H _].
  destruct (unbase64 (b64char v)) as [w|]; [|discriminate].
  apply N.eqb_eq in H. now subst.
Qed.

Lemma b64char_not_pad (v : N) :
  (v < 64)%N -> Ascii.eqb (b64char v) pad = false.
Proof.
  intros H. apply sextet_ok_below in H. unfold sextet_ok in H.
  apply andb_prop in H as [H _]. apply andb_prop in H as [_ H].
  now apply negb_true_iff in H.
Qed.

Lemma b64char_not_space (v : N) :
  (v < 64)%N -> Ascii.eqb (b64char v) " " = false.
Proof.
  intros H. apply sextet_ok_below in H. unfold sextet_ok in H.
  apply andb_prop in H as [_ H]. now apply negb_true_iff in H.
Qed.

Lemma sextets_b64char (v : N) (r : list ascii) :
  (v < 64)%N -> sextets (b64char v :: r) = v :: sextets r.
Proof.
  intros H. cbn [sextets].
  now rewrite (b64char_not_pad v H), (unbase64_b64char v H).
Qed.

Lemma sextets_pad (r : list ascii) : sextets (pad :: r) = [].
Proof. reflexivity. Qed.

(** Induction three bytes at a time, as the encoder recurses. *)
Lemma triples_ind (P : list N -> Prop) :
  P [] -> (forall a, P [a]) -> (forall a b, P [a; b]) ->
  (forall a b c r, P r -> P (a :: b :: c :: r)) ->
  forall l, P l.
Proof.
  intros H0 H1 H2 H3 l.
  enough (P l /\ (forall a, P (a :: l)) /\ (forall a b, P (a :: b :: l)))
    as [H _] by exact H.
  induction l as [|x l (IH0 & IH1 & IH2)].
  - repeat split; auto.
  - repeat split; auto.
Qed.

Ltac euclid := zify; Z.to_euclidean_division_equations; lia.

Lemma bytes_of_encode (l : list N) :
  Forall is_byte l -> bytes_of_sextets (sextets (encode_bytes l)) = l.
Proof.
  unfold is_byte.
  induction l as [|a|a b|a b c r IH] using triples_ind; intros Hl.
  - reflexivity.
  - inversion_clear Hl as [|? ? Ha _].
    cbn [encode_bytes].
    rewrite !sextets_b64char, sextets_pad by euclid.
    cbn [bytes_of_sextets]. f_equal. euclid.
  - inversion_clear Hl as [|? ? Ha Hl']. inversion_clear Hl' as [|? ? Hb _].
    cbn [encode_bytes].
    rewrite !sextets_b64char, sextets_pad by euclid.
    cbn [bytes_of_sextets]. f_equal; [euclid|]. f_equal. euclid.
  - inversion_clear Hl as [|? ? Ha Hl']. inversion_clear Hl' as [|? ? Hb Hl''].
    inversion_clear Hl'' as [|? ? Hc Hr].
    cbn [encode_bytes].
    rewrite !sextets_b64char by euclid.
    cbn [bytes_of_sextets]. rewrite (IH Hr).
    f_equal; [euclid|]. f_equal; [euclid|]. f_equal. euclid.
Qed.

Lemma bytes_of_string_bounded (s : string) :
  Forall is_byte (bytes_of_string s).
Proof.
  unfold bytes_of_string, is_byte. apply List.Forall_forall. intros b Hb.
  apply List.in_map_iff in Hb as (c & <- & _). apply N_ascii_bounded.
Qed.

Lemma string_of_bytes_of_string (s : string) :
  string_of_bytes (bytes_of_string s) = s.
Proof.
  unfold string_of_bytes, bytes_of_string.
  rewrite List.map_map.
  rewrite (List.map_ext _ (fun c => c)) by (intros c; apply ascii_N_embedding).
  rewrite List.map_id. apply string_of_list_ascii_of_string.
Qed.

(** [Buffer.from(encode(s), "base64").toString("utf-8") === s] *)
Lemma decode_encode (s : string) : decode (encode s) = s.
Proof.
  unfold decode, encode.
  rewrite list_ascii_of_string_of_list_ascii.
  rewrite bytes_of_encode by apply bytes_of_string_bounded.
  apply string_of_bytes_of_string.
Qed.

Lemma encode_bytes_no_space (l : list N) :
  Forall is_byte l ->
  existsb (fun x => Ascii.eqb x " ") (encode_bytes l) = false.
Proof.
  unfold is_byte.
  induction l as [|a|a b|a b c r IH] using triples_ind; intros Hl.
  - reflexivity.
  - inversion_clear Hl as [|? ? Ha _].
    cbn [encode_bytes existsb].
    rewrite !b64char_not_space by euclid. reflexivity.
  - inversion_clear Hl as [|? ? Ha Hl']. inversion_clear Hl' as [|? ? Hb _].
    cbn [encode_bytes existsb].
    rewrite !b64char_not_space by euclid. reflexivity.
  - inversion_clear Hl as [|? ? Ha Hl']. inversion_clear Hl' as [|? ? Hb Hl''].
    inversion_clear Hl'' as [|? ? Hc Hr].
    cbn [encode_bytes existsb].
    rewrite !b64char_not_space by euclid. rewrite (IH Hr). reflexivity.
Qed.

End Base64Facts.

(** ** Strings *)

Section JsFacts.

Lemma includes_of_list (l : list ascii) (c : ascii) :
  Js.includes (string_of_list_ascii l) c
  = existsb (fun x => Ascii.eqb x c) l.
Proof.
  induction l as [|x l IH]; cbn [string_of_list_ascii Js.includes existsb];
    [reflexivity | now rewrite IH].
Qed.

Lemma encode_no_space (s : string) :
  Js.includes (Base64.encode s) " " = false.
Proof.
  unfold Base64.encode. rewrite includes_of_list.
  apply encode_bytes_no_space, bytes_of_string_bounded.
Qed.

Lemma split_absent (sep : ascii) (s : string) :
  Js.includes s sep = false -> Js.split sep s = [s].
Proof.
  induction s as [|c s IH]; cbn [Js.split Js.includes]; intros H;
    [reflexivity|].
  apply orb_false_elim in H as [Hc Hs].
  rewrite Hc, (IH Hs). reflexivity.
Qed.

Lemma split_at_first (sep : ascii) (u r : string) :
  Js.includes u sep = false ->
  Js.split sep (u +:+ String sep r) = u :: Js.split sep r.
Proof.
  induction u as [|c u IH]; simpl; intros H.
  - now rewrite Ascii.eqb_refl.
  - apply orb_false_elim in H as [Hc Hu].
    rewrite Hc, (IH Hu). reflexivity.
Qed.

Lemma truthy_nonempty (s : string) :
  s <> EmptyString -> Js.truthy (Some s) = true.
Proof.
  intros H. cbn. apply negb_true_iff, String.eqb_neq. exact H.
Qed.

Lemma encode_nonempty (s : string) :
  s <> EmptyString -> Base64.encode s <> EmptyString.
Proof.
  intros Hs He. apply Hs. rewrite <- (decode_encode s), He. reflexivity.
Qed.

End JsFacts.

(** ** Credential extractor *)

Section Extractor.

Lemma parts_of_pair (user pass : string) :
  Js.includes user ":" = false -> Js.includes pass ":" = false ->
  Js.split ":" (user +:+ ":" +:+ pass) = [user; pass].
Proof.
  intros Hu Hp. change (":" +:+ pass) with (String ":" pass).
  rewrite (split_at_first _ _ _ Hu), (split_absent _ _ Hp). reflexivity.
Qed.

Lemma basic_token (token : string) :
  Js.includes token " " = false ->
  Js.split " " ("Basic " +:+ token) !! 1%nat = Some token.
Proof.
  intros H. change ("Basic " +:+ token) with ("Basic" +:+ String " " token).
  rewrite split_at_first by reflexivity.
  rewrite (split_absent _ _ H). reflexivity.
Qed.

Lemma bearer_token (token : string) :
  Js.includes token " " = false ->
  Js.split " " ("Bearer " +:+ token) !! 1%nat = Some token.
Proof.
  intros H. change ("Bearer " +:+ token) with ("Bearer" +:+ String " " token).
  rewrite split_at_first by reflexivity.
  rewrite (split_absent _ _ H). reflexivity.
Qed.

Lemma basic_accepts (req : Request) (token user pass : string) :
  authorization req = Some ("Basic " +:+ token) ->
  Js.includes token " " = false ->
  Js.split ":" (Base64.decode token) = [user; pass] ->
  user <> EmptyString -> pass <> EmptyString ->
  authMiddleware req = Next (with_credentials req (Some user) (Some pass)).
Proof.
  intros Hh Ht Hparts Hu Hp. unfold authMiddleware. rewrite Hh. cbv beta iota.
  rewrite (eq_refl : Js.truthy (Some ("Basic " +:+ token)) = true).
  rewrite (eq_refl : Js.startsWith ("Basic " +:+ token) "Basic " = true).
  cbn [negb]. rewrite (basic_token _ Ht). rewrite Hparts.
  cbn [lookup list_lookup].
  rewrite (truthy_nonempty _ Hu), (truthy_nonempty _ Hp). reflexivity.
Qed.

Lemma bearer_accepts (req : Request) (token user pass : string) :
  authorization req = Some ("Bearer " +:+ token) ->
  Js.includes token " " = false ->
  token <> EmptyString ->
  Js.split ":" (Base64.decode token) = [user; pass] ->
  user <> EmptyString -> pass <> EmptyString ->
  authMiddleware req = Next (with_credentials req (Some user) (Some pass)).
Proof.
  intros Hh Ht Hne Hparts Hu Hp. unfold authMiddleware. rewrite Hh. cbv beta iota.
  rewrite (eq_refl : Js.truthy (Some ("Bearer " +:+ token)) = true).
  rewrite (eq_refl : Js.startsWith ("Bearer " +:+ token) "Basic " = false).
  rewrite (eq_refl : Js.startsWith ("Bearer " +:+ token) "Bearer " = true).
  cbn [negb]. rewrite (bearer_token _ Ht).
  destruct token as [|c r]; [congruence|]. rewrite Hparts.
  cbn [lookup list_lookup].
  rewrite (truthy_nonempty _ Hu), (truthy_nonempty _ Hp). reflexivity.
Qed.


Lemma not_basic_when_bearer (h : string) :
  Js.startsWith h "Bearer " = true -> Js.startsWith h "Basic " = false.
Proof.
  destruct h as [|c0 [|c1 r]]; cbn [Js.startsWith]; intros H;
    [discriminate | now rewrite andb_false_r in H |].
  apply andb_prop in H as [H0 H]. apply andb_prop in H as [H1 _].
  apply Ascii.eqb_eq in H0, H1. subst c0 c1. reflexivity.
Qed.

Lemma reject_when_half_missing (req : Request) (h token : string) :
  authorization req = Some h ->
  Js.startsWith h "Basic " = true \/ Js.startsWith h "Bearer " = true ->
  Js.split " " h !! 1%nat = Some token ->
  Js.truthy (Js.split ":" (Base64.decode token) !! 0%nat) = false
  \/ Js.truthy (Js.split ":" (Base64.decode token) !! 1%nat) = false ->
  unauthorized (authMiddleware req).
Proof.
  intros Hh Hscheme Htok Hhalf.
  assert (Hcond :
    negb (Js.truthy (Js.split ":" (Base64.decode token) !! 0%nat))
    || negb (Js.truthy (Js.split ":" (Base64.decode token) !! 1%nat))
    = true).
  { destruct Hhalf as [-> | ->]; [reflexivity | apply orb_true_r]. }
  assert (Htruthy : Js.truthy (Some h) = true).
  { destruct h; [destruct Hscheme; discriminate | reflexivity]. }
  unfold authMiddleware. rewrite Hh. cbv beta iota. rewrite Htruthy.
  cbn [negb]. destruct Hscheme as [Hb | Hb].
  - rewrite Hb, Htok, Hcond. eexists. reflexivity.
  - rewrite (not_basic_when_bearer _ Hb), Hb, Htok.
    destruct token as [|c r]; [eexists; reflexivity|].
    rewrite Hcond. eexists. reflexivity.
Qed.

End Extractor.

(** C5 (amended).  For every header [Basic <base64(user:pass)>] or
    [Bearer <base64(user:pass)>] in which [user] and [pass] are non-empty
    and contain no colon, the middleware attaches exactly the pair
    [(user, pass)] and calls [next()].  For every header of either scheme
    whose token decodes to a string with an empty or missing half, it
    answers 401 with error code -32001. *)
Theorem extractor_pair_without_colon :
  (forall (req : Request) (scheme user pass : string),
      scheme = "Basic" \/ scheme = "Bearer" ->
      user <> EmptyString -> pass <> EmptyString ->
      Js.includes user ":" = false -> Js.includes pass ":" = false ->
      authorization req
      = Some (scheme +:+ " " +:+ Base64.encode (user +:+ ":" +:+ pass)) ->
      authMiddleware req = Next (with_credentials req (Some user) (Some pass)))
  /\
  (forall (req : Request) (h token : string),
      authorization req = Some h ->
      Js.startsWith h "Basic " = true \/ Js.startsWith h "Bearer " = true ->
      Js.split " " h !! 1%nat = Some token ->
      Js.truthy (Js.split ":" (Base64.decode token) !! 0%nat) = false
      \/ Js.truthy (Js.split ":" (Base64.decode token) !! 1%nat) = false ->
      unauthorized (authMiddleware req)).
Proof.
  split.
  - intros req scheme user pass Hs Hu Hp Hcu Hcp Hh.
    pose proof (encode_no_space (user +:+ ":" +:+ pass)) as Hsp.
    pose proof (parts_of_pair user pass Hcu Hcp) as Hparts.
    rewrite <- (decode_encode (user +:+ ":" +:+ pass)) in Hparts at 1.
    destruct Hs as [-> | ->].
    + exact (basic_accepts req _ user pass Hh Hsp Hparts Hu Hp).
    + refine (bearer_accepts req _ user pass Hh Hsp _ Hparts Hu Hp).
      apply encode_nonempty. destruct user; [congruence | discriminate].
  - exact reject_when_half_missing.
Qed.

(** The two parts of [extractor_pair_without_colon] at [Basic base64("u:p")]
    and at [Bearer base64("user:")]. *)
Lemma extractor_pair_without_colon_witness :
  authMiddleware
    (incoming POST "/mcp" (Some ("Basic " +:+ Base64.encode "u:p")) None)
  = Next (with_credentials
            (incoming POST "/mcp" (Some ("Basic " +:+ Base64.encode "u:p")) None)
            (Some "u") (Some "p"))
  /\ unauthorized
       (authMiddleware
          (incoming POST "/mcp" (Some ("Bearer " +:+ Base64.encode "user:"))
             None)).
Proof.
  split.
  - apply (proj1 extractor_pair_without_colon _ "Basic" "u" "p");
      first [ left; reflexivity | discriminate | reflexivity ].
  - apply (proj2 extractor_pair_without_colon _
             ("Bearer " +:+ Base64.encode "user:") (Base64.encode "user:"));
      first [ right; reflexivity | left; reflexivity | reflexivity ].
Defined.

(** C5, as stated, fails when a half contains a colon.  The header
    [Basic base64("u:p:q")] is the one the claim describes both for the
    pair [("u", "p:q")] and for the pair [("u:p", "q")]; the pair attached
    is [("u", "p")], which is neither. *)
Lemma extractor_truncates_password_at_colon :
  let req :=
    incoming POST "/mcp" (Some ("Basic " +:+ Base64.encode "u:p:q")) None in
  ("u" +:+ ":" +:+ "p:q" = "u:p:q" /\ "u:p" +:+ ":" +:+ "q" = "u:p:q")
  /\ authMiddleware req = Next (with_credentials req (Some "u") (Some "p"))
  /\ authMiddleware req
     <> Next (with_credentials req (Some "u") (Some "p:q"))
  /\ authMiddleware req
     <> Next (with_credentials req (Some "u:p") (Some "q")).
Proof.
  repeat split; try reflexivity; discriminate.
Qed.

(** ** The handler monad *)

Section MonadFacts.

Lemma run_bind {A B} (m : M A) (f : A -> M B) (w : World) :
  (m ≫= f) w
  = match m w with
    | (Returned a, w') => f a w'
    | (Thrown e, w') => (Thrown e, w')
    end.
Proof. reflexivity. Qed.

Lemma world_eta (w : World) :
  {| transports := transports w; trace := trace w |} = w.
Proof. destruct w; reflexivity. Qed.

Lemma closes_app (l1 l2 : list Event) :
  closes (l1 ++ l2) = closes l1 ++ closes l2.
Proof. apply omap_app. Qed.

(** [try { transport.close() } catch { console.error(...) }] always
    returns, with the call recorded. *)
Lemma guarded_close (t : Transport) (msg : string) (w : World) :
  try_catch (close t) (fun _ => emit (ConsoleError msg)) w
  = (Returned tt,
     {| transports := transports w;
        trace := trace w ++ TransportClose t
                   :: (if close_raises t then [ConsoleError msg] else []) |}).
Proof.
  unfold try_catch, close. rewrite run_bind. unfold emit, throw. cbn.
  destruct (close_raises t); cbn.
  - now rewrite <- app_assoc.
  - reflexivity.
Qed.

End MonadFacts.

(** ** Stale-session reaper *)

Section Reaper.
Variables timeout now : Z.

Lemma reap_run (sid : string) (e : TransportWithTimestamp) (w : World) :
  Tracking.reap timeout now (sid, e) w
  = (Returned tt,
     if stale timeout now e then
       {| transports := delete sid (transports w);
          trace := trace w
            ++ [ConsoleLog
                  ("Cleaning up stale connection for session " +:+ sid);
                TransportClose (transport e)]
            ++ (if close_raises (transport e)
                then [ConsoleError (Tracking.closing_error sid)] else []) |}
     else w).
Proof.
  unfold Tracking.reap, stale.
  destruct (bool_decide (now - lastActivity e > timeout)); [|reflexivity].
  rewrite run_bind. cbn [emit]. rewrite run_bind, guarded_close.
  unfold update_transports. cbn. rewrite <- app_assoc. reflexivity.
Qed.

Lemma sweep_returns entries (w : World) :
  result (Tracking.sweep timeout now entries) w = Returned tt.
Proof.
  unfold result. revert w.
  induction entries as [|[sid e] entries IH]; intros w; [reflexivity|].
  unfold Tracking.sweep in *. cbn [forEach]. rewrite run_bind, reap_run.
  apply IH.
Qed.

Lemma sweep_lookup entries (w : World) (i : string) :
  store (Tracking.sweep timeout now entries) w !! i
  = if existsb (fun p => String.eqb (fst p) i && stale timeout now (snd p))
         entries
    then None else transports w !! i.
Proof.
  unfold store, after. revert w.
  induction entries as [|[sid e] entries IH]; intros w; [reflexivity|].
  unfold Tracking.sweep in *. cbn [forEach]. rewrite run_bind, reap_run.
  rewrite IH. cbn [existsb fst snd].
  destruct (stale timeout now e); cbn [transports].
  - destruct (String.eqb_spec sid i) as [->|Hne]; cbn [andb orb].
    + rewrite lookup_delete_eq. now destruct existsb.
    + now rewrite lookup_delete_ne.
  - now rewrite andb_false_r.
Qed.

(** What a sweep adds to the trace, and the [close()] calls in it. *)
Lemma sweep_trace entries (w : World) :
  exists l,
    trace (after (Tracking.sweep timeout now entries) w) = trace w ++ l
    /\ closes l
       = List.map (fun p => transport (snd p))
           (List.filter (fun p => stale timeout now (snd p)) entries).
Proof.
  unfold after. revert w.
  induction entries as [|[sid e] entries IH]; intros w.
  - exists []. cbn. now rewrite app_nil_r.
  - unfold Tracking.sweep in *. cbn [forEach]. rewrite run_bind, reap_run.
    cbn [List.filter snd].
    destruct (stale timeout now e).
    + match goal with
      | |- context [forEach _ entries ?w1] =>
          destruct (IH w1) as (l & Hl & Hc)
      end.
      cbn [trace] in Hl. rewrite <- app_assoc in Hl.
      eexists. split; [exact Hl|].
      rewrite !closes_app, Hc. cbn [List.map snd].
      now destruct (close_raises (transport e)).
    + exact (IH w).
Qed.

Lemma sweep_emitted_closes entries (w : World) :
  closes (emitted (Tracking.sweep timeout now entries) w)
  = List.map (fun p => transport (snd p))
      (List.filter (fun p => stale timeout now (snd p)) entries).
Proof.
  destruct (sweep_trace entries w) as (l & Hl & Hc).
  unfold emitted. rewrite Hl, drop_app_length. exact Hc.
Qed.

(** The sweep closes the transport of every stale entry, and no other
    transport. *)
Lemma sweep_closes_stale entries (w : World) :
  entries ≡ₚ map_to_list (transports w) ->
  forall t,
    In t (closes (emitted (Tracking.sweep timeout now entries) w))
    <-> exists sid e,
          transports w !! sid = Some e /\ stale timeout now e = true
          /\ transport e = t.
Proof.
  intros Hperm t. rewrite sweep_emitted_closes, List.in_map_iff. split.
  - intros ([sid e] & Ht & Hin). apply List.filter_In in Hin as [Hin He].
    exists sid, e. cbn in Ht, He. repeat split; try assumption.
    apply list_elem_of_In in Hin. rewrite Hperm in Hin.
    now apply elem_of_map_to_list in Hin.
  - intros (sid & e & Hw & He & Ht). exists (sid, e). split; [exact Ht|].
    apply List.filter_In. split; [|exact He].
    apply list_elem_of_In. rewrite Hperm.
    now apply elem_of_map_to_list.
Qed.

Lemma sweep_store entries (w : World) :
  entries ≡ₚ map_to_list (transports w) ->
  store (Tracking.sweep timeout now entries) w
  = filter (fun p => stale timeout now (snd p) = false) (transports w).
Proof.
  intros Hperm. apply map_eq. intros i.
  rewrite sweep_lookup, map_lookup_filter.
  destruct (transports w !! i) as [e|] eqn:Hi; cbn.
  - destruct (stale timeout now e) eqn:He.
    + rewrite option_guard_False by (cbn; congruence).
      replace (existsb _ entries) with true; [reflexivity|].
      symmetry. apply existsb_exists. exists (i, e). split.
      * apply list_elem_of_In. rewrite Hperm.
        now apply elem_of_map_to_list.
      * cbn. now rewrite String.eqb_refl.
    + rewrite option_guard_True by (cbn; congruence).
      destruct (existsb _ entries) eqn:Hex; [|reflexivity].
      apply existsb_exists in Hex as ([k e'] & Hin & Hk).
      cbn in Hk. apply andb_prop in Hk as [Hk He'].
      apply String.eqb_eq in Hk. subst k.
      apply list_elem_of_In in Hin. rewrite Hperm in Hin.
      apply elem_of_map_to_list in Hin. congruence.
  - now destruct existsb.
Qed.

End Reaper.

Lemma cleanupStaleConnections_store (now : Z) (w : World) :
  store (Tracking.cleanupStaleConnections now) w
  = filter (fun p => stale CONNECTION_TIMEOUT now (snd p) = false)
      (transports w).
Proof.
  rewrite <- (sweep_store CONNECTION_TIMEOUT now (map_to_list (transports w)) w)
    by reflexivity.
  reflexivity.
Qed.

(** One sweep over a snapshot of the store: outcome, store and the
    transports closed. *)
Lemma sweep_spec (timeout now : Z) (w : World)
    (entries : list (string * TransportWithTimestamp)) :
  entries ≡ₚ map_to_list (transports w) ->
  result (Tracking.sweep timeout now entries) w = Returned tt
  /\ (forall sid,
        store (Tracking.sweep timeout now entries) w !! sid
        = match transports w !! sid with
          | Some e =>
              if bool_decide (now - lastActivity e > timeout) then None
              else Some e
          | None => None
          end)
  /\ (forall t,
        In t (closes (emitted (Tracking.sweep timeout now entries) w))
        <-> exists sid e,
              transports w !! sid = Some e
              /\ now - lastActivity e > timeout
              /\ transport e = t).
Proof.
  intros Hperm. split; [apply sweep_returns|]. split.
  - intros sid. rewrite (sweep_store _ _ _ _ Hperm), map_lookup_filter.
    destruct (transports w !! sid) as [e|]; [|reflexivity]. cbn.
    fold (stale timeout now e). destruct (stale timeout now e) eqn:He.
    + now rewrite option_guard_False by (cbn; congruence).
    + now rewrite option_guard_True by (cbn; congruence).
  - intros t. rewrite (sweep_closes_stale _ _ _ _ Hperm).
    unfold stale. split; intros (sid & e & Hw & He & Ht); exists sid, e;
      (split; [exact Hw|]); (split; [|exact Ht]).
    + now apply bool_decide_eq_true in He.
    + now apply bool_decide_eq_true.
Qed.

(** C6.  One run of the reaper [cleanupStaleConnections] at time [now]
    returns normally, evicts exactly the entries with
    [now - lastActivity > CONNECTION_TIMEOUT] and leaves every other entry
    as it was; the transports it closes are exactly those of the evicted
    entries, so a [close()] that raises stops neither the eviction of its
    own entry nor the sweep of the others.  The same holds of the loop of
    the reaper for every timeout and for the entries of the store visited
    in any order, and the store it leaves is the same in every order. *)
Theorem sweep_evicts_exactly_stale (now : Z) (w : World) :
  result (Tracking.cleanupStaleConnections now) w = Returned tt
  /\ (forall sid,
        store (Tracking.cleanupStaleConnections now) w !! sid
        = match transports w !! sid with
          | Some e =>
              if bool_decide (now - lastActivity e > CONNECTION_TIMEOUT)
              then None
              else Some e
          | None => None
          end)
  /\ (forall t,
        In t (closes (emitted (Tracking.cleanupStaleConnections now) w))
        <-> exists sid e,
              transports w !! sid = Some e
              /\ now - lastActivity e > CONNECTION_TIMEOUT
              /\ transport e = t)
  /\ (forall (timeout : Z) (entries : list (string * TransportWithTimestamp)),
        entries ≡ₚ map_to_list (transports w) ->
        result (Tracking.sweep timeout now entries) w = Returned tt
        /\ (forall sid,
              store (Tracking.sweep timeout now entries) w !! sid
              = match transports w !! sid with
                | Some e =>
                    if bool_decide (now - lastActivity e > timeout) then None
                    else Some e
                | None => None
                end)
        /\ (forall t,
              In t (closes (emitted (Tracking.sweep timeout now entries) w))
              <-> exists sid e,
                    transports w !! sid = Some e
                    /\ now - lastActivity e > timeout
                    /\ transport e = t))
  /\ (forall entries : list (string * TransportWithTimestamp),
        entries ≡ₚ map_to_list (transports w) ->
        store (Tracking.sweep CONNECTION_TIMEOUT now entries) w
        = store (Tracking.cleanupStaleConnections now) w).
Proof.
  pose proof (sweep_spec CONNECTION_TIMEOUT now w (map_to_list (transports w))
                (reflexivity _)) as (Hr & Hs & Hc).
  split; [exact Hr|]. split; [exact Hs|]. split; [exact Hc|]. split.
  - intros timeout entries Hperm. now apply sweep_spec.
  - intros entries Hperm.
    rewrite cleanupStaleConnections_store. now apply sweep_store.
Qed.

(** [sweep_evicts_exactly_stale] on [two_sessions] at time 60000: ["a"]
    (idle for 60000 ms, [close()] raising) goes and its transport is
    closed, ["b"] stays and its transport is not closed; visiting the
    entries in the opposite order leaves the same store. *)
Lemma sweep_evicts_exactly_stale_witness :
  let run := Tracking.cleanupStaleConnections 60000 in
  let backwards := reverse (map_to_list (transports two_sessions)) in
  result run two_sessions = Returned tt
  /\ store run two_sessions !! "a" = None
  /\ store run two_sessions !! "b" = Some (an_entry 2 SSE "b" false 50000)
  /\ In (a_transport 1 StreamableHTTP "a" true)
        (closes (emitted run two_sessions))
  /\ ~ In (a_transport 2 SSE "b" false) (closes (emitted run two_sessions))
  /\ backwards ≡ₚ map_to_list (transports two_sessions)
  /\ store (Tracking.sweep CONNECTION_TIMEOUT 60000 backwards) two_sessions
     = store run two_sessions.
Proof.
  intros run backwards.
  destruct (sweep_evicts_exactly_stale 60000 two_sessions)
    as (Hr & Hs & Hc & _ & Ho).
  assert (Hperm : backwards ≡ₚ map_to_list (transports two_sessions))
    by apply reverse_Permutation.
  split; [exact Hr|].
  split; [subst run; rewrite Hs; reflexivity|].
  split; [subst run; rewrite Hs; reflexivity|].
  split.
  { apply Hc. exists "a", (an_entry 1 StreamableHTTP "a" true 0).
    split; [reflexivity|]. split; [reflexivity|reflexivity]. }
  split.
  { intros Hin. apply Hc in Hin as (sid & e & Hw & He & Ht).
    destruct (decide (sid = "a")) as [->|Ha].
    - vm_compute in Hw. injection Hw as <-. discriminate Ht.
    - destruct (decide (sid = "b")) as [->|Hb].
      + vm_compute in Hw. injection Hw as <-. vm_compute in He.
        discriminate He.
      + unfold two_sessions in Hw. cbn [transports] in Hw.
        rewrite !lookup_insert_ne, lookup_empty in Hw by congruence.
        discriminate Hw. }
  split; [exact Hperm|].
  exact (Ho backwards Hperm).
Defined.

(** C1 (amended).  The inactivity timeout is strictly shorter than one
    reaper period (30000 ms against 60000 ms).  Hence a session whose last
    activity came after the previous sweep, but more than the timeout
    before the current one, is evicted by the current sweep. *)
Theorem timeout_shorter_than_period :
  CONNECTION_TIMEOUT < CLEANUP_INTERVAL
  /\ (forall (w : World) (now : Z) (sid : string) (e : TransportWithTimestamp),
        transports w !! sid = Some e ->
        now - CLEANUP_INTERVAL < lastActivity e ->
        lastActivity e < now - CONNECTION_TIMEOUT ->
        store (Tracking.cleanupStaleConnections now) w !! sid = None).
Proof.
  split; [reflexivity|].
  intros w now sid e He _ Hlate.
  rewrite cleanupStaleConnections_store, map_lookup_filter, He. cbn.
  rewrite option_guard_False; [reflexivity|].
  unfold stale. rewrite bool_decide_eq_false. lia.
Qed.

(** [timeout_shorter_than_period] on [two_sessions]: a sweep at 85000 evicts
    ["b"], last active at 50000, after the sweep at 25000. *)
Lemma timeout_shorter_than_period_witness :
  85000 - CLEANUP_INTERVAL < 50000 /\ 50000 < 85000 - CONNECTION_TIMEOUT
  /\ store (Tracking.cleanupStaleConnections 85000) two_sessions !! "b" = None.
Proof.
  split; [reflexivity|]. split; [reflexivity|].
  apply (proj2 timeout_shorter_than_period two_sessions 85000 "b"
           (an_entry 2 SSE "b" false 50000)); reflexivity.
Defined.

(** C1, as stated, fails: the timeout is not greater than the period. *)
Lemma timeout_not_longer_than_period :
  ~ (CONNECTION_TIMEOUT > CLEANUP_INTERVAL).
Proof. unfold CONNECTION_TIMEOUT, CLEANUP_INTERVAL. lia. Qed.

(** ** Eviction paths *)

Section Eviction.

Lemma cleanup_sse_run (t : Transport) (w : World) :
  Tracking.cleanup_sse t w
  = (Returned tt,
     {| transports := delete (Js.key (sessionId t)) (transports w);
        trace := trace w ++ TransportClose t
          :: (if close_raises t
              then [ConsoleError
                      (Tracking.closing_error (Js.key (sessionId t)))]
              else []) |}).
Proof.
  unfold Tracking.cleanup_sse. rewrite run_bind, guarded_close. reflexivity.
Qed.

Lemma emitted_app {A} (m : M A) (w : World) (l : list Event) :
  trace (after m w) = trace w ++ l -> emitted m w = l.
Proof. unfold emitted. intros ->. apply drop_app_length. Qed.

(** The close callback of a Streamable HTTP transport: the first call
    for a registered session calls [close()] and removes the entry. *)
Lemma cleanup_run (t : Transport) (sid : string) (w : World) :
  sessionId t = Some sid -> sid <> EmptyString ->
  is_Some (transports w !! sid) ->
  Tracking.cleanup t w
  = (Returned tt,
     {| transports := delete sid (transports w);
        trace := trace w
          ++ [ConsoleLog ("Transport closed for session " +:+ sid
                            +:+ ", removing from transports map");
              TransportClose t]
          ++ (if close_raises t
              then [ConsoleError (Tracking.closing_error sid)] else []) |}).
Proof.
  intros Hsid Hne [e He]. unfold Tracking.cleanup. rewrite Hsid.
  rewrite run_bind. cbn [read_transports Js.key].
  rewrite (truthy_nonempty _ Hne). unfold get. rewrite He. cbn [andb].
  rewrite run_bind. cbn [emit]. rewrite run_bind, guarded_close.
  unfold update_transports. cbn. rewrite <- app_assoc. reflexivity.
Qed.

(** A later call of the same callback finds no entry and does nothing:
    no [close()], no change. *)
Lemma cleanup_absent (t : Transport) (w : World) :
  get (transports w) (Js.key (sessionId t)) = Undefined ->
  Tracking.cleanup t w = (Returned tt, w).
Proof.
  intros H. unfold Tracking.cleanup. rewrite run_bind.
  cbn [read_transports]. rewrite H, andb_false_r. reflexivity.
Qed.

Lemma cleanup_twice (t : Transport) (sid : string) (w : World) :
  sessionId t = Some sid -> sid <> EmptyString ->
  Js.inherited sid = false ->
  is_Some (transports w !! sid) ->
  Tracking.cleanup t (after (Tracking.cleanup t) w)
  = (Returned tt, after (Tracking.cleanup t) w).
Proof.
  intros Hsid Hne Hproto Hin. apply cleanup_absent.
  unfold after. rewrite (cleanup_run t sid w Hsid Hne Hin), Hsid.
  cbn [snd transports Js.key]. unfold get.
  now rewrite lookup_delete_eq, Hproto.
Qed.

(** The callback in closed form, whatever the transport and the
    store. *)
Lemma cleanup_closed_form (t : Transport) (w : World) :
  Tracking.cleanup t w
  = (Returned tt,
     if registered t (transports w) then
       {| transports := delete (Js.key (sessionId t)) (transports w);
          trace := trace w ++ cleanup_events t |}
     else w).
Proof.
  unfold Tracking.cleanup, registered, cleanup_events.
  rewrite run_bind. cbn [read_transports].
  destruct (Js.truthy (sessionId t) && _); [|reflexivity].
  rewrite run_bind. cbn [emit]. rewrite run_bind, guarded_close.
  unfold update_transports. cbn. rewrite <- app_assoc. reflexivity.
Qed.

Lemma shutdown_one_run (sid : string) (e : TransportWithTimestamp)
    (w : World) :
  transports w !! sid = Some e ->
  Tracking.shutdown_one sid w
  = (Returned tt,
     {| transports :=
          if close_raises (transport e) then transports w
          else delete sid (transports w);
        trace := trace w
          ++ [ConsoleLog ("Closing transport for session " +:+ sid);
              TransportClose (transport e)]
          ++ (if close_raises (transport e)
              then [ConsoleError (Tracking.closing_error sid)] else []) |}).
Proof.
  intros He. unfold Tracking.shutdown_one. rewrite run_bind.
  cbn [read_transports]. rewrite He.
  unfold try_catch, close, emit, throw, update_transports.
  rewrite !run_bind. cbn.
  destruct (close_raises (transport e)); cbn;
    now rewrite <- !app_assoc.
Qed.

End Eviction.

(** C2 (the SSE close callback departs from it).  A second call of the SSE
    close callback leaves the store as the first call left it, but it
    calls the transport's [close()] once more, not zero times. *)
Theorem sse_cleanup_closes_again (t : Transport) (w : World) :
  let once := after (Tracking.cleanup_sse t) w in
  result (Tracking.cleanup_sse t) once = Returned tt
  /\ store (Tracking.cleanup_sse t) once = transports once
  /\ closes (emitted (Tracking.cleanup_sse t) once) = [t].
Proof.
  intros once. subst once. unfold result, store, after.
  rewrite (cleanup_sse_run t w). cbn [snd].
  rewrite (emitted_app _ _ _
             (f_equal (fun r => trace (snd r)) (cleanup_sse_run t _))).
  rewrite cleanup_sse_run. cbn [fst snd transports].
  split; [reflexivity|]. split.
  - apply delete_id. apply lookup_delete_eq.
  - now destruct (close_raises t).
Qed.

(** C7 (the shutdown loop departs from it).  When [close()] raises in the
    shutdown loop, the error is logged and the loop goes on, but the entry
    stays in the store. *)
Theorem shutdown_keeps_entry_when_close_raises (sid : string)
    (e : TransportWithTimestamp) (w : World) :
  transports w !! sid = Some e ->
  close_raises (transport e) = true ->
  result (Tracking.shutdown_one sid) w = Returned tt
  /\ store (Tracking.shutdown_one sid) w !! sid = Some e
  /\ emitted (Tracking.shutdown_one sid) w
     = [ConsoleLog ("Closing transport for session " +:+ sid);
        TransportClose (transport e);
        ConsoleError (Tracking.closing_error sid)].
Proof.
  intros He Hraises. unfold result, store.
  rewrite (emitted_app _ _ _
             (f_equal (fun r => trace (snd r)) (shutdown_one_run sid e w He))).
  unfold after. rewrite (shutdown_one_run sid e w He), Hraises.
  cbn [fst snd transports]. auto.
Qed.

(** [shutdown_keeps_entry_when_close_raises] on [two_sessions], whose
    session ["a"] has a transport with a raising [close()]; and the whole
    handler run over both keys. *)
Lemma shutdown_keeps_entry_when_close_raises_witness :
  store (Tracking.shutdown_one "a") two_sessions !! "a"
  = Some (an_entry 1 StreamableHTTP "a" true 0)
  /\ store (Tracking.on_SIGINT ["a"; "b"]) two_sessions !! "a"
     = Some (an_entry 1 StreamableHTTP "a" true 0)
  /\ store (Tracking.on_SIGINT ["a"; "b"]) two_sessions !! "b" = None.
Proof.
  split.
  - apply (shutdown_keeps_entry_when_close_raises "a"
             (an_entry 1 StreamableHTTP "a" true 0) two_sessions);
      reflexivity.
  - split; vm_compute; reflexivity.
Defined.

(** ** Registration of a transport *)

Section Registration.

Lemma onsessioninitialized_run (t : Transport) (now : Z) (sid : string)
    (w : World) :
  Tracking.onsessioninitialized t now sid w
  = (Returned tt,
     {| transports :=
          <[sid := {| transport := t; lastActivity := now |}]> (transports w);
        trace := trace w
          ++ [ConsoleLog
                ("StreamableHTTP session initialized with ID: " +:+ sid)] |}).
Proof. reflexivity. Qed.

Lemma sse_store (env : Env) (o : Outside) (now : Z) (req req' : Request)
    (w : World) :
  credentials env req = Some req' ->
  store (Tracking.sse env o now req) w
  = <[randomUUID o := {| transport := Tracking.new_sse_transport o;
                         lastActivity := now |}]> (transports w).
Proof.
  intros Hc. unfold store, after, Tracking.sse. rewrite Hc.
  unfold getServer, connect, emit, throw, update_transports.
  rewrite !run_bind. cbn.
  destruct (getServer_raises o); [reflexivity|]. cbn.
  destruct (connect_raises o); reflexivity.
Qed.

End Registration.

(** C4 (amended).  Registering a transport under an id never fails and
    never looks at what the store holds: after [onsessioninitialized], and
    after [GET /sse] once credentials are resolved, the store maps the id
    to the new transport with the current time, whether or not the id was
    present before; every other entry is as it was. *)
Theorem registration_replaces_entry :
  (forall (t : Transport) (now : Z) (sid : string) (w : World),
      result (Tracking.onsessioninitialized t now sid) w = Returned tt
      /\ store (Tracking.onsessioninitialized t now sid) w
         = <[sid := {| transport := t; lastActivity := now |}]> (transports w))
  /\ (forall (env : Env) (o : Outside) (now : Z) (req req' : Request)
             (w : World),
        credentials env req = Some req' ->
        store (Tracking.sse env o now req) w
        = <[randomUUID o := {| transport := Tracking.new_sse_transport o;
                               lastActivity := now |}]> (transports w)).
Proof.
  split.
  - intros t now sid w. split; reflexivity.
  - exact sse_store.
Qed.

(** [registration_replaces_entry] for [GET /sse] with environment
    credentials, on [two_sessions]. *)
Lemma registration_replaces_entry_witness :
  credentials an_env (incoming GET "/sse" None None)
  = Some (with_credentials (incoming GET "/sse" None None)
            (Some "login") (Some "secret"))
  /\ store (Tracking.sse an_env quiet 70000 (incoming GET "/sse" None None))
       two_sessions
     = <[randomUUID quiet := {| transport := Tracking.new_sse_transport quiet;
                                lastActivity := 70000 |}]>
         (transports two_sessions).
Proof.
  split; [reflexivity|].
  apply (proj2 registration_replaces_entry an_env quiet 70000
           (incoming GET "/sse" None None)
           (with_credentials (incoming GET "/sse" None None)
              (Some "login") (Some "secret"))).
  reflexivity.
Defined.

(** C4, as stated, fails: registering under the id ["a"], present in
    [two_sessions], returns normally and replaces the stored transport. *)
Lemma registration_of_present_id_replaces :
  let t := a_transport 9 StreamableHTTP "a" false in
  let run := Tracking.onsessioninitialized t 70000 "a" in
  transports two_sessions !! "a" = Some (an_entry 1 StreamableHTTP "a" true 0)
  /\ result run two_sessions = Returned tt
  /\ store run two_sessions !! "a"
     = Some {| transport := t; lastActivity := 70000 |}
  /\ store run two_sessions !! "a" <> transports two_sessions !! "a".
Proof.
  cbv zeta. repeat split; try reflexivity. vm_compute. discriminate.
Qed.

(** ** Router *)

Section Router.

Lemma middleware_passes (req : Request) :
  no_recognized_header req -> authMiddleware req = Next req.
Proof.
  unfold no_recognized_header, authMiddleware.
  destruct (authorization req) as [h|]; [|reflexivity].
  intros [-> ->]. now destruct (negb (Js.truthy (Some h))).
Qed.

Lemma credentials_missing (env : Env) (req : Request) :
  arrives req -> env_incomplete env -> credentials env req = None.
Proof.
  intros [Hu Hp] Henv. unfold credentials. rewrite Hu, Hp. cbn.
  destruct Henv as [-> | ->]; [reflexivity|].
  now rewrite orb_true_r.
Qed.

Lemma credentials_attached (env : Env) (req : Request) (u p : string) :
  u <> EmptyString ->
  credentials env (with_credentials req (Some u) (Some p))
  = Some (with_credentials req (Some u) (Some p)).
Proof.
  intros Hu. unfold credentials. cbn [username with_credentials].
  now rewrite (truthy_nonempty _ Hu).
Qed.

(** The middleware changes nothing but the attached pair. *)
Lemma middleware_keeps (req req' : Request) :
  authMiddleware req = Next req' ->
  req' = req \/ exists u p, req' = with_credentials req u p.
Proof.
  unfold authMiddleware. intros H.
  repeat match type of H with
         | match ?x with _ => _ end = _ => destruct x
         | (if ?b then _ else _) = _ => destruct b
         end;
    try discriminate; injection H as <-; eauto.
Qed.

Lemma session_id_kept (req req' : Request) :
  authMiddleware req = Next req' ->
  mcp_session_id req' = mcp_session_id req /\ method req' = method req
  /\ body req' = body req.
Proof.
  intros H. destruct (middleware_keeps _ _ H) as [-> | (u & p & ->)]; auto.
Qed.

Lemma credentials_keep (env : Env) (req req' : Request) :
  credentials env req = Some req' ->
  mcp_session_id req' = mcp_session_id req /\ method req' = method req
  /\ body req' = body req.
Proof.
  unfold credentials. intros H.
  repeat match type of H with
         | (if ?b then _ else _) = _ => destruct b
         end;
    try discriminate; injection H as <-; auto.
Qed.

Lemma tracking_route_mcp (m : Method) : Tracking.route m "/mcp" = Some Tracking.Mcp.
Proof. reflexivity. Qed.

Lemma tracking_serve_mcp (env : Env) (o : Outside) (now : Z)
    (req req1 : Request) :
  path req = "/mcp" -> authMiddleware req = Next req1 ->
  Tracking.serve env o now req = Tracking.mcp env o now req1.
Proof.
  intros Hp Hm. unfold Tracking.serve. rewrite Hp, tracking_route_mcp.
  cbn [Tracking.handle]. unfold guarded. now rewrite Hm.
Qed.

(** The part of [mcp] that runs before any call into the SDK. *)
Lemma mcp_rejects (env : Env) (o : Outside) (now : Z) (req req2 : Request)
    (sid : string) (w : World) :
  credentials env req = Some req2 ->
  mcp_session_id req = Some sid -> sid <> EmptyString ->
  (transports w !! sid = None
   \/ exists e, transports w !! sid = Some e /\ kind (transport e) = SSE) ->
  exists message log,
    Tracking.mcp env o now req w
    = (Returned (Replied {| status := 400;
                            payload := JsonRpcError (-32000) message |}),
       {| transports := transports w; trace := trace w ++ log |}).
Proof.
  intros Hc Hsid Hne Hstore. unfold Tracking.mcp.
  rewrite run_bind. cbn [emit]. unfold try_catch. rewrite Hc, Hsid.
  rewrite run_bind. cbn [read_transports transports].
  rewrite (truthy_nonempty _ Hne). cbn [Js.key negb andb]. unfold get.
  unfold Tracking.different_protocol, reply.
  destruct Hstore as [-> | (e & -> & ->)].
  - destruct (Js.inherited sid); do 2 eexists;
      rewrite !run_bind; cbn; rewrite <- app_assoc; reflexivity.
  - do 2 eexists; rewrite !run_bind; cbn; rewrite <- app_assoc;
      reflexivity.
Qed.

End Router.

(** C3 (amended).  For every request to [/mcp] that passes the credential
    stage (the middleware calls [next()] and a credential pair is found on
    the request or in the environment) and carries a non-empty session
    identifier: if the store has no entry for that id, or an entry whose
    transport is an SSE transport, the answer is HTTP 400 with JSON-RPC
    error code -32000 and the store is left as it was. *)
Theorem unknown_or_sse_session_rejected (env : Env) (o : Outside) (now : Z)
    (req req1 req2 : Request) (sid : string) (w : World) :
  path req = "/mcp" ->
  authMiddleware req = Next req1 ->
  credentials env req1 = Some req2 ->
  mcp_session_id req = Some sid -> sid <> EmptyString ->
  (transports w !! sid = None
   \/ exists e, transports w !! sid = Some e /\ kind (transport e) = SSE) ->
  (exists message,
      result (Tracking.serve env o now req) w
      = Returned (Replied {| status := 400;
                             payload := JsonRpcError (-32000) message |}))
  /\ store (Tracking.serve env o now req) w = transports w.
Proof.
  intros Hp Hm Hc Hsid Hne Hstore.
  rewrite (tracking_serve_mcp env o now req req1 Hp Hm).
  destruct (session_id_kept _ _ Hm) as (Hs1 & _). rewrite <- Hs1 in Hsid.
  destruct (mcp_rejects env o now req1 req2 sid w Hc Hsid Hne Hstore)
    as (message & log & Hrun).
  unfold result, store, after. rewrite Hrun. split; [|reflexivity].
  exists message. reflexivity.
Qed.

(** [unknown_or_sse_session_rejected] on [two_sessions]: a POST naming the
    SSE session ["b"], with credentials from the environment. *)
Lemma unknown_or_sse_session_rejected_witness :
  let req := incoming POST "/mcp" None (Some "b") in
  (exists message,
      result (Tracking.serve an_env quiet 70000 req) two_sessions
      = Returned (Replied {| status := 400;
                             payload := JsonRpcError (-32000) message |}))
  /\ store (Tracking.serve an_env quiet 70000 req) two_sessions
     = transports two_sessions.
Proof.
  intros req.
  apply (unknown_or_sse_session_rejected an_env quiet 70000 req req
           (with_credentials req (Some "login") (Some "secret")) "b");
    try reflexivity; try discriminate.
  right. exists (an_entry 2 SSE "b" false 50000). split; reflexivity.
Defined.

(** C3, as stated, fails: a request to [/mcp] naming an unknown session,
    sent without credentials while the environment has none, is answered
    401 with code -32001, not 400. *)
Lemma unknown_session_without_credentials_gets_401 :
  transports two_sessions !! "nope" = None
  /\ result (Tracking.serve no_env quiet 70000
               (incoming POST "/mcp" None (Some "nope"))) two_sessions
     = Returned (Replied {| status := 401;
                            payload := JsonRpcError (-32001)
                              "Authentication required. Provide DataForSEO credentials." |}).
Proof. split; reflexivity. Qed.

Section Resume.

Lemma cleanup_or_not (b : bool) (t : Transport) (w : World) :
  (if b then Tracking.cleanup t else mret tt) w
  = (Returned tt,
     if b && registered t (transports w) then
       {| transports := delete (Js.key (sessionId t)) (transports w);
          trace := trace w ++ cleanup_events t |}
     else w).
Proof.
  destruct b; [apply cleanup_closed_form | reflexivity].
Qed.

(** [Tracking.handleRequest] in closed form. *)
Lemma handleRequest_run (o : Outside) (now : Z) (t : Transport)
    (req : Request) (w : World) :
  Tracking.handleRequest o now t req w
  = ((if handleRequest_raises o then Thrown "handleRequest"
      else Returned Delegated),
     {| transports :=
          handled_store o now t (body req) (method req) (transports w);
        trace := trace w
          ++ HandleRequest t req
          :: handled_tail o now t (body req) (method req) (transports w) |}).
Proof.
  unfold Tracking.handleRequest, handled_store, handled_tail,
    initialized_store, initializes, terminates.
  rewrite run_bind. cbn [emit]. rewrite run_bind.
  assert (Hend : forall w' : World,
    (if handleRequest_raises o then throw "handleRequest"
     else mret Delegated) w'
    = ((if handleRequest_raises o then Thrown "handleRequest"
        else Returned Delegated), w')).
  { intros w'. now destruct (handleRequest_raises o). }
  destruct (sessionId t) as [s|] eqn:Hs.
  - cbn [mret M_ret]. rewrite run_bind, cleanup_or_not. cbn [transports trace].
    rewrite Hend. f_equal.
    destruct (Tracking.is_delete (method req) && termination_accepted o);
      cbn [andb]; [|reflexivity].
    destruct (registered t (transports w)); cbn [transports trace];
      rewrite ?Hs, <- ?app_assoc; reflexivity.
  - destruct (isInitializeRequest (body req) && initialization_accepted o).
    + rewrite onsessioninitialized_run, run_bind, cleanup_or_not.
      cbn [transports trace]. rewrite Hend. f_equal.
      destruct (Tracking.is_delete (method req) && termination_accepted o);
        cbn [andb]; [|now rewrite <- app_assoc].
      destruct (registered t _); cbn [transports trace];
        rewrite ?Hs, <- ?app_assoc; reflexivity.
    + cbn [mret M_ret]. rewrite run_bind, cleanup_or_not.
      cbn [transports trace]. rewrite Hend. f_equal.
      destruct (Tracking.is_delete (method req) && termination_accepted o);
        cbn [andb]; [|reflexivity].
      destruct (registered t (transports w)); cbn [transports trace];
        rewrite ?Hs, <- ?app_assoc; reflexivity.
Qed.

Lemma mcp_resume_run (env : Env) (o : Outside) (now : Z)
    (req req2 : Request) (sid : string) (e : TransportWithTimestamp)
    (w : World) :
  credentials env req = Some req2 ->
  mcp_session_id req = Some sid -> sid <> EmptyString ->
  transports w !! sid = Some e ->
  kind (transport e) = StreamableHTTP ->
  Tracking.mcp env o now req w
  = (Returned (resume_outcome o),
     {| transports :=
          resume_store o now sid e (body req2) (method req2) (transports w);
        trace := trace w
          ++ ConsoleLog ("Received " +:+ Tracking.method_name (method req)
                           +:+ " request to /mcp")
          :: HandleRequest (transport e) req2
          :: resume_tail o now sid e (body req2) (method req2)
               (transports w) |}).
Proof.
  intros Hc Hsid Hne He Hk. unfold Tracking.mcp.
  rewrite run_bind. cbn [emit]. unfold try_catch. rewrite Hc, Hsid.
  rewrite run_bind. cbn [read_transports transports].
  rewrite (truthy_nonempty _ Hne). cbn [Js.key]. unfold get.
  rewrite He, Hk. rewrite run_bind. cbn [update_transports].
  rewrite handleRequest_run. cbn [transports trace].
  unfold resume_outcome, resume_store, resume_tail, touched,
    Stateless.internal_error, reply.
  destruct (handleRequest_raises o); cbn [andb].
  - rewrite run_bind. cbn [emit transports trace].
    destruct (headersSent o); cbn [negb mret M_ret];
      rewrite <- !app_assoc; reflexivity.
  - rewrite app_nil_r, <- !app_assoc. reflexivity.
Qed.

Lemma builds_cleanup_events (t : Transport) :
  builds (cleanup_events t) = 0%nat.
Proof. unfold cleanup_events. now destruct (close_raises t). Qed.

Lemma builds_handled_tail (o : Outside) (now : Z) (t : Transport)
    (b : Body) (m : Method) (ts : gmap string TransportWithTimestamp) :
  builds (handled_tail o now t b m ts) = 0%nat.
Proof.
  unfold handled_tail, builds. rewrite List.filter_app, length_app.
  destruct (initializes o t b), (terminates o m && registered t _);
    cbn [List.filter length Nat.add]; try reflexivity;
    apply builds_cleanup_events.
Qed.

Lemma builds_resume_tail (o : Outside) (now : Z) (sid : string)
    (e : TransportWithTimestamp) (b : Body) (m : Method)
    (ts : gmap string TransportWithTimestamp) :
  builds (resume_tail o now sid e b m ts) = 0%nat.
Proof.
  unfold resume_tail, builds. rewrite List.filter_app, length_app.
  fold (builds (handled_tail o now (transport e) b m (touched now sid e ts))).
  rewrite builds_handled_tail. now destruct (handleRequest_raises o).
Qed.

Lemma anonymous_resume_tail (o : Outside) (now : Z) (sid : string)
    (e : TransportWithTimestamp) (b : Body) (m : Method)
    (ts : gmap string TransportWithTimestamp) :
  List.map anonymous (resume_tail o now sid e b m ts)
  = resume_tail o now sid e b m ts.
Proof.
  unfold resume_tail, handled_tail, cleanup_events.
  rewrite !List.map_app.
  destruct (initializes o (transport e) b),
    (terminates o m && registered (transport e) _),
    (close_raises (transport e)), (handleRequest_raises o); reflexivity.
Qed.

Lemma blank_with_credentials (r1 r2 : Request) (u1 p1 u2 p2 : option string) :
  same_but_authorization r1 r2 ->
  blank (with_credentials r1 u1 p1) = blank (with_credentials r2 u2 p2).
Proof.
  intros (Hm & Hp & Hs & Hq & Hb & _). unfold blank, with_credentials. cbn.
  now rewrite Hm, Hp, Hs, Hq, Hb.
Qed.

End Resume.

Section Replies.

Lemma middleware_reject (req : Request) (r : Response) :
  authMiddleware req = Reject r ->
  status r = 401 /\ error_code r = Some (-32001).
Proof.
  unfold authMiddleware. intros H.
  repeat match type of H with
         | match ?x with _ => _ end = _ => destruct x
         | (if ?b then _ else _) = _ => destruct b
         end;
    try discriminate; injection H as <-; split; reflexivity.
Qed.

Ltac unfold_handlers :=
  unfold result, Tracking.mcp, Tracking.handleRequest,
    Tracking.onsessioninitialized, Tracking.cleanup, close,
    Tracking.different_protocol,
    Stateless.internal_error, getServer, connect, reply, try_catch,
    update_transports, read_transports, emit, throw,
    mbind, M_bind, mret, M_ret.

Ltac split_cases :=
  repeat first
    [ progress cbn
    | match goal with
      | |- context [credentials ?e ?r] => destruct (credentials e r)
      | |- context [Js.truthy ?x] => destruct (Js.truthy x)
      | |- context [get ?m ?k] => destruct (get m k)
      | |- context [kind ?t] => destruct (kind t)
      | |- context [sessionId ?t] => destruct (sessionId t)
      | |- context [Tracking.is_post ?m] => destruct (Tracking.is_post m)
      | |- context [isInitializeRequest ?b] =>
          destruct (isInitializeRequest b)
      | |- context [getServer_raises ?o] => destruct (getServer_raises o)
      | |- context [connect_raises ?o] => destruct (connect_raises o)
      | |- context [handleRequest_raises ?o] =>
          destruct (handleRequest_raises o)
      | |- context [headersSent ?o] => destruct (headersSent o)
      | |- context [initialization_accepted ?o] =>
          destruct (initialization_accepted o)
      | |- context [Tracking.is_delete ?m] => destruct (Tracking.is_delete m)
      | |- context [termination_accepted ?o] =>
          destruct (termination_accepted o)
      | |- context [close_raises ?t] => destruct (close_raises t)
      end ].

(** Whatever [mcp] answers itself is a 400, a 401 or a 500. *)
Lemma mcp_reply_status (env : Env) (o : Outside) (now : Z) (req : Request)
    (w : World) (r : Response) :
  result (Tracking.mcp env o now req) w = Returned (Replied r) ->
  status r = 400 \/ status r = 401 \/ status r = 500.
Proof.
  unfold_handlers. split_cases; intros H;
    try discriminate; injection H as <-; cbn; auto.
Qed.

Lemma stateless_route_get_mcp :
  Stateless.route GET "/mcp" = Some Stateless.McpGet.
Proof. reflexivity. Qed.

End Replies.

(** C8 (amended).  In the stateless server every GET to [/mcp] is answered
    405, whatever session identifier it carries.  In the session-tracking
    server no request to [/mcp] is answered 405 by the router: what the
    router answers itself is a 400, a 401 or a 500, and a GET that passes
    the credential stage and names a live Streamable HTTP session is
    resumed: the entry is touched and the request is handed to the
    session's transport. *)
Theorem get_mcp_by_server :
  (forall (env : Env) (o : Outside) (req : Request) (w : World),
      method req = GET -> path req = "/mcp" ->
      result (Stateless.serve env o req) w
      = Returned (Replied {| status := 405;
                             payload := JsonRpcError (-32000)
                                          "Method not allowed." |})
      /\ store (Stateless.serve env o req) w = transports w)
  /\ (forall (env : Env) (o : Outside) (now : Z) (req : Request) (w : World)
             (r : Response),
        path req = "/mcp" ->
        result (Tracking.serve env o now req) w = Returned (Replied r) ->
        status r = 400 \/ status r = 401 \/ status r = 500)
  /\ (forall (env : Env) (o : Outside) (now : Z) (req req1 req2 : Request)
             (sid : string) (e : TransportWithTimestamp) (w : World),
        method req = GET -> path req = "/mcp" ->
        authMiddleware req = Next req1 ->
        credentials env req1 = Some req2 ->
        mcp_session_id req = Some sid -> sid <> EmptyString ->
        transports w !! sid = Some e ->
        kind (transport e) = StreamableHTTP ->
        In (HandleRequest (transport e) req2)
           (emitted (Tracking.serve env o now req) w)
        /\ lastActivity <$> store (Tracking.serve env o now req) w !! sid
           = Some now).
Proof.
  split; [|split].
  - intros env o req w Hm Hp. unfold Stateless.serve.
    rewrite Hm, Hp, stateless_route_get_mcp. split; reflexivity.
  - intros env o now req w r Hp. unfold Tracking.serve.
    rewrite Hp, tracking_route_mcp. cbn [Tracking.handle]. unfold guarded.
    destruct (authMiddleware req) as [req1|r'|] eqn:Hm.
    + apply mcp_reply_status.
    + intros H. injection H as <-.
      destruct (middleware_reject _ _ Hm) as [-> _]. auto.
    + discriminate.
  - intros env o now req req1 req2 sid e w Hget Hp Hm Hc Hsid Hne He Hk.
    rewrite (tracking_serve_mcp env o now req req1 Hp Hm).
    destruct (session_id_kept _ _ Hm) as (Hs1 & Hm1 & _).
    rewrite <- Hs1 in Hsid.
    destruct (credentials_keep _ _ _ Hc) as (_ & Hm2 & _).
    assert (Hmeth : method req2 = GET) by congruence.
    pose proof (mcp_resume_run env o now req1 req2 sid e w Hc Hsid Hne He Hk)
      as Hrun.
    rewrite (emitted_app _ _ _ (f_equal (fun r => trace (snd r)) Hrun)).
    unfold store, after. rewrite Hrun. cbn [snd transports]. split.
    + right. left. reflexivity.
    + unfold resume_store, handled_store, terminates. rewrite Hmeth.
      cbn [Tracking.is_delete andb]. unfold initialized_store, touched.
      destruct (initializes o (transport e) (body req2)).
      * destruct (decide (randomUUID o = sid)) as [->|Hne'].
        -- now rewrite lookup_insert_eq.
        -- now rewrite lookup_insert_ne, lookup_insert_eq.
      * now rewrite lookup_insert_eq.
Qed.

(** [get_mcp_by_server] at a GET naming session ["a"] of [two_sessions],
    with environment credentials: 405 from the stateless server, resumed
    by the session-tracking one. *)
Lemma get_mcp_by_server_witness :
  let req := incoming GET "/mcp" None (Some "a") in
  let req2 := with_credentials req (Some "login") (Some "secret") in
  result (Stateless.serve an_env quiet req) two_sessions
  = Returned (Replied {| status := 405;
                         payload := JsonRpcError (-32000)
                                      "Method not allowed." |})
  /\ (400 = 400 \/ 400 = 401 \/ 400 = 500)
  /\ In (HandleRequest (a_transport 1 StreamableHTTP "a" true) req2)
        (emitted (Tracking.serve an_env quiet 70000 req) two_sessions)
  /\ lastActivity
       <$> store (Tracking.serve an_env quiet 70000 req) two_sessions !! "a"
     = Some 70000.
Proof.
  intros req req2. split; [|split].
  - apply (proj1 get_mcp_by_server an_env quiet req two_sessions);
      reflexivity.
  - apply (proj1 (proj2 get_mcp_by_server) an_env quiet 70000
             (incoming GET "/mcp" None (Some "b")) two_sessions
             {| status := 400;
                payload := JsonRpcError (-32000)
                  "Bad Request: Session exists but uses a different transport protocol" |});
      reflexivity.
  - apply (proj2 (proj2 get_mcp_by_server) an_env quiet 70000 req req req2
             "a" (an_entry 1 StreamableHTTP "a" true 0) two_sessions);
      try reflexivity; discriminate.
Defined.

(** C8, as stated, fails in the session-tracking server: a GET to [/mcp]
    without a session identifier is answered 400, not 405. *)
Lemma tracking_get_mcp_is_not_405 :
  result (Tracking.serve an_env quiet 70000 (incoming GET "/mcp" None None))
    two_sessions
  = Returned (Replied {| status := 400;
                         payload := JsonRpcError (-32000)
                           "Bad Request: No valid session ID provided" |}).
Proof. reflexivity. Qed.

(** ** Missing credentials *)

Section MissingCredentials.
Variables (env : Env) (o : Outside) (now : Z) (req : Request) (w : World).
Hypothesis Hheader : no_recognized_header req.
Hypothesis Harrives : arrives req.
Hypothesis Henv : env_incomplete env.

Let Hnone : credentials env req = None :=
  credentials_missing env req Harrives Henv.










End MissingCredentials.




(** C10.  Resumed requests ignore per-request credentials.  Take two
    requests to [/mcp] that differ only in their [Authorization] header,
    each header yielding a non-empty pair, and naming the same live
    Streamable HTTP session.  Both runs give the same outcome and the same
    store; both hand the request to the transport stored at session
    creation; neither calls [getServer]; and their traces differ only in
    the credentials carried by the request object handed over. *)
Theorem resumed_request_ignores_credentials (env : Env) (o : Outside)
    (now : Z) (r1 r2 : Request) (sid u1 p1 u2 p2 : string)
    (e : TransportWithTimestamp) (w : World) :
  path r1 = "/mcp" ->
  same_but_authorization r1 r2 ->
  mcp_session_id r1 = Some sid -> sid <> EmptyString ->
  transports w !! sid = Some e ->
  kind (transport e) = StreamableHTTP ->
  authMiddleware r1 = Next (with_credentials r1 (Some u1) (Some p1)) ->
  u1 <> EmptyString -> p1 <> EmptyString ->
  authMiddleware r2 = Next (with_credentials r2 (Some u2) (Some p2)) ->
  u2 <> EmptyString -> p2 <> EmptyString ->
  let run1 := Tracking.serve env o now r1 in
  let run2 := Tracking.serve env o now r2 in
  result run1 w = result run2 w
  /\ store run1 w = store run2 w
  /\ List.map anonymous (emitted run1 w) = List.map anonymous (emitted run2 w)
  /\ builds (emitted run1 w) = 0%nat /\ builds (emitted run2 w) = 0%nat
  /\ In (HandleRequest (transport e) (with_credentials r1 (Some u1) (Some p1)))
        (emitted run1 w)
  /\ In (HandleRequest (transport e) (with_credentials r2 (Some u2) (Some p2)))
        (emitted run2 w).
Proof.
  intros Hp1 Hsame Hsid1 Hne He Hk Hm1 Hu1 _ Hm2 Hu2 _ run1 run2.
  pose proof Hsame as (Hmeth & Hp & Hs & _ & Hb & _).
  assert (Hp2 : path r2 = "/mcp") by congruence.
  assert (Hsid2 : mcp_session_id r2 = Some sid) by congruence.
  subst run1 run2.
  rewrite (tracking_serve_mcp env o now r1 _ Hp1 Hm1),
    (tracking_serve_mcp env o now r2 _ Hp2 Hm2).
  pose proof (mcp_resume_run env o now _ _ sid e w
                (credentials_attached env r1 u1 p1 Hu1) Hsid1 Hne He Hk)
    as Hrun1.
  pose proof (mcp_resume_run env o now _ _ sid e w
                (credentials_attached env r2 u2 p2 Hu2) Hsid2 Hne He Hk)
    as Hrun2.
  rewrite (emitted_app _ _ _ (f_equal (fun r => trace (snd r)) Hrun1)),
    (emitted_app _ _ _ (f_equal (fun r => trace (snd r)) Hrun2)).
  unfold result, store, after. rewrite Hrun1, Hrun2.
  cbn [fst snd transports with_credentials body method].
  rewrite <- Hb, <- Hmeth.
  repeat split.
  - cbn [List.map anonymous].
    now rewrite (blank_with_credentials r1 r2 _ _ (Some u2) (Some p2) Hsame).
  - apply builds_resume_tail.
  - apply builds_resume_tail.
  - right. left. reflexivity.
  - right. left. reflexivity.
Qed.

(** [resumed_request_ignores_credentials] on [two_sessions]: session ["a"]
    resumed once with [Basic base64("u:p")] and once with
    [Bearer base64("x:y")]. *)
Lemma resumed_request_ignores_credentials_witness :
  let r1 :=
    incoming POST "/mcp" (Some ("Basic " +:+ Base64.encode "u:p")) (Some "a") in
  let r2 :=
    incoming POST "/mcp" (Some ("Bearer " +:+ Base64.encode "x:y")) (Some "a") in
  authMiddleware r1 = Next (with_credentials r1 (Some "u") (Some "p"))
  /\ authMiddleware r2 = Next (with_credentials r2 (Some "x") (Some "y"))
  /\ result (Tracking.serve an_env quiet 70000 r1) two_sessions
     = result (Tracking.serve an_env quiet 70000 r2) two_sessions
  /\ store (Tracking.serve an_env quiet 70000 r1) two_sessions
     = store (Tracking.serve an_env quiet 70000 r2) two_sessions
  /\ builds (emitted (Tracking.serve an_env quiet 70000 r1) two_sessions)
     = 0%nat.
Proof.
  intros r1 r2.
  assert (Hm1 : authMiddleware r1
                = Next (with_credentials r1 (Some "u") (Some "p")))
    by reflexivity.
  assert (Hm2 : authMiddleware r2
                = Next (with_credentials r2 (Some "x") (Some "y")))
    by reflexivity.
  assert (Hsame : same_but_authorization r1 r2)
    by (repeat split; reflexivity).
  assert (He : transports two_sessions !! "a"
               = Some (an_entry 1 StreamableHTTP "a" true 0))
    by reflexivity.
  assert (Hn : forall c s, String c s <> EmptyString) by discriminate.
  destruct (resumed_request_ignores_credentials an_env quiet 70000 r1 r2
              "a" "u" "p" "x" "y" _ two_sessions
              eq_refl Hsame eq_refl (Hn _ _) He eq_refl
              Hm1 (Hn _ _) (Hn _ _) Hm2 (Hn _ _) (Hn _ _))
    as (Hr & Hs & _ & Hb & _).
  repeat split; assumption.
Defined.


(* ===================================================================== *)
(** * Further properties of the code                                     *)
(* ===================================================================== *)

(** ** Credential extractor, all headers *)

Section ExtractorShape.

Lemma startsWith_app (s p : string) :
  Js.startsWith s p = true -> exists r, s = p +:+ r.
Proof.
  revert s. induction p as [|a p IH]; intros s H.
  - exists s. reflexivity.
  - destruct s as [|b s]; [discriminate|]. cbn [Js.startsWith] in H.
    apply andb_prop in H as [Hab Hs]. apply Ascii.eqb_eq in Hab. subst b.
    destruct (IH s Hs) as [r ->]. exists r. reflexivity.
Qed.

Lemma split_nonempty (sep : ascii) (s : string) : Js.split sep s <> [].
Proof.
  destruct s as [|c s]; cbn [Js.split]; [discriminate|].
  destruct (Ascii.eqb c sep); [discriminate|].
  destruct (Js.split sep s); discriminate.
Qed.

Lemma second_field_basic (rest : string) :
  Js.split " " ("Basic " +:+ rest) !! 1%nat = Some (first_field rest).
Proof.
  change ("Basic " +:+ rest) with ("Basic" +:+ String " " rest).
  rewrite split_at_first by reflexivity. unfold first_field.
  pose proof (split_nonempty " " rest).
  destruct (Js.split " " rest); [contradiction | reflexivity].
Qed.

Lemma second_field_bearer (rest : string) :
  Js.split " " ("Bearer " +:+ rest) !! 1%nat = Some (first_field rest).
Proof.
  change ("Bearer " +:+ rest) with ("Bearer" +:+ String " " rest).
  rewrite split_at_first by reflexivity. unfold first_field.
  pose proof (split_nonempty " " rest).
  destruct (Js.split " " rest); [contradiction | reflexivity].
Qed.

(** The middleware on a [Basic] header, in closed form. *)
Lemma basic_run (req : Request) (rest : string) :
  authorization req = Some ("Basic " +:+ rest) ->
  authMiddleware req
  = decide_token req (first_field rest) "Invalid credentials".
Proof.
  intros Hh. unfold authMiddleware. rewrite Hh. cbv beta iota.
  rewrite (eq_refl : Js.truthy (Some ("Basic " +:+ rest)) = true).
  rewrite (eq_refl : Js.startsWith ("Basic " +:+ rest) "Basic " = true).
  cbn [negb]. rewrite second_field_basic. reflexivity.
Qed.

(** The middleware on a [Bearer] header, in closed form. *)
Lemma bearer_run (req : Request) (rest : string) :
  authorization req = Some ("Bearer " +:+ rest) ->
  authMiddleware req
  = match first_field rest with
    | EmptyString =>
        Reject {| status := 401;
                  payload := JsonRpcError (-32001) "Invalid Bearer token" |}
    | token =>
        decide_token req token
          "Invalid Bearer token format. Expected base64 encoded 'username:password'"
    end.
Proof.
  intros Hh. unfold authMiddleware. rewrite Hh. cbv beta iota.
  rewrite (eq_refl : Js.truthy (Some ("Bearer " +:+ rest)) = true).
  rewrite (eq_refl : Js.startsWith ("Bearer " +:+ rest) "Basic " = false).
  rewrite (eq_refl : Js.startsWith ("Bearer " +:+ rest) "Bearer " = true).
  cbn [negb]. rewrite second_field_bearer.
  destruct (first_field rest); reflexivity.
Qed.

Lemma truthy_some (v : option string) :
  Js.truthy v = true -> exists s, v = Some s /\ s <> EmptyString.
Proof.
  destruct v as [s|]; [|discriminate]. cbn. intros H. exists s.
  split; [reflexivity|]. apply String.eqb_neq.
  now apply negb_true_iff in H.
Qed.

Lemma decide_token_next (req req' : Request) (token message : string) :
  decide_token req token message = Next req' ->
  exists u p, u <> EmptyString /\ p <> EmptyString
              /\ req' = with_credentials req (Some u) (Some p).
Proof.
  unfold decide_token.
  destruct (Js.truthy (Js.split ":" (Base64.decode token) !! 0%nat)) eqn:Hu;
    [|discriminate].
  destruct (Js.truthy (Js.split ":" (Base64.decode token) !! 1%nat)) eqn:Hp;
    [|discriminate].
  cbn [negb orb]. intros H. injection H as <-.
  destruct (truthy_some _ Hu) as (u & -> & Hu').
  destruct (truthy_some _ Hp) as (p & -> & Hp').
  exists u, p. auto.
Qed.

Lemma decide_token_not_raise (req : Request) (token message : string) :
  decide_token req token message <> Raise.
Proof. unfold decide_token. now destruct (_ || _). Qed.

(** Every header falls in one of three classes. *)
Lemma header_classes (req : Request) :
  no_recognized_header req
  \/ (exists rest, authorization req = Some ("Basic " +:+ rest))
  \/ (exists rest, authorization req = Some ("Bearer " +:+ rest)).
Proof.
  unfold no_recognized_header.
  destruct (authorization req) as [h|]; [|left; exact I].
  destruct (Js.startsWith h "Basic ") eqn:Hb.
  - right. left. destruct (startsWith_app _ _ Hb) as [r ->]. eauto.
  - destruct (Js.startsWith h "Bearer ") eqn:HB.
    + right. right. destruct (startsWith_app _ _ HB) as [r ->]. eauto.
    + left. auto.
Qed.

Lemma middleware_does_not_raise (req : Request) : authMiddleware req <> Raise.
Proof.
  destruct (header_classes req) as [H | [[rest H] | [rest H]]].
  - now rewrite (middleware_passes req H).
  - rewrite (basic_run req rest H). apply decide_token_not_raise.
  - rewrite (bearer_run req rest H).
    destruct (first_field rest); [discriminate|].
    apply decide_token_not_raise.
Qed.

Lemma middleware_next_cases (req req' : Request) :
  authMiddleware req = Next req' ->
  req' = req
  \/ exists u p, u <> EmptyString /\ p <> EmptyString
                 /\ req' = with_credentials req (Some u) (Some p).
Proof.
  destruct (header_classes req) as [H | [[rest H] | [rest H]]].
  - rewrite (middleware_passes req H). intros E. injection E as <-. now left.
  - rewrite (basic_run req rest H). intros E. right.
    exact (decide_token_next _ _ _ _ E).
  - rewrite (bearer_run req rest H).
    destruct (first_field rest) eqn:Hf; [discriminate|].
    intros E. right. exact (decide_token_next _ _ _ _ E).
Qed.

End ExtractorShape.

(** X1.  When the middleware calls [next()], the request is either passed
    on untouched or carries a pair of non-empty strings in [username] and
    [password]; nothing else of the request changes. *)
Theorem middleware_passes_or_attaches_pair (req req' : Request) :
  authMiddleware req = Next req' ->
  req' = req
  \/ exists u p, u <> EmptyString /\ p <> EmptyString
                 /\ req' = with_credentials req (Some u) (Some p).
Proof. apply middleware_next_cases. Qed.

(** [middleware_passes_or_attaches_pair] at [Bearer base64("x:y")]. *)
Lemma middleware_passes_or_attaches_pair_witness :
  let req :=
    incoming GET "/sse" (Some ("Bearer " +:+ Base64.encode "x:y")) None in
  authMiddleware req = Next (with_credentials req (Some "x") (Some "y"))
  /\ (with_credentials req (Some "x") (Some "y") = req
      \/ exists u p, u <> EmptyString /\ p <> EmptyString
           /\ with_credentials req (Some "x") (Some "y")
              = with_credentials req (Some u) (Some p)).
Proof.
  intros req. split; [reflexivity|].
  apply (middleware_passes_or_attaches_pair req). reflexivity.
Defined.

(** X2.  The middleware never throws: the token it reads with
    [authHeader.split(" ")[1]] is always defined once the scheme matched. *)
Theorem middleware_never_raises (req : Request) :
  (exists req', authMiddleware req = Next req')
  \/ (exists r, authMiddleware req = Reject r).
Proof.
  pose proof (middleware_does_not_raise req) as H.
  destruct (authMiddleware req); [eauto | eauto | contradiction].
Qed.

(** X3.  The middleware rejects only headers of the [Basic] or [Bearer]
    scheme, and every rejection is a 401 with JSON-RPC error code -32001. *)
Theorem middleware_rejections (req : Request) (r : Response) :
  authMiddleware req = Reject r ->
  status r = 401 /\ error_code r = Some (-32001)
  /\ exists h, authorization req = Some h
       /\ (Js.startsWith h "Basic " = true \/ Js.startsWith h "Bearer " = true).
Proof.
  intros H. destruct (middleware_reject req r H) as [Hs Hc].
  split; [exact Hs|]. split; [exact Hc|].
  destruct (header_classes req) as [Hn | [[rest Hh] | [rest Hh]]].
  - rewrite (middleware_passes req Hn) in H. discriminate.
  - exists ("Basic " +:+ rest). split; [exact Hh|]. left. reflexivity.
  - exists ("Bearer " +:+ rest). split; [exact Hh|]. right. reflexivity.
Qed.

(** [middleware_rejections] at [Basic base64(":secret")], an empty user. *)
Lemma middleware_rejections_witness :
  let req :=
    incoming POST "/mcp" (Some ("Basic " +:+ Base64.encode ":secret")) None in
  authMiddleware req
  = Reject {| status := 401;
              payload := JsonRpcError (-32001) "Invalid credentials" |}
  /\ exists h, authorization req = Some h
       /\ (Js.startsWith h "Basic " = true \/ Js.startsWith h "Bearer " = true).
Proof.
  intros req. split; [reflexivity|].
  apply (middleware_rejections req
           {| status := 401;
              payload := JsonRpcError (-32001) "Invalid credentials" |}).
  reflexivity.
Defined.

(** X4.  [Basic] and [Bearer] read the token the same way: for the same
    text after the scheme, one header is accepted exactly when the other
    is, and with the same pair. *)
Theorem basic_and_bearer_agree (req : Request) (rest u p : string) :
  let basic := with_authorization req (Some ("Basic " +:+ rest)) in
  let bearer := with_authorization req (Some ("Bearer " +:+ rest)) in
  authMiddleware basic = Next (with_credentials basic (Some u) (Some p))
  <-> authMiddleware bearer = Next (with_credentials bearer (Some u) (Some p)).
Proof.
  intros basic bearer.
  rewrite (basic_run basic rest eq_refl), (bearer_run bearer rest eq_refl).
  assert (Hempty : forall r m,
            decide_token r EmptyString m
            = Reject {| status := 401; payload := JsonRpcError (-32001) m |})
    by reflexivity.
  destruct (first_field rest) as [|c t] eqn:Hf.
  - rewrite Hempty. split; discriminate.
  - unfold decide_token. destruct (_ || _).
    + split; discriminate.
    + subst basic bearer. unfold with_credentials, with_authorization. cbn.
      split; intros E; injection E as -> ->; reflexivity.
Qed.

(** [basic_and_bearer_agree] at the token [base64("u:p")]. *)
Lemma basic_and_bearer_agree_witness :
  let req := incoming POST "/mcp" None None in
  let bearer :=
    with_authorization req (Some ("Bearer " +:+ Base64.encode "u:p")) in
  authMiddleware bearer = Next (with_credentials bearer (Some "u") (Some "p")).
Proof.
  intros req bearer.
  apply (proj1 (basic_and_bearer_agree req (Base64.encode "u:p") "u" "p")).
  reflexivity.
Defined.

(** ** Credential resolution *)

Section Resolution.

Lemma credentials_from_env (env : Env) (req req2 : Request) :
  arrives req -> credentials env req = Some req2 ->
  req2 = with_credentials req (DATAFORSEO_USERNAME env)
           (DATAFORSEO_PASSWORD env)
  /\ Js.truthy (DATAFORSEO_USERNAME env) = true
  /\ Js.truthy (DATAFORSEO_PASSWORD env) = true.
Proof.
  intros [Hu Hp]. unfold credentials. rewrite Hu, Hp. cbn [Js.truthy negb andb].
  destruct (Js.truthy (DATAFORSEO_USERNAME env)); [|discriminate].
  destruct (Js.truthy (DATAFORSEO_PASSWORD env)); [|discriminate].
  cbn. intros E. injection E as <-. auto.
Qed.


End Resolution.

(** X5.  From a request as it arrives, the pair a protected handler works
    with is never empty in either half, and the header wins over the
    environment: it is the pair attached by the middleware when there is
    one, and the pair of environment variables only otherwise. *)
Theorem resolved_credentials (env : Env) (req r1 r2 : Request) :
  arrives req ->
  authMiddleware req = Next r1 ->
  credentials env r1 = Some r2 ->
  Js.truthy (username r2) = true /\ Js.truthy (password r2) = true
  /\ ((r1 = req
       /\ r2 = with_credentials req (DATAFORSEO_USERNAME env)
                 (DATAFORSEO_PASSWORD env))
      \/ (exists u p, r1 = with_credentials req (Some u) (Some p)
                      /\ r2 = r1)).
Proof.
  intros Ha Hm Hc.
  destruct (middleware_next_cases _ _ Hm) as [-> | (u & p & Hu & Hp & ->)].
  - destruct (credentials_from_env env req r2 Ha Hc) as (-> & Heu & Hep).
    cbn [username password with_credentials]. auto.
  - rewrite (credentials_attached env req u p Hu) in Hc.
    injection Hc as <-. cbn [username password with_credentials].
    rewrite (truthy_nonempty _ Hu), (truthy_nonempty _ Hp).
    split; [reflexivity|]. split; [reflexivity|]. right. eauto.
Qed.

(** [resolved_credentials] with a header and a configured environment: the
    header's pair is kept. *)
Lemma resolved_credentials_witness :
  let req :=
    incoming POST "/mcp" (Some ("Basic " +:+ Base64.encode "u:p")) None in
  let r1 := with_credentials req (Some "u") (Some "p") in
  arrives req /\ authMiddleware req = Next r1
  /\ credentials an_env r1 = Some r1
  /\ Js.truthy (username r1) = true /\ Js.truthy (password r1) = true.
Proof.
  intros req r1.
  assert (Ha : arrives req) by (split; reflexivity).
  assert (Hm : authMiddleware req = Next r1) by reflexivity.
  assert (Hc : credentials an_env r1 = Some r1) by reflexivity.
  destruct (resolved_credentials an_env req r1 r1 Ha Hm Hc) as (Hu & Hp & _).
  repeat split; assumption.
Defined.

(** ** The session-tracking router *)

Ltac run_handlers :=
  unfold result, store, after, Tracking.mcp, Tracking.sse, Tracking.messages,
    Tracking.handleRequest, Tracking.handlePostMessage,
    Tracking.onsessioninitialized, Tracking.cleanup,
    Tracking.different_protocol,
    Stateless.mcp_post, Stateless.tools, Stateless.tool_, Stateless.dispose,
    Stateless.handleRequest, Stateless.mcp_get, Stateless.mcp_delete,
    Stateless.info, Stateless.guarded_logged, validate_credentials,
    Stateless.internal_error, close, getServer, connect, reply, try_catch,
    update_transports, read_transports, emit, throw,
    mbind, M_bind, mret, M_ret.

Ltac case_flags :=
  repeat first
    [ progress cbn
    | match goal with
      | |- context [authMiddleware ?r] => destruct (authMiddleware r)
      | |- context [credentials ?e ?r] => destruct (credentials e r)
      | |- context [Js.truthy ?x] => destruct (Js.truthy x)
      | |- context [get ?m ?k] => destruct (get m k)
      | |- context [kind ?t] => destruct (kind t)
      | |- context [sessionId ?t] => destruct (sessionId t)
      | |- context [Tracking.is_post ?m] => destruct (Tracking.is_post m)
      | |- context [isInitializeRequest ?b] =>
          destruct (isInitializeRequest b)
      | |- context [getServer_raises ?o] => destruct (getServer_raises o)
      | |- context [connect_raises ?o] => destruct (connect_raises o)
      | |- context [handleRequest_raises ?o] =>
          destruct (handleRequest_raises o)
      | |- context [headersSent ?o] => destruct (headersSent o)
      | |- context [initialization_accepted ?o] =>
          destruct (initialization_accepted o)
      | |- context [Tracking.is_delete ?m] => destruct (Tracking.is_delete m)
      | |- context [termination_accepted ?o] =>
          destruct (termination_accepted o)
      | |- context [close_raises ?t] => destruct (close_raises t)
      | |- context [new_transport_close_raises ?o] =>
          destruct (new_transport_close_raises o)
      | |- context [makeRequest ?o] => destruct (makeRequest o)
      end ].

Section TrackingRouter.

(** A request without usable session id that is not an initialize POST. *)
Lemma mcp_missing_session (env : Env) (o : Outside) (now : Z)
    (req req2 : Request) (w : World) :
  credentials env req = Some req2 ->
  Js.truthy (mcp_session_id req) = false ->
  Tracking.is_post (method req) && isInitializeRequest (body req) = false ->
  Tracking.mcp env o now req w
  = (Returned (Replied {| status := 400;
                          payload := JsonRpcError (-32000)
                            "Bad Request: No valid session ID provided" |}),
     {| transports := transports w;
        trace := trace w
          ++ [ConsoleLog ("Received " +:+ Tracking.method_name (method req)
                            +:+ " request to /mcp");
              ConsoleError "No valid session ID provided"] |}).
Proof.
  intros Hc Hsid Hinit.
  destruct (credentials_keep env req req2 Hc) as (_ & Hm & Hb).
  unfold Tracking.mcp. rewrite run_bind. cbn [emit]. unfold try_catch.
  rewrite Hc, Hsid. rewrite run_bind. cbn [read_transports negb andb].
  rewrite Hm, Hb, Hinit. unfold reply, emit, mbind, M_bind, mret, M_ret.
  cbn. now rewrite <- app_assoc.
Qed.

(** An initialize POST without session id, when the build succeeds and
    the SDK accepts the message. *)
Lemma mcp_creates (env : Env) (o : Outside) (now : Z)
    (req req2 : Request) (w : World) :
  credentials env req = Some req2 ->
  Js.truthy (mcp_session_id req) = false ->
  method req = POST -> isInitializeRequest (body req) = true ->
  getServer_raises o = false -> connect_raises o = false ->
  handleRequest_raises o = false -> initialization_accepted o = true ->
  Tracking.mcp env o now req w
  = (Returned Delegated,
     {| transports :=
          <[randomUUID o :=
              {| transport :=
                   Tracking.initialized (Stateless.new_transport o)
                     (randomUUID o);
                 lastActivity := now |}]> (transports w);
        trace := trace w
          ++ [ConsoleLog "Received POST request to /mcp";
              SetOnClose (Stateless.new_transport o);
              SocketSetTimeout CONNECTION_TIMEOUT;
              Listen "req.socket" "error" (Stateless.new_transport o);
              Listen "req.socket" "timeout" (Stateless.new_transport o);
              Listen "req" "error" (Stateless.new_transport o);
              Listen "res" "error" (Stateless.new_transport o);
              Listen "res" "close" (Stateless.new_transport o);
              GetServer (username req2) (password req2);
              ServerConnect (Stateless.new_transport o);
              HandleRequest (Stateless.new_transport o) req2;
              ConsoleLog ("StreamableHTTP session initialized with ID: "
                            +:+ randomUUID o)] |}).
Proof.
  intros Hc Hsid Hpost Hinit Hg Hcn Hh Hacc.
  destruct (credentials_keep env req req2 Hc) as (_ & Hm & Hb).
  unfold Tracking.mcp. rewrite run_bind. cbn [emit]. unfold try_catch.
  rewrite Hc, Hsid. rewrite run_bind. cbn [read_transports negb andb].
  rewrite Hm, Hb, Hpost, Hinit. cbn [Tracking.is_post andb].
  run_handlers. rewrite Hg, Hcn, Hh. cbn.
  rewrite Hb, Hinit, Hacc, Hm, Hpost. cbn.
  now rewrite <- !app_assoc.
Qed.


End TrackingRouter.

(** X6.  A request to [/mcp] whose credentials are resolved, that carries
    no session identifier (or an empty one) and is not an initialize POST,
    is answered 400 "Bad Request: No valid session ID provided"; the store
    is untouched and nothing is called but the console. *)
Theorem missing_session_rejected (env : Env) (o : Outside) (now : Z)
    (req req2 : Request) (w : World) :
  credentials env req = Some req2 ->
  Js.truthy (mcp_session_id req) = false ->
  Tracking.is_post (method req) && isInitializeRequest (body req) = false ->
  result (Tracking.mcp env o now req) w
  = Returned (Replied {| status := 400;
                         payload := JsonRpcError (-32000)
                           "Bad Request: No valid session ID provided" |})
  /\ store (Tracking.mcp env o now req) w = transports w
  /\ emitted (Tracking.mcp env o now req) w
     = [ConsoleLog ("Received " +:+ Tracking.method_name (method req)
                      +:+ " request to /mcp");
        ConsoleError "No valid session ID provided"].
Proof.
  intros Hc Hsid Hinit.
  pose proof (mcp_missing_session env o now req req2 w Hc Hsid Hinit) as Hrun.
  rewrite (emitted_app _ _ _ (f_equal (fun r => trace (snd r)) Hrun)).
  unfold result, store, after. rewrite Hrun. auto.
Qed.

(** [missing_session_rejected] at a DELETE without session identifier. *)
Lemma missing_session_rejected_witness :
  let req := with_credentials (incoming DELETE "/mcp" None None)
               (Some "login") (Some "secret") in
  credentials no_env req = Some req
  /\ result (Tracking.mcp no_env quiet 70000 req) two_sessions
     = Returned (Replied {| status := 400;
                            payload := JsonRpcError (-32000)
                              "Bad Request: No valid session ID provided" |})
  /\ store (Tracking.mcp no_env quiet 70000 req) two_sessions
     = transports two_sessions.
Proof.
  intros req.
  assert (Hc : credentials no_env req = Some req) by reflexivity.
  destruct (missing_session_rejected no_env quiet 70000 req req two_sessions
              Hc eq_refl eq_refl) as (Hr & Hs & _).
  auto.
Defined.

(** X7.  An initialize POST to [/mcp] without session identifier, when
    neither [getServer] nor [connect] nor [handleRequest] raises and the
    SDK accepts the message: the close callback of a new transport is
    installed on the transport, the socket, the request and the response;
    one server is built, with exactly the resolved credentials, and
    connected to that transport; the transport is registered under the
    generated id with the current time; every other entry stays; the
    response is left to the transport. *)
Theorem initialize_creates_session (env : Env) (o : Outside) (now : Z)
    (req req2 : Request) (w : World) :
  credentials env req = Some req2 ->
  Js.truthy (mcp_session_id req) = false ->
  method req = POST -> isInitializeRequest (body req) = true ->
  getServer_raises o = false -> connect_raises o = false ->
  handleRequest_raises o = false -> initialization_accepted o = true ->
  result (Tracking.mcp env o now req) w = Returned Delegated
  /\ store (Tracking.mcp env o now req) w
     = <[randomUUID o :=
           {| transport :=
                Tracking.initialized (Stateless.new_transport o) (randomUUID o);
              lastActivity := now |}]> (transports w)
  /\ emitted (Tracking.mcp env o now req) w
     = [ConsoleLog "Received POST request to /mcp";
        SetOnClose (Stateless.new_transport o);
        SocketSetTimeout CONNECTION_TIMEOUT;
        Listen "req.socket" "error" (Stateless.new_transport o);
        Listen "req.socket" "timeout" (Stateless.new_transport o);
        Listen "req" "error" (Stateless.new_transport o);
        Listen "res" "error" (Stateless.new_transport o);
        Listen "res" "close" (Stateless.new_transport o);
        GetServer (username req2) (password req2);
        ServerConnect (Stateless.new_transport o);
        HandleRequest (Stateless.new_transport o) req2;
        ConsoleLog ("StreamableHTTP session initialized with ID: "
                      +:+ randomUUID o)].
Proof.
  intros Hc Hsid Hpost Hinit Hg Hcn Hh Hacc.
  pose proof (mcp_creates env o now req req2 w Hc Hsid Hpost Hinit Hg Hcn Hh
                Hacc) as Hrun.
  rewrite (emitted_app _ _ _ (f_equal (fun r => trace (snd r)) Hrun)).
  unfold result, store, after. rewrite Hrun. auto.
Qed.

(** [initialize_creates_session] on [two_sessions], in a quiet
    environment. *)
Lemma initialize_creates_session_witness :
  let init :=
    {| isInitializeRequest := true; tool := None; content := "initialize" |} in
  let req :=
    {| method := POST; path := "/mcp"; authorization := None;
       mcp_session_id := None; query_sessionId := None; body := init;
       username := Some "u"; password := Some "p" |} in
  credentials no_env req = Some req
  /\ result (Tracking.mcp no_env quiet 70000 req) two_sessions
     = Returned Delegated
  /\ lastActivity
       <$> store (Tracking.mcp no_env quiet 70000 req) two_sessions
             !! randomUUID quiet
     = Some 70000.
Proof.
  intros init req.
  assert (Hc : credentials no_env req = Some req) by reflexivity.
  destruct (initialize_creates_session no_env quiet 70000 req req two_sessions
              Hc eq_refl eq_refl eq_refl eq_refl eq_refl eq_refl eq_refl)
    as (Hr & Hs & _).
  split; [exact Hc|]. split; [exact Hr|].
  rewrite Hs. now rewrite lookup_insert_eq.
Defined.

(** X8.  A request to [/mcp] without session identifier registers nothing
    when [getServer] raises, when [connect] raises, or when the SDK does
    not accept the message as an initialization: the store is as
    before. *)
Theorem failed_creation_registers_nothing (env : Env) (o : Outside) (now : Z)
    (req req2 : Request) (w : World) :
  credentials env req = Some req2 ->
  Js.truthy (mcp_session_id req) = false ->
  getServer_raises o = true \/ connect_raises o = true
  \/ initialization_accepted o = false ->
  store (Tracking.mcp env o now req) w = transports w.
Proof.
  intros Hc Hsid Hfail. run_handlers. rewrite Hc, Hsid. cbn.
  destruct (method req2), (isInitializeRequest (body req2)); cbn;
    try reflexivity.
  destruct Hfail as [-> | [Hfail | Hfail]]; cbn.
  - now destruct (headersSent o).
  - destruct (getServer_raises o); cbn; [now destruct (headersSent o)|].
    rewrite Hfail. cbn. now destruct (headersSent o).
  - destruct (getServer_raises o); cbn; [now destruct (headersSent o)|].
    destruct (connect_raises o); cbn; [now destruct (headersSent o)|].
    rewrite Hfail. cbn.
    destruct (handleRequest_raises o); cbn; [|reflexivity].
    now destruct (headersSent o).
Qed.

(** [failed_creation_registers_nothing] when [getServer] raises. *)
Lemma failed_creation_registers_nothing_witness :
  let init :=
    {| isInitializeRequest := true; tool := None; content := "initialize" |} in
  let req :=
    {| method := POST; path := "/mcp"; authorization := None;
       mcp_session_id := None; query_sessionId := None; body := init;
       username := Some "u"; password := Some "p" |} in
  let failing :=
    {| getServer_raises := true; connect_raises := false;
       handleRequest_raises := false; headersSent := false;
       new_transport_id := 7; new_transport_close_raises := false;
       randomUUID := "id"; initialization_accepted := true;
       termination_accepted := true; makeRequest := ApiOk |} in
  result (Tracking.mcp no_env failing 70000 req) two_sessions
  = Returned (Replied {| status := 500;
                         payload := JsonRpcError (-32603)
                                      "Internal server error" |})
  /\ store (Tracking.mcp no_env failing 70000 req) two_sessions
     = transports two_sessions.
Proof.
  intros init req failing. split; [reflexivity|].
  apply (failed_creation_registers_nothing no_env failing 70000 req req
           two_sessions); [reflexivity | reflexivity | left; reflexivity].
Defined.

Lemma mcp_unknown_session (env : Env) (o : Outside) (now : Z)
    (req req2 : Request) (sid : string) (w : World) :
  credentials env req = Some req2 ->
  mcp_session_id req = Some sid -> sid <> EmptyString ->
  transports w !! sid = None ->
  exists text,
    Tracking.mcp env o now req w
    = (Returned (Replied {| status := 400;
                            payload := JsonRpcError (-32000)
                                         ("Bad Request: " +:+ text) |}),
       {| transports := transports w;
          trace := trace w
            ++ [ConsoleLog ("Received " +:+ Tracking.method_name (method req)
                              +:+ " request to /mcp");
                ConsoleError text] |}).
Proof.
  intros Hc Hsid Hne Hnone. unfold Tracking.mcp.
  rewrite run_bind. cbn [emit]. unfold try_catch. rewrite Hc, Hsid.
  rewrite run_bind. cbn [read_transports transports].
  rewrite (truthy_nonempty _ Hne). cbn [Js.key negb andb]. unfold get.
  unfold Tracking.different_protocol, reply. rewrite Hnone.
  destruct (Js.inherited sid); eexists;
    rewrite !run_bind; cbn; rewrite <- app_assoc; reflexivity.
Qed.

(** X9.  A session created by an initialize POST does not outlive the
    response to that POST.  The handler registers the close callback of
    the new transport on the [close] event of the response; when that
    event runs the callback, the callback returns and the entry is gone,
    so that the store is the one before the POST without the generated
    id.  A later request to [/mcp] that names the generated id is then
    answered 400 by the router: the store stays as it is and the request
    reaches no transport. *)
Theorem created_session_ends_with_response (env env' : Env) (o o' : Outside)
    (now now' : Z) (req req2 req' req2' : Request) (w : World) :
  credentials env req = Some req2 ->
  Js.truthy (mcp_session_id req) = false ->
  method req = POST -> isInitializeRequest (body req) = true ->
  getServer_raises o = false -> connect_raises o = false ->
  handleRequest_raises o = false -> initialization_accepted o = true ->
  randomUUID o <> EmptyString ->
  credentials env' req' = Some req2' ->
  mcp_session_id req' = Some (randomUUID o) ->
  let created := after (Tracking.mcp env o now req) w in
  let t := Tracking.initialized (Stateless.new_transport o) (randomUUID o) in
  let closed := after (Tracking.cleanup t) created in
  In (Listen "res" "close" (Stateless.new_transport o))
     (emitted (Tracking.mcp env o now req) w)
  /\ transport <$> transports created !! randomUUID o = Some t
  /\ result (Tracking.cleanup t) created = Returned tt
  /\ transports closed = delete (randomUUID o) (transports w)
  /\ (exists text,
        result (Tracking.mcp env' o' now' req') closed
        = Returned (Replied {| status := 400;
                               payload := JsonRpcError (-32000)
                                            ("Bad Request: " +:+ text) |})
        /\ emitted (Tracking.mcp env' o' now' req') closed
           = [ConsoleLog ("Received " +:+ Tracking.method_name (method req')
                            +:+ " request to /mcp");
              ConsoleError text])
  /\ store (Tracking.mcp env' o' now' req') closed = transports closed.
Proof.
  intros Hc Hsid Hpost Hinit Hg Hcn Hh Hacc Hne Hc' Hsid' created t closed.
  pose proof (mcp_creates env o now req req2 w Hc Hsid Hpost Hinit Hg Hcn Hh
                Hacc) as Hrun.
  assert (Hcreated : transports created
                     = <[randomUUID o := {| transport := t; lastActivity := now |}]>
                         (transports w)).
  { subst created. unfold after. now rewrite Hrun. }
  assert (Hentry : transports created !! randomUUID o
                   = Some {| transport := t; lastActivity := now |}).
  { rewrite Hcreated. apply lookup_insert_eq. }
  pose proof (cleanup_run t (randomUUID o) created eq_refl Hne
                (ex_intro _ _ Hentry)) as Hclean.
  assert (Hclosed : transports closed = delete (randomUUID o) (transports w)).
  { subst closed. unfold after. rewrite Hclean. cbn [snd transports].
    rewrite Hcreated. apply delete_insert_eq. }
  assert (Hgone : transports closed !! randomUUID o = None).
  { rewrite Hclosed. apply lookup_delete_eq. }
  destruct (mcp_unknown_session env' o' now' req' req2' (randomUUID o) closed
              Hc' Hsid' Hne Hgone) as (text & Hrun').
  split.
  { rewrite (emitted_app _ _ _ (f_equal (fun r => trace (snd r)) Hrun)).
    cbn. tauto. }
  split; [now rewrite Hentry|].
  split; [unfold result; now rewrite Hclean|].
  split; [exact Hclosed|].
  split.
  - exists text. split.
    + unfold result. now rewrite Hrun'.
    + now rewrite (emitted_app _ _ _ (f_equal (fun r => trace (snd r)) Hrun')).
  - unfold store, after. now rewrite Hrun'.
Qed.

(** [created_session_ends_with_response]: a session created on
    [two_sessions] at 70000; after the response has closed, a POST at
    80000 that names its id is answered 400. *)
Lemma created_session_ends_with_response_witness :
  let init :=
    {| isInitializeRequest := true; tool := None; content := "initialize" |} in
  let req :=
    {| method := POST; path := "/mcp"; authorization := None;
       mcp_session_id := None; query_sessionId := None; body := init;
       username := Some "u"; password := Some "p" |} in
  let next :=
    with_credentials (incoming POST "/mcp" None (Some (randomUUID quiet)))
      (Some "u") (Some "p") in
  let created := after (Tracking.mcp no_env quiet 70000 req) two_sessions in
  let t :=
    Tracking.initialized (Stateless.new_transport quiet) (randomUUID quiet) in
  let closed := after (Tracking.cleanup t) created in
  transports closed = delete (randomUUID quiet) (transports two_sessions)
  /\ result (Tracking.mcp no_env quiet 80000 next) closed
     = Returned (Replied {| status := 400;
                            payload := JsonRpcError (-32000)
                              "Bad Request: No valid session ID provided" |})
  /\ store (Tracking.mcp no_env quiet 80000 next) closed = transports closed.
Proof.
  intros init req next created t closed.
  assert (Hne : randomUUID quiet <> EmptyString) by discriminate.
  destruct (created_session_ends_with_response no_env no_env quiet quiet
              70000 80000 req req next next two_sessions
              eq_refl eq_refl eq_refl eq_refl eq_refl eq_refl eq_refl eq_refl
              Hne eq_refl eq_refl) as (_ & _ & _ & Hd & _ & Hs).
  split; [exact Hd|]. split; [reflexivity|]. exact Hs.
Defined.

Section HandlersKeepSessions.

Lemma is_Some_insert (ts : gmap string TransportWithTimestamp)
    (i j : string) (x : TransportWithTimestamp) :
  is_Some (ts !! j) -> is_Some (<[i := x]> ts !! j).
Proof.
  intros H. destruct (decide (i = j)) as [->|Hne].
  - rewrite lookup_insert_eq. eauto.
  - now rewrite lookup_insert_ne.
Qed.


(** [/mcp] keeps every entry unless the SDK terminates a session. *)
Lemma mcp_keeps_entries (env : Env) (o : Outside) (now : Z)
    (req : Request) (w : World) (id : string) :
  Tracking.is_delete (method req) && termination_accepted o = false ->
  is_Some (transports w !! id) ->
  is_Some (store (Tracking.mcp env o now req) w !! id).
Proof.
  intros Hd H. destruct (credentials env req) as [req2|] eqn:Hc.
  - destruct (credentials_keep _ _ _ Hc) as (_ & Hm2 & _).
    rewrite <- Hm2 in Hd. revert Hd. run_handlers. rewrite Hc.
    case_flags; intros; try discriminate;
      repeat apply is_Some_insert; assumption.
  - run_handlers. rewrite Hc. exact H.
Qed.

(** A DELETE that the SDK accepts, on a live session. *)
Lemma mcp_delete_store (env : Env) (o : Outside) (now : Z)
    (req req2 : Request) (sid : string) (e : TransportWithTimestamp)
    (w : World) :
  method req = DELETE -> termination_accepted o = true ->
  credentials env req = Some req2 ->
  mcp_session_id req = Some sid -> sid <> EmptyString ->
  transports w !! sid = Some e ->
  kind (transport e) = StreamableHTTP ->
  sessionId (transport e) = Some sid ->
  store (Tracking.mcp env o now req) w = delete sid (transports w).
Proof.
  intros Hmeth Hacc Hc Hsid Hne He Hk Hown.
  destruct (credentials_keep _ _ _ Hc) as (_ & Hm2 & _).
  unfold store, after.
  rewrite (mcp_resume_run env o now req req2 sid e w Hc Hsid Hne He Hk).
  cbn [snd transports].
  unfold resume_store, handled_store, initialized_store, initializes,
    terminates, registered, touched, get.
  rewrite Hm2, Hmeth, Hacc, Hown. cbn [Tracking.is_delete andb Js.key].
  rewrite (truthy_nonempty _ Hne), lookup_insert_eq. cbn [andb].
  apply delete_insert_eq.
Qed.

End HandlersKeepSessions.

(** X10.  A request handler of the session-tracking server evicts a
    session in one case only: a DELETE to [/mcp] that the SDK accepts as
    the end of a session, where the transport closes itself and so runs
    its close callback inside the handler.  In every other case (another
    route, another method, a DELETE the SDK does not accept), whatever the
    request and the outcome of the SDK calls, every id present in the
    store before the handler runs is present after it.  In that case, a
    DELETE that passes the credential stage and names a live Streamable
    HTTP session under the id its transport carries leaves the store
    without that entry, and every other entry as it was. *)
Theorem handlers_evict_only_on_delete :
  (forall (env : Env) (o : Outside) (now : Z) (r : Tracking.Route)
          (req : Request) (w : World) (id : string),
      (r = Tracking.Mcp ->
       Tracking.is_delete (method req) && termination_accepted o = false) ->
      is_Some (transports w !! id) ->
      is_Some (store (Tracking.handle env o now r req) w !! id))
  /\ (forall (env : Env) (o : Outside) (now : Z) (req req1 req2 : Request)
             (sid : string) (e : TransportWithTimestamp) (w : World),
        method req = DELETE -> termination_accepted o = true ->
        authMiddleware req = Next req1 ->
        credentials env req1 = Some req2 ->
        mcp_session_id req = Some sid -> sid <> EmptyString ->
        transports w !! sid = Some e ->
        kind (transport e) = StreamableHTTP ->
        sessionId (transport e) = Some sid ->
        store (Tracking.handle env o now Tracking.Mcp req) w
        = delete sid (transports w)).
Proof.
  split.
  - intros env o now r req w id Hr H.
    destruct r; cbn [Tracking.handle]; unfold guarded.
    + destruct (authMiddleware req) as [req1|resp|] eqn:Hm;
        [|exact H|exact H].
      destruct (session_id_kept _ _ Hm) as (_ & Hm1 & _).
      apply mcp_keeps_entries; [|exact H].
      rewrite Hm1. now apply Hr.
    + exact H.
    + exact H.
    + run_handlers; case_flags; exact H.
    + exact H.
    + exact H.
    + run_handlers; case_flags; repeat apply is_Some_insert; exact H.
    + run_handlers; case_flags; repeat apply is_Some_insert; exact H.
  - intros env o now req req1 req2 sid e w Hmeth Hacc Hm Hc Hsid Hne He Hk
      Hown.
    cbn [Tracking.handle]. unfold guarded. rewrite Hm.
    destruct (session_id_kept _ _ Hm) as (Hs1 & Hm1 & _).
    apply (mcp_delete_store env o now req1 req2 sid e w); try assumption;
      congruence.
Qed.

(** [handlers_evict_only_on_delete] on [calm_sessions]: a POST to [/messages] keeps
    session ["a"], and so does a GET to [/mcp] that names it; a DELETE to
    [/mcp] that names it removes it. *)
Lemma handlers_evict_only_on_delete_witness :
  let get_a := incoming GET "/mcp" None (Some "a") in
  let delete_a := incoming DELETE "/mcp" None (Some "a") in
  is_Some (transports calm_sessions !! "a")
  /\ is_Some (store (Tracking.handle an_env quiet 70000 Tracking.Messages
                       (incoming POST "/messages" None None))
                calm_sessions !! "a")
  /\ is_Some (store (Tracking.handle an_env quiet 70000 Tracking.Mcp get_a)
                calm_sessions !! "a")
  /\ store (Tracking.handle an_env quiet 70000 Tracking.Mcp delete_a)
       calm_sessions
     = delete "a" (transports calm_sessions).
Proof.
  intros get_a delete_a.
  assert (H : is_Some (transports calm_sessions !! "a"))
    by (eexists; reflexivity).
  split; [exact H|]. split; [|split].
  - apply (proj1 handlers_evict_only_on_delete an_env quiet 70000 Tracking.Messages _
             calm_sessions "a"); [discriminate | exact H].
  - apply (proj1 handlers_evict_only_on_delete an_env quiet 70000 Tracking.Mcp get_a
             calm_sessions "a"); [reflexivity | exact H].
  - apply (proj2 handlers_evict_only_on_delete an_env quiet 70000 delete_a delete_a
             (with_credentials delete_a (Some "login") (Some "secret"))
             "a" (an_entry 1 StreamableHTTP "a" false 0) calm_sessions);
      try reflexivity; discriminate.
Defined.

(** ** HTTP+SSE endpoints *)

Section SseEndpoints.

Lemma sse_run (env : Env) (o : Outside) (now : Z) (req req2 : Request)
    (w : World) :
  credentials env req = Some req2 ->
  Tracking.sse env o now req w
  = (if getServer_raises o then Thrown "getServer"
     else if connect_raises o then Thrown "connect"
     else Returned Delegated,
     {| transports :=
          <[randomUUID o := {| transport := Tracking.new_sse_transport o;
                               lastActivity := now |}]> (transports w);
        trace := trace w
          ++ [ConsoleLog
                "Received GET request to /sse (deprecated SSE transport)";
              Listen "res" "close" (Tracking.new_sse_transport o);
              Listen "res" "error" (Tracking.new_sse_transport o);
              Listen "req" "error" (Tracking.new_sse_transport o);
              Listen "req.socket" "error" (Tracking.new_sse_transport o);
              Listen "req.socket" "timeout" (Tracking.new_sse_transport o);
              SocketSetTimeout CONNECTION_TIMEOUT;
              GetServer (username req2) (password req2)]
          ++ (if getServer_raises o then []
              else [ServerConnect (Tracking.new_sse_transport o)]) |}).
Proof.
  intros Hc. unfold Tracking.sse. rewrite run_bind. cbn [emit]. rewrite Hc.
  run_handlers. cbn.
  destruct (getServer_raises o); cbn; [now rewrite <- !app_assoc|].
  destruct (connect_raises o); cbn; now rewrite <- !app_assoc.
Qed.

Lemma messages_run (env : Env) (o : Outside) (now : Z) (req req2 : Request)
    (sid : string) (e : TransportWithTimestamp) (w : World) :
  credentials env req = Some req2 ->
  query_sessionId req = Some sid ->
  transports w !! sid = Some e ->
  kind (transport e) = SSE ->
  Tracking.messages env o now req w
  = (if handleRequest_raises o then Thrown "handlePostMessage"
     else Returned Delegated,
     {| transports :=
          <[sid := {| transport := transport e; lastActivity := now |}]>
            (transports w);
        trace := trace w ++ [HandlePostMessage (transport e) req2] |}).
Proof.
  intros Hc Hq He Hk. unfold Tracking.messages. rewrite Hc, Hq.
  rewrite run_bind. cbn [read_transports Js.key]. unfold get.
  rewrite He, Hk. run_handlers. cbn.
  now destruct (handleRequest_raises o).
Qed.

Lemma messages_unknown (env : Env) (o : Outside) (now : Z)
    (req req2 : Request) (w : World) :
  credentials env req = Some req2 ->
  get (transports w) (Js.key (query_sessionId req)) = Undefined ->
  Tracking.messages env o now req w
  = (Returned (Replied {| status := 400;
                          payload := Text "No transport found for sessionId" |}),
     w).
Proof.
  intros Hc Hg. unfold Tracking.messages. rewrite Hc. rewrite run_bind.
  cbn [read_transports]. now rewrite Hg.
Qed.

Lemma messages_other_protocol (env : Env) (o : Outside) (now : Z)
    (req req2 : Request) (sid : string) (e : TransportWithTimestamp)
    (w : World) :
  credentials env req = Some req2 ->
  query_sessionId req = Some sid ->
  transports w !! sid = Some e ->
  kind (transport e) = StreamableHTTP ->
  Tracking.messages env o now req w
  = (Returned (Replied {| status := 400;
                          payload := JsonRpcError (-32000)
        "Bad Request: Session exists but uses a different transport protocol" |}),
     w).
Proof.
  intros Hc Hq He Hk. unfold Tracking.messages. rewrite Hc, Hq.
  rewrite run_bind. cbn [read_transports Js.key]. unfold get.
  now rewrite He, Hk.
Qed.

End SseEndpoints.

(** X11.  [GET /sse] followed by [POST /messages]: once credentials are
    resolved, [GET /sse] registers a new SSE transport under the id its
    constructor drew and builds a server with the resolved pair; a later
    [POST /messages?sessionId=<that id>] is delivered to that transport
    with [handlePostMessage] and sets the entry's time to its own. *)
Theorem sse_then_messages (env env' : Env) (o o' : Outside) (now now' : Z)
    (req req2 msg msg2 : Request) (w : World) :
  credentials env req = Some req2 ->
  credentials env' msg = Some msg2 ->
  query_sessionId msg = Some (randomUUID o) ->
  let opened := after (Tracking.sse env o now req) w in
  In (GetServer (username req2) (password req2))
     (emitted (Tracking.sse env o now req) w)
  /\ transports opened !! randomUUID o
     = Some {| transport := Tracking.new_sse_transport o;
               lastActivity := now |}
  /\ emitted (Tracking.messages env' o' now' msg) opened
     = [HandlePostMessage (Tracking.new_sse_transport o) msg2]
  /\ store (Tracking.messages env' o' now' msg) opened !! randomUUID o
     = Some {| transport := Tracking.new_sse_transport o;
               lastActivity := now' |}.
Proof.
  intros Hc Hc' Hq opened.
  pose proof (sse_run env o now req req2 w Hc) as Hrun.
  assert (Hentry : transports opened !! randomUUID o
                   = Some {| transport := Tracking.new_sse_transport o;
                             lastActivity := now |}).
  { subst opened. unfold after. rewrite Hrun. cbn [snd transports].
    apply lookup_insert_eq. }
  pose proof (messages_run env' o' now' msg msg2 (randomUUID o) _ opened
                Hc' Hq Hentry eq_refl) as Hrun'.
  rewrite (emitted_app _ _ _ (f_equal (fun r => trace (snd r)) Hrun)).
  rewrite (emitted_app _ _ _ (f_equal (fun r => trace (snd r)) Hrun')).
  unfold store, after. rewrite Hrun'. cbn [snd transports transport].
  split; [cbn; tauto|]. split; [exact Hentry|]. split; [reflexivity|].
  apply lookup_insert_eq.
Qed.

(** [sse_then_messages] on [two_sessions] with environment credentials. *)
Lemma sse_then_messages_witness :
  let req := incoming GET "/sse" None None in
  let msg :=
    {| method := POST; path := "/messages"; authorization := None;
       mcp_session_id := None; query_sessionId := Some (randomUUID quiet);
       body := {| isInitializeRequest := false; tool := None;
                  content := "ping" |};
       username := None; password := None |} in
  let opened := after (Tracking.sse an_env quiet 70000 req) two_sessions in
  emitted (Tracking.messages an_env quiet 80000 msg) opened
  = [HandlePostMessage (Tracking.new_sse_transport quiet)
       (with_credentials msg (Some "login") (Some "secret"))]
  /\ lastActivity
       <$> store (Tracking.messages an_env quiet 80000 msg) opened
             !! randomUUID quiet
     = Some 80000.
Proof.
  intros req msg opened.
  destruct (sse_then_messages an_env an_env quiet quiet 70000 80000 req
              (with_credentials req (Some "login") (Some "secret")) msg
              (with_credentials msg (Some "login") (Some "secret"))
              two_sessions eq_refl eq_refl eq_refl) as (_ & _ & He & Hs).
  split; [exact He|]. subst opened. now rewrite Hs.
Defined.

(** X12.  [GET /sse] registers the session before it builds the server and
    has no catch block: when [getServer] or [connect] raises, the
    exception leaves the handler and the new entry stays in the store. *)
Theorem sse_failure_leaves_entry (env : Env) (o : Outside) (now : Z)
    (req req2 : Request) (w : World) :
  credentials env req = Some req2 ->
  getServer_raises o = true \/ connect_raises o = true ->
  (exists err, result (Tracking.sse env o now req) w = Thrown err)
  /\ store (Tracking.sse env o now req) w !! randomUUID o
     = Some {| transport := Tracking.new_sse_transport o;
               lastActivity := now |}.
Proof.
  intros Hc Hfail. unfold result, store, after.
  rewrite (sse_run env o now req req2 w Hc). cbn [fst snd transports].
  split; [|apply lookup_insert_eq].
  destruct (getServer_raises o); [eauto|].
  destruct Hfail as [Hf | ->]; [discriminate | eauto].
Qed.

(** [sse_failure_leaves_entry] when [connect] raises. *)
Lemma sse_failure_leaves_entry_witness :
  let failing :=
    {| getServer_raises := false; connect_raises := true;
       handleRequest_raises := false; headersSent := false;
       new_transport_id := 7; new_transport_close_raises := false;
       randomUUID := "id"; initialization_accepted := true;
       termination_accepted := true;
       makeRequest := ApiOk |} in
  (exists err,
      result (Tracking.sse an_env failing 70000 (incoming GET "/sse" None None))
        two_sessions = Thrown err)
  /\ store (Tracking.sse an_env failing 70000 (incoming GET "/sse" None None))
       two_sessions !! "id"
     = Some {| transport := Tracking.new_sse_transport failing;
               lastActivity := 70000 |}.
Proof.
  intros failing.
  apply (sse_failure_leaves_entry an_env failing 70000
           (incoming GET "/sse" None None)
           (with_credentials (incoming GET "/sse" None None)
              (Some "login") (Some "secret")) two_sessions);
    [reflexivity | right; reflexivity].
Defined.

(** X13.  [POST /messages] with resolved credentials answers 400 and
    changes nothing, neither store nor trace, in two cases: with the text
    "No transport found for sessionId" when [transports[sessionId]] is
    undefined, and with JSON-RPC code -32000 when the id names a
    Streamable HTTP session. *)
Theorem messages_rejections (env : Env) (o : Outside) (now : Z)
    (req req2 : Request) (w : World) :
  credentials env req = Some req2 ->
  (get (transports w) (Js.key (query_sessionId req)) = Undefined ->
   Tracking.messages env o now req w
   = (Returned (Replied {| status := 400;
                           payload := Text "No transport found for sessionId" |}),
      w))
  /\ (forall sid e,
        query_sessionId req = Some sid ->
        transports w !! sid = Some e ->
        kind (transport e) = StreamableHTTP ->
        Tracking.messages env o now req w
        = (Returned (Replied {| status := 400;
                                payload := JsonRpcError (-32000)
          "Bad Request: Session exists but uses a different transport protocol" |}),
           w)).
Proof.
  intros Hc. split.
  - apply messages_unknown with req2. exact Hc.
  - intros sid e. apply messages_other_protocol with req2. exact Hc.
Qed.

(** [messages_rejections] on [two_sessions]: an unknown id, and the
    Streamable HTTP session ["a"]. *)
Lemma messages_rejections_witness :
  let msg sid :=
    {| method := POST; path := "/messages"; authorization := None;
       mcp_session_id := None; query_sessionId := Some sid;
       body := {| isInitializeRequest := false; tool := None;
                  content := "ping" |};
       username := Some "u"; password := Some "p" |} in
  result (Tracking.messages no_env quiet 70000 (msg "nope")) two_sessions
  = Returned (Replied {| status := 400;
                         payload := Text "No transport found for sessionId" |})
  /\ result (Tracking.messages no_env quiet 70000 (msg "a")) two_sessions
     = Returned (Replied {| status := 400;
                            payload := JsonRpcError (-32000)
          "Bad Request: Session exists but uses a different transport protocol" |}).
Proof.
  intros msg. unfold result. split.
  - rewrite (proj1 (messages_rejections no_env quiet 70000 (msg "nope")
                      (msg "nope") two_sessions eq_refl) eq_refl).
    reflexivity.
  - rewrite (proj2 (messages_rejections no_env quiet 70000 (msg "a")
                      (msg "a") two_sessions eq_refl)
               "a" (an_entry 1 StreamableHTTP "a" true 0)
               eq_refl eq_refl eq_refl).
    reflexivity.
Defined.

(** ** Close callbacks *)

(** X14.  The close callback of a Streamable HTTP transport, called for a
    registered session: it does not throw, it calls [close()] on the
    transport, and it removes the entry, and no other, whether or not
    [close()] raises.  Called again after it has returned, it finds no
    entry and does nothing at all (no [close()], no log, same store). *)
Theorem streamable_cleanup_evicts (t : Transport) (sid : string) (w : World) :
  sessionId t = Some sid -> sid <> EmptyString ->
  Js.inherited sid = false ->
  is_Some (transports w !! sid) ->
  result (Tracking.cleanup t) w = Returned tt
  /\ In t (closes (emitted (Tracking.cleanup t) w))
  /\ store (Tracking.cleanup t) w = delete sid (transports w)
  /\ Tracking.cleanup t (after (Tracking.cleanup t) w)
     = (Returned tt, after (Tracking.cleanup t) w).
Proof.
  intros Hsid Hne Hproto Hin.
  pose proof (cleanup_run t sid w Hsid Hne Hin) as Hrun.
  split; [unfold result; now rewrite Hrun|]. split.
  - rewrite (emitted_app _ _ _ (f_equal (fun r => trace (snd r)) Hrun)).
    destruct (close_raises t); left; reflexivity.
  - split; [unfold store, after; now rewrite Hrun|].
    exact (cleanup_twice t sid w Hsid Hne Hproto Hin).
Qed.

(** [streamable_cleanup_evicts] for session ["a"] of [two_sessions], whose
    [close()] raises. *)
Lemma streamable_cleanup_evicts_witness :
  let t := a_transport 1 StreamableHTTP "a" true in
  In t (closes (emitted (Tracking.cleanup t) two_sessions))
  /\ store (Tracking.cleanup t) two_sessions !! "a" = None
  /\ Tracking.cleanup t (after (Tracking.cleanup t) two_sessions)
     = (Returned tt, after (Tracking.cleanup t) two_sessions).
Proof.
  intros t.
  assert (Hin : is_Some (transports two_sessions !! "a"))
    by (eexists; reflexivity).
  assert (Hne : "a" <> EmptyString) by discriminate.
  destruct (streamable_cleanup_evicts t "a" two_sessions eq_refl Hne eq_refl
              Hin)
    as (_ & Hc & Hs & Hagain).
  split; [exact Hc|]. split; [|exact Hagain].
  rewrite Hs. apply lookup_delete_eq.
Defined.

(** X15.  The same callback does nothing, and in particular does not call
    [close()], when the transport has no session id yet (it was never
    initialized) or when [transports] has nothing under its id. *)
Theorem streamable_cleanup_noop (t : Transport) (w : World) :
  sessionId t = None
  \/ get (transports w) (Js.key (sessionId t)) = Undefined ->
  Tracking.cleanup t w = (Returned tt, w).
Proof.
  intros [Hn | Hu].
  - unfold Tracking.cleanup. rewrite Hn. reflexivity.
  - exact (cleanup_absent t w Hu).
Qed.

(** [streamable_cleanup_noop] for a transport that was never
    initialized. *)
Lemma streamable_cleanup_noop_witness :
  Tracking.cleanup (Stateless.new_transport quiet) two_sessions
  = (Returned tt, two_sessions).
Proof.
  apply (streamable_cleanup_noop (Stateless.new_transport quiet) two_sessions).
  left. reflexivity.
Defined.

(** X16.  The close callback of an SSE transport never throws: it calls
    [close()], logs the error when [close()] raises, and in either case
    removes the entry under the transport's id and no other entry. *)
Theorem sse_cleanup_completes (t : Transport) (w : World) :
  result (Tracking.cleanup_sse t) w = Returned tt
  /\ store (Tracking.cleanup_sse t) w
     = delete (Js.key (sessionId t)) (transports w)
  /\ emitted (Tracking.cleanup_sse t) w
     = TransportClose t
       :: (if close_raises t
           then [ConsoleError
                   (Tracking.closing_error (Js.key (sessionId t)))]
           else []).
Proof.
  pose proof (cleanup_sse_run t w) as Hrun.
  rewrite (emitted_app _ _ _ (f_equal (fun r => trace (snd r)) Hrun)).
  unfold result, store, after. rewrite Hrun. auto.
Qed.

(** ** Reaper, over time *)

Section ReaperOverTime.
Variables timeout : Z.

Lemma sweep_nothing (now : Z) entries (w : World) :
  List.Forall (fun p => stale timeout now (snd p) = false) entries ->
  Tracking.sweep timeout now entries w = (Returned tt, w).
Proof.
  unfold Tracking.sweep. induction 1 as [|[sid e] entries He _ IH];
    [reflexivity|].
  cbn [forEach]. rewrite run_bind, reap_run. cbn [snd] in He.
  now rewrite He.
Qed.

Lemma stale_later (now now' : Z) (e : TransportWithTimestamp) :
  now <= now' -> stale timeout now e = true -> stale timeout now' e = true.
Proof.
  unfold stale. rewrite !bool_decide_eq_true. lia.
Qed.

End ReaperOverTime.

(** X17.  Sweeping is idempotent: a second sweep at the same time, over
    what the first one left, evicts nothing, closes nothing and logs
    nothing. *)
Theorem sweep_twice (timeout now : Z) (w : World)
    (entries entries' : list (string * TransportWithTimestamp)) :
  entries ≡ₚ map_to_list (transports w) ->
  entries' ≡ₚ map_to_list (store (Tracking.sweep timeout now entries) w) ->
  Tracking.sweep timeout now entries'
    (after (Tracking.sweep timeout now entries) w)
  = (Returned tt, after (Tracking.sweep timeout now entries) w).
Proof.
  intros Hperm Hperm'. apply sweep_nothing.
  apply List.Forall_forall. intros [i e] Hin.
  apply list_elem_of_In in Hin. rewrite Hperm' in Hin.
  apply elem_of_map_to_list in Hin.
  rewrite (sweep_store _ _ _ _ Hperm) in Hin.
  apply map_lookup_filter_Some in Hin as [_ Hin]. exact Hin.
Qed.

(** [sweep_twice] on [two_sessions] at 60000. *)
Lemma sweep_twice_witness :
  let first :=
    Tracking.sweep CONNECTION_TIMEOUT 60000
      (map_to_list (transports two_sessions)) in
  Tracking.sweep CONNECTION_TIMEOUT 60000
    (map_to_list (store first two_sessions)) (after first two_sessions)
  = (Returned tt, after first two_sessions).
Proof.
  intros first.
  apply (sweep_twice CONNECTION_TIMEOUT 60000 two_sessions
           (map_to_list (transports two_sessions))
           (map_to_list (store first two_sessions)));
    reflexivity.
Defined.

(** X18.  A sweep only removes entries, and a later sweep removes at least
    what an earlier one would: the store left by a sweep at [now'] is
    contained in the store left by a sweep at [now <= now'], which is
    contained in the store swept. *)
Theorem sweep_monotone (timeout now now' : Z) (w : World)
    (entries : list (string * TransportWithTimestamp)) :
  entries ≡ₚ map_to_list (transports w) ->
  now <= now' ->
  store (Tracking.sweep timeout now' entries) w
    ⊆ store (Tracking.sweep timeout now entries) w
  /\ store (Tracking.sweep timeout now entries) w ⊆ transports w.
Proof.
  intros Hperm Hle. rewrite !(sweep_store _ _ _ _ Hperm). split.
  - apply map_subseteq_spec. intros i e H.
    apply map_lookup_filter_Some in H as [Hi Hs].
    apply map_lookup_filter_Some. split; [exact Hi|]. cbn in *.
    destruct (stale timeout now e) eqn:He; [|reflexivity].
    now rewrite (stale_later timeout now now' e Hle He) in Hs.
  - apply map_filter_subseteq.
Qed.

(** [sweep_monotone] on [two_sessions] at 60000 and 90000. *)
Lemma sweep_monotone_witness :
  let entries := map_to_list (transports two_sessions) in
  store (Tracking.sweep CONNECTION_TIMEOUT 90000 entries) two_sessions
    ⊆ store (Tracking.sweep CONNECTION_TIMEOUT 60000 entries) two_sessions
  /\ store (Tracking.sweep CONNECTION_TIMEOUT 60000 entries) two_sessions
       ⊆ transports two_sessions.
Proof.
  intros entries.
  apply (sweep_monotone CONNECTION_TIMEOUT 60000 90000 two_sessions entries);
    [reflexivity | lia].
Defined.

(** X19.  Activity keeps a session alive: after a request to [/mcp] was
    resumed on a session at time [now], and unless it was a DELETE that
    the SDK accepted as the end of the session, every reaper run up to
    [now + CONNECTION_TIMEOUT] leaves that session in the store, with
    [now] as its last activity. *)
Theorem resumed_session_survives (env : Env) (o : Outside) (now later : Z)
    (req req2 : Request) (sid : string) (e : TransportWithTimestamp)
    (w : World) :
  credentials env req = Some req2 ->
  mcp_session_id req = Some sid -> sid <> EmptyString ->
  transports w !! sid = Some e ->
  kind (transport e) = StreamableHTTP ->
  Tracking.is_delete (method req) && termination_accepted o = false ->
  later - now <= CONNECTION_TIMEOUT ->
  lastActivity
    <$> store (Tracking.cleanupStaleConnections later)
          (after (Tracking.mcp env o now req) w) !! sid
  = Some now.
Proof.
  intros Hc Hsid Hne He Hk Hkeep Hlate.
  pose proof (mcp_resume_run env o now req req2 sid e w Hc Hsid Hne He Hk)
    as Hrun.
  destruct (credentials_keep _ _ _ Hc) as (_ & Hm2 & _).
  assert (Hentry : exists t,
             transports (after (Tracking.mcp env o now req) w) !! sid
             = Some {| transport := t; lastActivity := now |}).
  { unfold after. rewrite Hrun. cbn [snd transports].
    unfold resume_store, handled_store, terminates. rewrite Hm2, Hkeep.
    cbn [andb]. unfold initialized_store, touched.
    destruct (initializes o (transport e) (body req2)).
    - destruct (decide (randomUUID o = sid)) as [->|Hne'].
      + rewrite lookup_insert_eq. eauto.
      + rewrite lookup_insert_ne, lookup_insert_eq by done. eauto.
    - rewrite lookup_insert_eq. eauto. }
  destruct Hentry as [t Ht].
  rewrite cleanupStaleConnections_store, map_lookup_filter, Ht. cbn.
  rewrite option_guard_True; [reflexivity|].
  unfold stale. cbn. rewrite bool_decide_eq_false. lia.
Qed.

(** [resumed_session_survives]: session ["a"] of [two_sessions], idle
    since 0, resumed by a POST at 70000 and swept at 100000. *)
Lemma resumed_session_survives_witness :
  let req := with_credentials (incoming POST "/mcp" None (Some "a"))
               (Some "u") (Some "p") in
  Tracking.is_delete (method req) && termination_accepted quiet = false
  /\ lastActivity
       <$> store (Tracking.cleanupStaleConnections 100000)
             (after (Tracking.mcp no_env quiet 70000 req) two_sessions) !! "a"
     = Some 70000.
Proof.
  intros req.
  assert (Hne : "a" <> EmptyString) by discriminate.
  split; [reflexivity|].
  apply (resumed_session_survives no_env quiet 70000 100000 req req "a"
           (an_entry 1 StreamableHTTP "a" true 0) two_sessions);
    first [ exact Hne | reflexivity | unfold CONNECTION_TIMEOUT; lia ].
Defined.

(** ** Shutdown *)

Section Shutdown.

Lemma survives_cons_other (k i : string) (keys : list string)
    (e : TransportWithTimestamp) :
  i <> k -> survives_shutdown (k :: keys) i e = survives_shutdown keys i e.
Proof.
  intros Hne. unfold survives_shutdown. f_equal. f_equal.
  apply bool_decide_ext. rewrite elem_of_cons.
  split; [intros [->|H]; [contradiction | exact H] | auto].
Qed.

Lemma survives_cons_same (k : string) (keys : list string)
    (e : TransportWithTimestamp) :
  survives_shutdown (k :: keys) k e = close_raises (transport e).
Proof.
  unfold survives_shutdown.
  rewrite bool_decide_eq_true_2 by apply list_elem_of_here. reflexivity.
Qed.

Lemma shutdown_loop (keys : list string) (w : World) :
  fst (forEach Tracking.shutdown_one keys w) = Returned tt
  /\ forall i,
       transports (snd (forEach Tracking.shutdown_one keys w)) !! i
       = match transports w !! i with
         | Some e => if survives_shutdown keys i e then Some e else None
         | None => None
         end.
Proof.
  revert w. induction keys as [|k keys IH]; intros w.
  - split; [reflexivity|]. intros i. cbn. now destruct (transports w !! i).
  - cbn [forEach]. rewrite run_bind.
    destruct (transports w !! k) as [ek|] eqn:Hk.
    + rewrite (shutdown_one_run k ek w Hk).
      destruct (IH {| transports :=
                        if close_raises (transport ek) then transports w
                        else delete k (transports w);
                      trace := trace w
                        ++ [ConsoleLog ("Closing transport for session " +:+ k);
                            TransportClose (transport ek)]
                        ++ (if close_raises (transport ek)
                            then [ConsoleError (Tracking.closing_error k)]
                            else []) |}) as [Hr Hl].
      split; [exact Hr|]. intros i. rewrite Hl. cbn [transports].
      destruct (decide (i = k)) as [->|Hne].
      * rewrite Hk, survives_cons_same.
        destruct (close_raises (transport ek)) eqn:Hraise.
        -- rewrite Hk. unfold survives_shutdown. rewrite Hraise.
           now rewrite orb_true_r.
        -- now rewrite lookup_delete_eq.
      * replace ((if close_raises (transport ek) then transports w
                  else delete k (transports w)) !! i)
          with (transports w !! i)
          by (destruct (close_raises (transport ek));
              [reflexivity | now rewrite lookup_delete_ne]).
        destruct (transports w !! i) as [e|]; [|reflexivity].
        now rewrite (survives_cons_other k i keys e Hne).
    + assert (Hskip : Tracking.shutdown_one k w = (Returned tt, w)).
      { unfold Tracking.shutdown_one. rewrite run_bind.
        cbn [read_transports]. now rewrite Hk. }
      rewrite Hskip. destruct (IH w) as [Hr Hl].
      split; [exact Hr|]. intros i. rewrite Hl.
      destruct (transports w !! i) as [e|] eqn:Hi; [|reflexivity].
      assert (Hne : i <> k) by congruence.
      now rewrite (survives_cons_other k i keys e Hne).
Qed.

Lemma shutdown_loop_trace (keys : list string) (w : World) :
  exists middle,
    trace (snd (forEach Tracking.shutdown_one keys w)) = trace w ++ middle
    /\ forall k e,
         k ∈ keys -> transports w !! k = Some e ->
         In (transport e) (closes middle).
Proof.
  revert w. induction keys as [|k keys IH]; intros w.
  - exists []. split; [cbn; now rewrite app_nil_r|].
    intros k e Hin. now apply elem_of_nil in Hin.
  - cbn [forEach]. rewrite run_bind.
    destruct (transports w !! k) as [ek|] eqn:Hk.
    + rewrite (shutdown_one_run k ek w Hk).
      match goal with
      | |- context [forEach _ keys ?w1] => destruct (IH w1) as (m & Ht & Hc)
      end.
      cbn [trace transports] in Ht, Hc.
      exists (([ConsoleLog ("Closing transport for session " +:+ k);
                TransportClose (transport ek)]
               ++ (if close_raises (transport ek)
                   then [ConsoleError (Tracking.closing_error k)]
                   else [])) ++ m).
      split; [rewrite Ht; now rewrite <- !app_assoc|].
      intros k' e Hin He. rewrite !closes_app. apply in_or_app.
      destruct (decide (k' = k)) as [->|Hne].
      * left. apply in_or_app. left.
        rewrite Hk in He. injection He as <-. left. reflexivity.
      * right. apply (Hc k' e).
        -- apply elem_of_cons in Hin as [Heq|Hin];
             [contradiction | exact Hin].
        -- destruct (close_raises (transport ek)); [exact He|].
           now rewrite lookup_delete_ne.
    + assert (Hskip : Tracking.shutdown_one k w = (Returned tt, w)).
      { unfold Tracking.shutdown_one. rewrite run_bind.
        cbn [read_transports]. now rewrite Hk. }
      rewrite Hskip. destruct (IH w) as (m & Ht & Hc).
      exists m. split; [exact Ht|].
      intros k' e Hin He. apply (Hc k' e); [|exact He].
      apply elem_of_cons in Hin as [->|Hin]; [congruence | exact Hin].
Qed.

Lemma on_SIGINT_run (keys : list string) (w : World) :
  Tracking.on_SIGINT keys w
  = (Returned tt,
     let looped :=
       snd (forEach Tracking.shutdown_one keys
              {| transports := transports w;
                 trace := trace w
                   ++ [ConsoleLog "Shutting down server..."; ClearInterval;
                       HttpServerClose] |}) in
     {| transports := transports looped;
        trace := trace looped
          ++ [ConsoleLog "Server shutdown complete"; ProcessExit 0] |}).
Proof.
  unfold Tracking.on_SIGINT, emit, mbind, M_bind. cbn.
  rewrite <- !app_assoc. cbn [app].
  match goal with
  | |- context [forEach _ keys ?w0] =>
      pose proof (proj1 (shutdown_loop keys w0)) as Hr;
      destruct (forEach Tracking.shutdown_one keys w0) as [r wl]
  end.
  cbn in Hr. subst r. cbn. now rewrite <- app_assoc.
Qed.

End Shutdown.

(** X20.  The shutdown handler never throws, and what it leaves in the
    store is exactly the entries it did not visit and the entries whose
    transport's [close()] raised.  So when the loop visits every id and no
    [close()] raises, the store ends empty. *)
Theorem shutdown_store (keys : list string) (w : World) :
  result (Tracking.on_SIGINT keys) w = Returned tt
  /\ (forall i,
        store (Tracking.on_SIGINT keys) w !! i
        = match transports w !! i with
          | Some e =>
              if negb (bool_decide (i ∈ keys)) || close_raises (transport e)
              then Some e else None
          | None => None
          end)
  /\ ((forall i e, transports w !! i = Some e ->
                   i ∈ keys /\ close_raises (transport e) = false) ->
      store (Tracking.on_SIGINT keys) w = ∅).
Proof.
  assert (Hlookup : forall i,
             store (Tracking.on_SIGINT keys) w !! i
             = match transports w !! i with
               | Some e => if survives_shutdown keys i e then Some e else None
               | None => None
               end).
  { intros i. unfold store, after. rewrite on_SIGINT_run. cbn [snd transports].
    now rewrite (proj2 (shutdown_loop keys _) i). }
  split; [unfold result; now rewrite on_SIGINT_run|].
  split; [exact Hlookup|].
  intros Hall. apply map_empty. intros i. rewrite Hlookup.
  destruct (transports w !! i) as [e|] eqn:Hi; [|reflexivity].
  destruct (Hall i e Hi) as [Hin Hraise]. unfold survives_shutdown.
  now rewrite Hraise, bool_decide_eq_true_2.
Qed.

(** [shutdown_store] on [calm_sessions], all keys visited. *)
Lemma shutdown_store_witness :
  store (Tracking.on_SIGINT ["a"; "b"]) calm_sessions = ∅.
Proof.
  apply (proj2 (proj2 (shutdown_store ["a"; "b"] calm_sessions))).
  intros i e Hi.
  destruct (decide (i = "a")) as [->|Ha].
  - injection Hi as <-. split; [apply list_elem_of_here | reflexivity].
  - destruct (decide (i = "b")) as [->|Hb].
    + injection Hi as <-.
      split; [apply list_elem_of_further, list_elem_of_here | reflexivity].
    + unfold calm_sessions in Hi. cbn [transports] in Hi.
      rewrite !lookup_insert_ne, lookup_empty in Hi by done. discriminate.
Defined.

(** X21.  Order of shutdown: the reaper's timer is cleared and the HTTP
    server is closed before any transport is closed, and the process exit
    comes last, after the transport of every visited id that is in the
    store has been closed, whether or not an earlier [close()] raised. *)
Theorem shutdown_order (keys : list string) (w : World) :
  exists middle,
    emitted (Tracking.on_SIGINT keys) w
    = [ConsoleLog "Shutting down server..."; ClearInterval; HttpServerClose]
      ++ middle
      ++ [ConsoleLog "Server shutdown complete"; ProcessExit 0]
    /\ (forall k e,
          k ∈ keys -> transports w !! k = Some e ->
          In (transport e) (closes middle)).
Proof.
  destruct (shutdown_loop_trace keys
              {| transports := transports w;
                 trace := trace w
                   ++ [ConsoleLog "Shutting down server..."; ClearInterval;
                       HttpServerClose] |}) as (middle & Ht & Hc).
  exists middle. split; [|exact Hc].
  apply emitted_app. unfold after. rewrite on_SIGINT_run. cbn [snd trace].
  rewrite Ht. cbn [trace]. now rewrite <- !app_assoc.
Qed.

(** [shutdown_order] on [two_sessions]: the transport of ["b"] is closed
    between the closing of the HTTP server and the exit, although the
    [close()] of ["a"], visited first, raises. *)
Lemma shutdown_order_witness :
  exists middle,
    emitted (Tracking.on_SIGINT ["a"; "b"]) two_sessions
    = [ConsoleLog "Shutting down server..."; ClearInterval; HttpServerClose]
      ++ middle
      ++ [ConsoleLog "Server shutdown complete"; ProcessExit 0]
    /\ In (a_transport 1 StreamableHTTP "a" true) (closes middle)
    /\ In (a_transport 2 SSE "b" false) (closes middle).
Proof.
  destruct (shutdown_order ["a"; "b"] two_sessions) as (middle & He & Hc).
  exists middle. split; [exact He|]. split.
  - apply (Hc "a" (an_entry 1 StreamableHTTP "a" true 0));
      [apply list_elem_of_here | reflexivity].
  - apply (Hc "b" (an_entry 2 SSE "b" false 50000));
      [apply list_elem_of_further, list_elem_of_here | reflexivity].
Defined.

(** ** The stateless server, and escaping exceptions *)

Section StatelessServer.

(** A stateless handler returns, except where [close()] raises after
    the response of [/tools] or [/tool] was sent. *)
Lemma stateless_handle_total (env : Env) (o : Outside) (r : Stateless.Route)
    (req : Request) (w : World) :
  store (Stateless.handle env o r req) w = transports w
  /\ ((exists out, result (Stateless.handle env o r req) w = Returned out)
      \/ (result (Stateless.handle env o r req) w
           = Thrown "ERR_HTTP_HEADERS_SENT"
          /\ (r = Stateless.Tools \/ r = Stateless.Tool)
          /\ new_transport_close_raises o = true
          /\ getServer_raises o = false /\ connect_raises o = false)).
Proof.
  destruct r; cbn [Stateless.handle];
    unfold Stateless.guarded_logged, guarded;
    try (destruct (authMiddleware req) as [r1|resp|] eqn:Hm;
         [ | | exfalso; exact (middleware_does_not_raise req Hm)]);
    run_handlers; case_flags;
    (split; [reflexivity|]);
    first [ left; eexists; reflexivity | right; auto 10 ].
Qed.

(** [/tools] when [close()] raises: the response was sent, the catch
    block logs and its own answer throws. *)
Lemma tools_close_raises (env : Env) (o : Outside) (req req2 : Request)
    (w : World) :
  credentials env req = Some req2 ->
  getServer_raises o = false -> connect_raises o = false ->
  new_transport_close_raises o = true ->
  Stateless.tools env o req w
  = (Thrown "ERR_HTTP_HEADERS_SENT",
     {| transports := transports w;
        trace := trace w
          ++ [GetServer (username req2) (password req2);
              ServerConnect (Stateless.new_transport o);
              TransportClose (Stateless.new_transport o);
              ConsoleError "Error listing tools:"] |}).
Proof.
  intros Hc Hg Hcn Hcl. run_handlers. rewrite Hc. cbn.
  rewrite Hg. cbn. rewrite Hcn. cbn. rewrite Hcl. cbn.
  now rewrite <- !app_assoc.
Qed.

Lemma tracking_handle_total (env : Env) (o : Outside) (now : Z)
    (r : Tracking.Route) (req : Request) (w : World) :
  r <> Tracking.Sse -> r <> Tracking.Messages ->
  exists out, result (Tracking.handle env o now r req) w = Returned out.
Proof.
  intros Hs Hm. destruct r; try contradiction; cbn [Tracking.handle];
    unfold guarded;
    try (destruct (authMiddleware req) as [r1|resp|] eqn:Hmw;
         [ | | exfalso; exact (middleware_does_not_raise req Hmw)]);
    run_handlers; case_flags; eauto.
Qed.

Lemma mcp_post_run (env : Env) (o : Outside) (req req2 : Request)
    (w : World) :
  credentials env req = Some req2 ->
  getServer_raises o = false -> connect_raises o = false ->
  handleRequest_raises o = false ->
  Stateless.mcp_post env o req w
  = (Returned Delegated,
     {| transports := transports w;
        trace := trace w
          ++ [GetServer (username req2) (password req2);
              ServerConnect (Stateless.new_transport o);
              ConsoleError "handle request";
              HandleRequest (Stateless.new_transport o) req2;
              ConsoleError "end handle request";
              Listen "req" "close" (Stateless.new_transport o)] |}).
Proof.
  intros Hc Hg Hcn Hh. run_handlers. rewrite Hc. cbn.
  rewrite Hg. cbn. rewrite Hcn. cbn. rewrite Hh. cbn.
  now rewrite <- !app_assoc.
Qed.

Lemma mcp_post_fails (env : Env) (o : Outside) (req req2 : Request)
    (w : World) :
  credentials env req = Some req2 ->
  getServer_raises o = true \/ connect_raises o = true
  \/ handleRequest_raises o = true ->
  result (Stateless.mcp_post env o req) w
  = Returned (if headersSent o then Delegated
              else Replied {| status := 500;
                              payload := JsonRpcError (-32603)
                                           "Internal server error" |}).
Proof.
  intros Hc Hfail. run_handlers. rewrite Hc. cbn.
  destruct (getServer_raises o); cbn; [now destruct (headersSent o)|].
  destruct (connect_raises o); cbn; [now destruct (headersSent o)|].
  destruct (handleRequest_raises o); cbn; [now destruct (headersSent o)|].
  destruct Hfail as [? | [? | ?]]; discriminate.
Qed.

End StatelessServer.

(** X22.  The stateless server has no session state: every request, on
    every route, leaves [transports] as it was, whatever the SDK calls
    do.  Its handlers let one exception escape: in [/tools] and [/tool],
    when [close()] raises after [res.json] has sent the response, the
    catch block logs the error and its own [res.status(500).json()]
    throws; every other request ends in a normal return, and with
    resolved credentials and a server that is built and connected, a
    [GET /tools] whose [close()] raises does end in that exception.  In
    the session-tracking server every route except [/sse] and
    [/messages], which have no catch block, ends in a normal return. *)
Theorem handlers_escaping_exceptions (env : Env) (o : Outside) (now : Z)
    (req : Request) (w : World) :
  store (Stateless.serve env o req) w = transports w
  /\ ((exists out, result (Stateless.serve env o req) w = Returned out)
      \/ (result (Stateless.serve env o req) w
           = Thrown "ERR_HTTP_HEADERS_SENT"
          /\ (Stateless.route (method req) (path req) = Some Stateless.Tools
              \/ Stateless.route (method req) (path req)
                 = Some Stateless.Tool)
          /\ new_transport_close_raises o = true
          /\ getServer_raises o = false /\ connect_raises o = false))
  /\ (forall req2,
        credentials env req = Some req2 ->
        getServer_raises o = false -> connect_raises o = false ->
        new_transport_close_raises o = true ->
        result (Stateless.tools env o req) w = Thrown "ERR_HTTP_HEADERS_SENT"
        /\ emitted (Stateless.tools env o req) w
           = [GetServer (username req2) (password req2);
              ServerConnect (Stateless.new_transport o);
              TransportClose (Stateless.new_transport o);
              ConsoleError "Error listing tools:"])
  /\ (forall r, r <> Tracking.Sse -> r <> Tracking.Messages ->
        exists out, result (Tracking.handle env o now r req) w = Returned out).
Proof.
  assert (Hserve :
    store (Stateless.serve env o req) w = transports w
    /\ ((exists out, result (Stateless.serve env o req) w = Returned out)
        \/ (result (Stateless.serve env o req) w
             = Thrown "ERR_HTTP_HEADERS_SENT"
            /\ (Stateless.route (method req) (path req) = Some Stateless.Tools
                \/ Stateless.route (method req) (path req)
                   = Some Stateless.Tool)
            /\ new_transport_close_raises o = true
            /\ getServer_raises o = false /\ connect_raises o = false))).
  { unfold Stateless.serve.
    destruct (Stateless.route (method req) (path req)) as [r|].
    - destruct (stateless_handle_total env o r req w)
        as (Hs & [Hr | (Ht & Hroute & Hrest)]).
      + split; [exact Hs|]. left. exact Hr.
      + split; [exact Hs|]. right. split; [exact Ht|]. split; [|exact Hrest].
        destruct Hroute as [-> | ->]; auto.
    - split; [reflexivity|]. left. eexists. reflexivity. }
  destruct Hserve as (Hs & Hr).
  split; [exact Hs|]. split; [exact Hr|]. split.
  - intros req2 Hc Hg Hcn Hcl.
    pose proof (tools_close_raises env o req req2 w Hc Hg Hcn Hcl) as Hrun.
    rewrite (emitted_app _ _ _ (f_equal (fun r => trace (snd r)) Hrun)).
    unfold result. now rewrite Hrun.
  - intros r. apply tracking_handle_total.
Qed.

(** [handlers_escaping_exceptions] when every SDK call raises: [/mcp] of
    the session-tracking server still returns; and [/tools] of the
    stateless server when only [close()] raises: the exception
    escapes. *)
Lemma handlers_escaping_exceptions_witness :
  let hostile :=
    {| getServer_raises := true; connect_raises := true;
       handleRequest_raises := true; headersSent := false;
       new_transport_id := 7; new_transport_close_raises := true;
       randomUUID := "id"; initialization_accepted := true;
       termination_accepted := true;
       makeRequest := ApiFailed "down" |} in
  let closing :=
    {| getServer_raises := false; connect_raises := false;
       handleRequest_raises := false; headersSent := false;
       new_transport_id := 7; new_transport_close_raises := true;
       randomUUID := "id"; initialization_accepted := true;
       termination_accepted := true;
       makeRequest := ApiOk |} in
  let listing := with_credentials (incoming GET "/tools" None None)
                   (Some "u") (Some "p") in
  (exists out,
     result (Tracking.handle an_env hostile 70000 Tracking.Mcp
               (incoming POST "/mcp" None (Some "a"))) two_sessions
     = Returned out)
  /\ credentials no_env listing = Some listing
  /\ result (Stateless.tools no_env closing listing) two_sessions
     = Thrown "ERR_HTTP_HEADERS_SENT".
Proof.
  intros hostile closing listing. split; [|split].
  - apply (proj2 (proj2 (proj2
             (handlers_escaping_exceptions an_env hostile 70000
                (incoming POST "/mcp" None (Some "a")) two_sessions)))
             Tracking.Mcp); discriminate.
  - reflexivity.
  - apply (proj1 (proj2 (proj2
             (handlers_escaping_exceptions no_env closing 70000 listing
                two_sessions))) listing); reflexivity.
Defined.

(** X23.  In stateless mode every [POST /mcp] with resolved credentials
    gets a server of its own, built with exactly that pair and connected
    to a new transport without session id, which then handles the
    request; the handler ends by registering, on the [close] event of the
    request, the callback that closes both.  When [getServer], [connect] or [handleRequest] raises, the
    answer is 500 with code -32603 "Internal server error", unless the
    response headers were already sent. *)
Theorem stateless_request_gets_own_server (env : Env) (o : Outside)
    (req req2 : Request) (w : World) :
  credentials env req = Some req2 ->
  (getServer_raises o = false -> connect_raises o = false ->
   handleRequest_raises o = false ->
   result (Stateless.mcp_post env o req) w = Returned Delegated
   /\ emitted (Stateless.mcp_post env o req) w
      = [GetServer (username req2) (password req2);
         ServerConnect (Stateless.new_transport o);
         ConsoleError "handle request";
         HandleRequest (Stateless.new_transport o) req2;
         ConsoleError "end handle request";
         Listen "req" "close" (Stateless.new_transport o)]
   /\ sessionId (Stateless.new_transport o) = None)
  /\ (getServer_raises o = true \/ connect_raises o = true
      \/ handleRequest_raises o = true ->
      result (Stateless.mcp_post env o req) w
      = Returned (if headersSent o then Delegated
                  else Replied {| status := 500;
                                  payload := JsonRpcError (-32603)
                                               "Internal server error" |})).
Proof.
  intros Hc. split.
  - intros Hg Hcn Hh.
    pose proof (mcp_post_run env o req req2 w Hc Hg Hcn Hh) as Hrun.
    rewrite (emitted_app _ _ _ (f_equal (fun r => trace (snd r)) Hrun)).
    unfold result. rewrite Hrun. auto.
  - apply mcp_post_fails with req2. exact Hc.
Qed.

(** [stateless_request_gets_own_server]: header credentials are used
    although the environment has its own pair. *)
Lemma stateless_request_gets_own_server_witness :
  let req := with_credentials (incoming POST "/mcp" None None)
               (Some "u") (Some "p") in
  credentials an_env req = Some req
  /\ In (GetServer (Some "u") (Some "p"))
        (emitted (Stateless.mcp_post an_env quiet req) two_sessions).
Proof.
  intros req.
  assert (Hc : credentials an_env req = Some req) by reflexivity.
  destruct (proj1 (stateless_request_gets_own_server an_env quiet req req
                     two_sessions Hc) eq_refl eq_refl eq_refl)
    as (_ & He & _).
  split; [exact Hc|]. rewrite He. left. reflexivity.
Defined.

(** X24.  [/validate-credentials] reports [valid: true] exactly when a
    credential pair was resolved and the API call made with it succeeded;
    the status is then 200 and the user name echoed is the resolved
    one. *)
Theorem validation_succeeds_iff (env : Env) (o : Outside) (req : Request)
    (w : World) (st : Z) (u : option string) :
  result (validate_credentials env o req) w
  = Returned (Replied {| status := st; payload := ValidationOk u |})
  <-> exists req2,
        credentials env req = Some req2 /\ makeRequest o = ApiOk
        /\ st = 200 /\ u = username req2.
Proof.
  run_handlers. split.
  - destruct (credentials env req) as [req2|]; cbn.
    + destruct (makeRequest o); cbn; intros E; try discriminate.
      injection E as <- <-. eauto.
    + discriminate.
  - intros (req2 & -> & -> & -> & ->). reflexivity.
Qed.

(** [validation_succeeds_iff] with environment credentials and an API
    that accepts them. *)
Lemma validation_succeeds_iff_witness :
  result (validate_credentials an_env quiet
            (incoming POST "/validate-credentials" None None)) two_sessions
  = Returned (Replied {| status := 200;
                         payload := ValidationOk (Some "login") |}).
Proof.
  apply (proj2 (validation_succeeds_iff an_env quiet
                  (incoming POST "/validate-credentials" None None)
                  two_sessions 200 (Some "login"))).
  eexists. repeat split; reflexivity.
Defined.

(** ** Tool-name validation *)

Section ToolNamesFacts.
Import ToolNames.

Lemma scan_closed (acc names : list string) :
  scan ∅ acc names
  = if existsb is_empty_name names then inl EmptyName
    else inr (acc ++ List.filter is_long_name names).
Proof.
  revert acc. induction names as [|n names IH]; intros acc.
  - cbn. now rewrite app_nil_r.
  - cbn [scan existsb List.filter].
    rewrite bool_decide_eq_false_2 by apply not_elem_of_empty.
    fold (is_empty_name n). fold (is_long_name n).
    destruct (is_empty_name n); [reflexivity|]. cbn [orb]. rewrite IH.
    destruct (existsb is_empty_name names); [reflexivity|].
    destruct (is_long_name n); [now rewrite <- app_assoc | reflexivity].
Qed.

Lemma validate_closed (modules : list (list string)) :
  ValidateToolNames modules
  = if existsb is_empty_name (concat modules) then EmptyName
    else match List.filter is_long_name (concat modules) with
         | [] => Accepted
         | long => TooLong long
         end.
Proof.
  unfold ValidateToolNames. rewrite scan_closed. cbn [app].
  destruct (existsb is_empty_name (concat modules)); [reflexivity|].
  now destruct (List.filter is_long_name (concat modules)).
Qed.

End ToolNamesFacts.

(** X25.  [ValidateToolNames] never reports a duplicate: the set it
    consults is never filled, so a name that occurs twice is accepted.
    It accepts a collection of tool names exactly when every name is
    non-empty and at most 50 characters long; an empty name is reported
    as such even when other names are too long; otherwise all names
    longer than 50 are reported together, in order. *)
Theorem tool_names_verdict (modules : list (list string)) :
  (ToolNames.ValidateToolNames modules = ToolNames.Accepted
   \/ ToolNames.ValidateToolNames modules = ToolNames.EmptyName
   \/ exists long, ToolNames.ValidateToolNames modules = ToolNames.TooLong long)
  /\ (ToolNames.ValidateToolNames modules = ToolNames.Accepted
      <-> (forall n, n ∈ concat modules ->
             (0 < String.length n)%nat /\ (String.length n <= 50)%nat))
  /\ (ToolNames.ValidateToolNames modules = ToolNames.EmptyName
      <-> EmptyString ∈ concat modules)
  /\ (forall long,
        ToolNames.ValidateToolNames modules = ToolNames.TooLong long
        <-> (EmptyString ∉ concat modules) /\ long <> []
            /\ long = List.filter is_long_name (concat modules)).
Proof.
  rewrite validate_closed.
  assert (Hempty : existsb is_empty_name (concat modules) = true
                   <-> EmptyString ∈ concat modules).
  { rewrite existsb_exists. split.
    - intros (n & Hin & Hn). apply list_elem_of_In in Hin.
      unfold is_empty_name in Hn. apply Nat.eqb_eq in Hn.
      destruct n; [exact Hin | discriminate].
    - intros Hin. exists EmptyString. split; [|reflexivity].
      now apply list_elem_of_In. }
  assert (Hlong : List.filter is_long_name (concat modules) = []
                  <-> forall n, n ∈ concat modules ->
                        (String.length n <= 50)%nat).
  { split.
    - intros Hf n Hin. apply list_elem_of_In in Hin.
      destruct (is_long_name n) eqn:Hn.
      + assert (Hin' : In n (List.filter is_long_name (concat modules)))
          by (apply List.filter_In; auto).
        rewrite Hf in Hin'. destruct Hin'.
      + unfold is_long_name in Hn. apply Nat.ltb_ge in Hn. exact Hn.
    - intros Hall.
      destruct (List.filter is_long_name (concat modules)) as [|n l] eqn:Hf;
        [reflexivity|].
      assert (Hin : In n (List.filter is_long_name (concat modules)))
        by (rewrite Hf; left; reflexivity).
      apply List.filter_In in Hin as [Hin Hn].
      apply list_elem_of_In in Hin. specialize (Hall n Hin).
      unfold is_long_name in Hn. apply Nat.ltb_lt in Hn. lia. }
  destruct (existsb is_empty_name (concat modules)) eqn:He.
  - assert (Hin : EmptyString ∈ concat modules) by now apply Hempty.
    split; [right; left; reflexivity|]. split; [|split].
    + split; [discriminate|]. intros Hall. specialize (Hall _ Hin).
      cbn in Hall. lia.
    + split; auto.
    + intros long. split; [discriminate|]. intros [Hno _]. contradiction.
  - assert (Hnot : EmptyString ∉ concat modules).
    { intros Hin. apply Hempty in Hin. congruence. }
    destruct (List.filter is_long_name (concat modules)) as [|n l] eqn:Hf.
    + split; [left; reflexivity|]. split; [|split].
      * split; [|reflexivity]. intros _ m Hin. split.
        -- destruct m; [contradiction | cbn; lia].
        -- now apply (proj1 Hlong).
      * split; [discriminate | contradiction].
      * intros long. split; [discriminate|].
        intros (_ & Hne & ->). contradiction.
    + split; [right; right; eexists; reflexivity|]. split; [|split].
      * split; [discriminate|]. intros Hall.
        assert (Hnil : n :: l = []).
        { apply Hlong. intros m Hin. apply Hall, Hin. }
        discriminate.
      * split; [discriminate | contradiction].
      * intros long. split.
        -- intros E. injection E as <-. auto.
        -- intros (_ & _ & ->). reflexivity.
Qed.

(** [tool_names_verdict] for two modules that both register the name
    ["serp_locations"]: the collection is accepted. *)
Lemma tool_names_verdict_witness :
  ToolNames.ValidateToolNames
    [["serp_locations"; "serp_live"]; ["serp_locations"]]
  = ToolNames.Accepted.
Proof.
  apply (proj1 (proj2 (tool_names_verdict
                         [["serp_locations"; "serp_live"];
                          ["serp_locations"]]))).
  intros n Hin. cbn in Hin.
  repeat (apply elem_of_cons in Hin as [-> | Hin]; [cbn; lia|]).
  now apply not_elem_of_nil in Hin.
Defined.

(** ** Field paths *)

Section FieldsFacts.
Import Fields.

Lemma join_split (sep : ascii) (s : string) : join sep (Js.split sep s) = s.
Proof.
  induction s as [|c s IH]; [reflexivity|]. cbn [Js.split].
  pose proof (split_nonempty sep s) as Hne.
  destruct (Js.split sep s) as [|x xs]; [contradiction|].
  destruct (Ascii.eqb_spec c sep) as [->|Hc].
  - change (join sep (EmptyString :: x :: xs))
      with (String sep (join sep (x :: xs))).
    now rewrite IH.
  - destruct xs as [|y ys].
    + change (join sep [String c x]) with (String c (join sep [x])).
      now rewrite IH.
    + change (join sep (String c x :: y :: ys))
        with (String c (join sep (x :: y :: ys))).
      now rewrite IH.
Qed.

Lemma split_injective (sep : ascii) (s t : string) :
  Js.split sep s = Js.split sep t -> s = t.
Proof.
  intros H. rewrite <- (join_split sep s), <- (join_split sep t).
  now rewrite H.
Qed.

Lemma every_from_spec (fieldParts : list string) (i : nat)
    (patternParts rest : list string) :
  drop i fieldParts = rest ->
  length patternParts = length rest ->
  every_from
    (fun part index =>
       String.eqb part "*" || same_part part (fieldParts !! index))
    i patternParts = true
  <-> Forall2 segment_matches patternParts rest.
Proof.
  revert i rest. induction patternParts as [|p ps IH]; intros i rest Hd Hl.
  - destruct rest; [|discriminate]. split; [constructor | reflexivity].
  - destruct rest as [|f fs]; [discriminate|].
    assert (Hi : fieldParts !! i = Some f).
    { pose proof (lookup_drop fieldParts i 0) as H0.
      rewrite Hd, Nat.add_0_r in H0. now rewrite <- H0. }
    assert (Hd' : drop (S i) fieldParts = fs).
    { pose proof (drop_drop fieldParts 1 i) as H1.
      rewrite Hd, Nat.add_1_r in H1. now rewrite <- H1. }
    cbn [every_from]. rewrite Hi. cbn [same_part].
    rewrite andb_true_iff, orb_true_iff, !String.eqb_eq.
    rewrite (IH (S i) fs Hd') by (cbn in Hl; lia).
    rewrite Forall2_cons. reflexivity.
Qed.

Lemma matches_spec (pattern fieldPath : string) :
  matchesWildcardPattern pattern fieldPath = true
  <-> Forall2 segment_matches (Js.split "." pattern)
        (Js.split "." fieldPath).
Proof.
  unfold matchesWildcardPattern.
  destruct (Nat.eqb_spec (length (Js.split "." pattern))
              (length (Js.split "." fieldPath))) as [Hl|Hl]; cbn [negb].
  - apply every_from_spec; [reflexivity | exact Hl].
  - split; [discriminate|]. intros H. apply Forall2_length in H.
    contradiction.
Qed.

End FieldsFacts.

(** X26.  [matchesWildcardPattern(pattern, fieldPath)] holds exactly when
    the two strings have the same number of dot-separated segments and
    every segment of the pattern is ["*"] or equals the segment of the
    field path at the same position. *)
Theorem wildcard_match_by_segments (pattern fieldPath : string) :
  Fields.matchesWildcardPattern pattern fieldPath = true
  <-> Forall2 segment_matches (Js.split "." pattern) (Js.split "." fieldPath).
Proof. apply matches_spec. Qed.

(** [wildcard_match_by_segments] at the pattern ["tasks.*.items"]. *)
Lemma wildcard_match_by_segments_witness :
  Fields.matchesWildcardPattern "tasks.*.items" "tasks.0.items" = true.
Proof.
  apply (proj2 (wildcard_match_by_segments "tasks.*.items" "tasks.0.items")).
  repeat constructor; first [ left; reflexivity | right; reflexivity ].
Defined.

(** X27.  A pattern none of whose segments is ["*"] matches one field
    path only, itself. *)
Theorem pattern_without_wildcard_is_exact (pattern fieldPath : string) :
  (forall part, part ∈ Js.split "." pattern -> part <> "*") ->
  Fields.matchesWildcardPattern pattern fieldPath = true
  <-> fieldPath = pattern.
Proof.
  intros Hno. rewrite matches_spec. split.
  - intros H. symmetry. apply (split_injective ".").
    revert H Hno. generalize (Js.split "." pattern), (Js.split "." fieldPath).
    induction 1 as [|p f ps fs [Hp | Hp] _ IH]; intros Hno.
    + reflexivity.
    + exfalso. apply (Hno p); [apply list_elem_of_here | exact Hp].
    + subst f. f_equal. apply IH. intros part Hin. apply Hno.
      now apply list_elem_of_further.
  - intros ->. generalize (Js.split "." pattern).
    induction l; constructor; [right; reflexivity | assumption].
Qed.

(** [pattern_without_wildcard_is_exact] at ["tasks.result.items"]. *)
Lemma pattern_without_wildcard_is_exact_witness :
  Fields.matchesWildcardPattern "tasks.result.items" "tasks.result.items"
  = true.
Proof.
  apply (pattern_without_wildcard_is_exact "tasks.result.items"
           "tasks.result.items"); [|reflexivity].
  intros part Hin. cbn in Hin.
  repeat (apply elem_of_cons in Hin as [-> | Hin]; [discriminate|]).
  now apply not_elem_of_nil in Hin.
Defined.

Section ParseFacts.
Import Fields.



End ParseFacts.



(** ** Filter cache *)

(** X29.  After a fetch at time [now] that read a defined value [f], every
    call less than [CACHE_TTL] later returns [f] without a request and
    leaves the static members alone, whatever the API would have
    answered. *)
Theorem cached_filters_are_reused (st : FiltersCache.State) (now later : Z)
    (f : FiltersCache.Filters) (api : FiltersCache.Fetch) :
  FiltersCache.fresh now st = false ->
  later - now < FiltersCache.CACHE_TTL ->
  let first :=
    FiltersCache.fetchAndCacheFilters now
      (FiltersCache.FetchReturns (Some f)) st in
  let second :=
    FiltersCache.fetchAndCacheFilters later api (FiltersCache.next first) in
  FiltersCache.requested first = true
  /\ FiltersCache.returned second = Some (Some f)
  /\ FiltersCache.requested second = false
  /\ FiltersCache.next second = FiltersCache.next first.
Proof.
  intros Hstale Hlate first second. subst first second.
  unfold FiltersCache.fetchAndCacheFilters. rewrite Hstale.
  cbn [FiltersCache.next FiltersCache.requested].
  unfold FiltersCache.fresh at 1 2 3.
  cbn [FiltersCache.cache FiltersCache.lastFetchTime].
  rewrite bool_decide_eq_true_2 by exact Hlate. auto.
Qed.

(** [cached_filters_are_reused] from the initial state, fetched at a
    present-day clock value and asked again one hour later while the API
    is failing. *)
Lemma cached_filters_are_reused_witness :
  let now := 1700000000000 in
  let f := [("domain", "str")] in
  let first :=
    FiltersCache.fetchAndCacheFilters now
      (FiltersCache.FetchReturns (Some f)) FiltersCache.initial in
  let second :=
    FiltersCache.fetchAndCacheFilters (now + 3600000)
      FiltersCache.FetchRaises (FiltersCache.next first) in
  FiltersCache.returned second = Some (Some f)
  /\ FiltersCache.requested second = false.
Proof.
  intros now f first second.
  destruct (cached_filters_are_reused FiltersCache.initial now
              (now + 3600000) f FiltersCache.FetchRaises)
    as (_ & Hr & Hq & _); [reflexivity | reflexivity |].
  split; assumption.
Defined.

(** X30.  A call at least [CACHE_TTL] after the last fetch, or with an
    undefined cache, always makes a request.  When that request fails the
    call throws and the static members keep their values, so the next
    call requests again; when it succeeds the value read becomes the
    cache and the call time the fetch time. *)
Theorem expired_cache_is_refetched (st : FiltersCache.State) (now : Z)
    (api : FiltersCache.Fetch) :
  FiltersCache.cache st = None
  \/ FiltersCache.CACHE_TTL <= now - FiltersCache.lastFetchTime st ->
  let run := FiltersCache.fetchAndCacheFilters now api st in
  FiltersCache.requested run = true
  /\ match api with
     | FiltersCache.FetchRaises =>
         FiltersCache.returned run = None /\ FiltersCache.next run = st
     | FiltersCache.FetchReturns filters =>
         FiltersCache.returned run = Some filters
         /\ FiltersCache.next run
            = {| FiltersCache.cache := filters;
                 FiltersCache.lastFetchTime := now |}
     end.
Proof.
  intros Hexp run. subst run.
  assert (Hstale : FiltersCache.fresh now st = false).
  { unfold FiltersCache.fresh. destruct Hexp as [-> | Hexp]; [reflexivity|].
    destruct (FiltersCache.cache st); [|reflexivity].
    apply bool_decide_eq_false_2. lia. }
  unfold FiltersCache.fetchAndCacheFilters. rewrite Hstale.
  destruct api; cbn; auto.
Qed.

(** [expired_cache_is_refetched] for the first call of a process, at a
    present-day clock value: the empty initial cache is not served. *)
Lemma expired_cache_is_refetched_witness :
  FiltersCache.requested
    (FiltersCache.fetchAndCacheFilters 1700000000000 FiltersCache.FetchRaises
       FiltersCache.initial) = true.
Proof.
  apply (expired_cache_is_refetched FiltersCache.initial 1700000000000
           FiltersCache.FetchRaises).
  right. unfold FiltersCache.CACHE_TTL. cbn. lia.
Defined.
